(* ===== verification/_CoqProject ===== *)
-Q . S2P
Prelude.v
PyData.v
Http.v
Codec.v
UserStore.v
UserCrud.v
Fixtures.v
CreateToken.v
Security.v
Refinement.v
Routers.v
Programs.v
Wp.v
System.v
Attacker.v
Safety.v
Interleaving.v
Phases.v
Contracts.v
Scheduler.v
Timing.v
Scenario.v
