(* ===== verification/Prelude.v ===== *)
(** * Verification of the access/refresh JWT authentication service

    The program is a FastAPI service (Python) that authenticates users with a
    pair of signed tokens.  Its sources under [src/src/] are

    - [auth/create_token.py]: the token factory ([create_jwt],
      [create_access_token], [create_refresh_token]);
    - [api_v1/dependencies/security_dependencies.py]: the two readers of the
      [Authorization] header ([http_bearer], [oauth2_scheme]), the credential
      gate ([validate_auth_user]) and the token-validation chain
      ([get_current_token_payload], [validate_token_type],
      [get_user_by_token_sub], [UserGetterFromToken],
      [get_current_active_auth_user]);
    - [api_v1/routers/demo_jwt_auth.py] and [api_v1/routers/user_router.py]:
      the endpoints [/auth/login/], [/auth/refresh/], [/auth/register/] and
      [/users/me/].

    A login passes the credential gate and is answered with an access and a
    refresh token from the factory.  A protected request carries a bearer
    token, which the chain decodes, checks for its kind, resolves to a row of
    the user table and checks for liveness.  [/auth/refresh/] runs the chain
    for a refresh token and signs a new access token; [/users/me/] runs it
    for an access token and returns the profile of the row.

    The signing codec ([src.auth.utils]: [encode_jwt], [decode_jwt],
    [validate_password]), the configuration ([src.core.config]), the [User]
    table and its session ([src.core.database]), [create_user] and the FastAPI
    classes are not among the sources.  They are modelled from the
    specification and entered as interfaces (type classes with laws), so that
    every theorem about the code above is proved against the interface, and a
    concrete instance shows that the laws can be met.

    ** Files

    - [Prelude] (this file): the [result] type that stands for a Python call
      that returns or raises, its monad instances for stdpp's [≫=] notation,
      the notations of scope [res_scope], the tactics [res_inv] and
      [case_res], and the hint and rewrite database [authjwt].
    - [PyData]: Python values as they occur in claims ([pyval]), dictionaries
      with string keys as [gmap string pyval], [dict_get] for [dict.get],
      Python's [==] on these values ([py_eq]) and [repr] ([py_repr]).
    - [Http]: [HTTPException] with its status code, detail and headers, the
      status constants the sources use, and the classes
      [OAuth2PasswordBearer] and [HTTPBearer] of [fastapi.security] on a
      header split into scheme and credentials.
    - [Codec]: the interface [JwtCodec] (sign and verify a claims dictionary),
      [encode_jwt] and [decode_jwt] of [src.auth.utils] on top of it with the
      expiry and issued-at claims, the interface [PasswordHasher], and a
      symbolic instance in which a token is a claims dictionary tagged with the
      key that signed it.
    - [UserStore]: the [User] row, the interface [UserStore] ([select ...
      where username == ...] with [.first()], and [session.get] by primary
      key) and its instance on a list of rows.
    - [UserCrud]: the interface [UserCrud] for [create_user], and its
      instance on a list of rows.
    - [Fixtures]: the concrete key, configuration, users and table on which
      the theorems are instantiated.
    - [CreateToken]: [auth/create_token.py], definition by definition, and
      [claims_wf], the well-formedness of a claims set.
    - [Security]: [security_dependencies.py], definition by definition,
      followed by the chain the framework builds from the [Depends]
      declarations.
    - [Refinement]: the credential gate and the validation pipeline as the
      specification states them (a relation [Gate.authenticate], a machine
      [Pipeline.step] with its executable [Pipeline.next], [Pipeline.run] and
      [Pipeline.validate]), and the theorems that the code implements them.
    - [Routers]: the handlers of the two router files, and each route as its
      handler after the dependencies the framework resolves for it.
    - [Programs]: the same functions as programs that call their environment
      ([call]: a read of the clock, an awaited query of the session, the
      awaited [create_user]), finite trees ([prog]) with their interpretation
      at one instant ([run_prog]), one call at a time ([pstep]), and the list
      of the calls made ([calls]).
    - [Wp]: the contract of a program whatever the clock and the table
      answer to its calls ([wp], a weakest precondition over the answers an
      environment permits; [lawful], the answers of a user table), and the
      contracts of the functions of the sources.
    - [System]: the service: a state ([world]: clock, table, tokens handed
      out), the function [serve] that answers a request with the routes, the
      step relation [step], its executable form [exec], runs ([run]) and
      traces ([trace]), and the equivalence of states [world_equiv].
    - [Attacker]: for the symbolic codec, the tokens a client can build who
      does not hold the server's key ([forgeable]), and the service whose
      requests are those of that client ([astep]).
    - [Safety]: the invariant of the handed-out tokens ([provenance]) and the
      theorems that trace every grant back to a login.
    - [Interleaving]: the service with requests in flight: each request
      advances by phases ([advance]), one read of the clock or of the table
      per phase, and the phases of different requests, the ticks and the
      changes of the table interleave ([istep], [iexec], [irun], [itrace]).
    - [Phases]: the program of a request ([program]), the program a phase of
      [Interleaving] has left to run ([remaining]), and the theorem that a
      phase is one call of the program.
    - [Contracts]: the contract of a request ([contract]) and the theorem
      that every response of the interleaved service meets it.
    - [Scheduler]: the service as a scheduler of the programs: a request in
      flight is a task that holds the program it has left ([task]), and a
      step resumes one task by one call ([resume]) or cancels it ([cancel]);
      [sstep], [sexec], [srun] and [strace] are the step relation, its
      executable form, runs and traces.
    - [Timing]: the interleaved service on the clock: each request in flight
      is stamped with the instant it arrived ([stamped]) and makes a phase
      only while it is at most a threshold of seconds old ([texec], [trun],
      [ttrace]).
    - [Scenario]: sessions evaluated with [run], [irun], [srun] and [trun].

    ** Correspondence of state and operations

    The code keeps no state of its own between requests.  What a request
    reads is the clock (the [now] argument of every definition that, in the
    source, reaches [datetime.utcnow()] or the expiry check of the decoder;
    a handler that reads it twice has two such arguments), the user table
    (the [db] argument, read through [UserStore]) and the process
    configuration ([AuthJWT]: the two token lifetimes).  A Python function
    that returns a value or raises [HTTPException] is a function into
    [result HTTPException _]; statements in sequence are binds, and a [raise]
    under an [if] is the [Err] branch of the corresponding conditional, in the
    order of the source.  A claims dictionary is a [gmap string pyval]; the
    order of keys, which only the serializer of the codec could observe, is
    not modelled.

    A route is its handler after its dependencies: those of the router first,
    then those of the handler's parameters from left to right, each resolved
    once per request.  The state of [System] is what the routes read (clock
    and table) together with the list of the tokens handed out, which the
    code does not keep and which is there to state that tokens are not
    forged: the bearer token of a request is one of the list or one that
    does not verify ([System.presentable]).  The table changes by
    [/auth/register/] and by steps of the environment (any well-formed
    table).  In [System] a request is one step, and sees one instant and one
    table.  In [Interleaving] a request is a sequence of phases, each the
    code of its route between two reads of shared state: the gate, then one
    signature, then the other, for a login; the decoding, then the lookup
    with its checks, then the signature, for a refresh; the decoding, then
    the lookup with its checks and the handler, for a profile.  [Programs]
    has the calls of the code in the code: [validate_auth_user] and
    [get_user_by_token_sub] are coroutines that await the session,
    [encode_jwt] and the decoder read the clock, and a program is what the
    code does between and after those calls; [Phases] shows that the phases
    are cut exactly there.  In [Scheduler] the state of a request in flight
    is that program and nothing else: a step answers its first call from the
    clock and the table of the moment, and the response is sent by the step
    that leaves no call (or by the first step, for a program that makes
    none).  A task that is not answered can be cancelled, which stands for
    the timeout of the server and for a client that disconnects: the code
    has no handler for either, and the task is resumed no more.  [Timing]
    adds to each request in flight the instant of its arrival, which the
    code does not keep either: it stands for the timeout of the server, and
    the step of [Timing] is the step of [Interleaving] under the test that
    the request is not older than the threshold.

    ** What the theorems show

    - [PyData], [Codec], [UserStore], [UserCrud]: the laws the interfaces
      state hold of the instances; decoding inverts encoding until the
      embedded expiry is exceeded, and fails with [Expired] after it.
    - [CreateToken]: the claims each kind of token carries (the access token
      has [type], [sub], [username], [email]; the refresh token [type] and
      [sub] only), the lifetime embedded for each kind, and that
      [dict.update] lets a [type] key of the caller's data replace the token
      kind in [create_jwt].
    - [Security]: the behaviour of each dependency on every branch, errors
      included; the order of checks (password before liveness in the
      credential gate; decode, then kind, then subject, then liveness in the
      chain); that a token of one kind is refused where the other is required;
      that a granted request implies a well-signed unexpired token of the
      required kind whose subject is an active row of the table.
    - [Refinement]: the credential gate relates credentials to an outcome
      exactly when the code returns the HTTP answer of that outcome; the
      chain returns the answer of the outcome the pipeline reaches; the
      pipeline stops within the stages left.
    - [Routers]: when [/users/me/] answers with a profile; what a login
      followed by a refresh and a profile request returns; that a refresh
      hands out no refresh token; how a missing header, another scheme and a
      bad token are answered; that the cache of dependencies does not change
      the answer.
    - [Programs]: each program, run at one instant on one table, is the
      function of [Security] or [Routers] it stands for; the credential gate
      queries the table once whatever the credentials; the chain reads the
      clock once and queries the table only for a token that decodes and is
      of the kind required.
    - [Attacker]: with the symbolic codec, the requests [System],
      [Interleaving] and [Scheduler] admit are exactly those a client can
      send who has seen every token handed out and signs any claims under
      any key but the server's.
    - [System] and [Safety]: [run] and [trace] are the same semantics; the
      clock does not go back and no handed-out token is forgotten; every
      handed-out token is a refresh token signed at a login or an access
      token signed within the refresh lifetime of a login of its subject;
      hence every profile served and every refresh granted belongs to an
      active row whose key logged in, at most the refresh lifetime (plus the
      access lifetime for a profile) earlier, and that login passed the
      credential gate; a user whose credentials pass the gate gets a session
      in every reachable state.
    - [Interleaving]: without the assumption that a request sees one instant
      and one table, every profile answered is still that of a row active at
      the lookup whose key logged in, and every refresh answered is for a
      user whose key logged in; every request in flight is answered after
      its remaining phases; every trace of [System] is a trace of the
      interleaved service.  The bound on the lifetime of a session does not
      carry over: the time between two phases of a request is not bounded.
    - [Phases]: a phase of [Interleaving] is the first call of the program
      the request has left, answered at the clock and the table of the
      moment; the program of a request run at one instant answers what
      [System.serve] answers; a request makes at most as many calls as it
      has phases left, queries the table at most once, and writes it only
      when it is a registration.
    - [Wp] and [Contracts]: the laws of the weakest precondition and its
      adequacy for one call and for a run; under any reading of the clock
      and any answer of a table at each call, the credential gate returns
      only an active row of the presented username whose hash verifies the
      presented password, and the chain only an active row whose key is the
      subject of the claims the token decodes to, of the kind required; a
      phase keeps the contract of the program it has left, so every response
      of the interleaved service meets the contract of its route, with no
      assumption on the tokens presented.
    - [Scheduler]: every trace of [System] is a trace of the scheduler (a
      task resumed with nothing in between is answered as [System.serve]
      answers), and every trace of the scheduler is a trace of
      [Interleaving], a call being one phase or two and a cancelled task a
      request that makes no further phase; hence the theorems of
      [Interleaving] and [Contracts] hold of the programs of the sources
      scheduled one call at a time.  A step that answers no request leaves
      the clock, the table and the issued tokens as they are, so a request
      that is cancelled has left nothing to undo; a request that is neither
      answered nor cancelled can be answered.  The converse of the
      second inclusion does not hold step by step: a phase that makes no
      call (the refusal of a decoded payload of the wrong kind) is a step of
      [Interleaving] by itself and part of the preceding call in
      [Scheduler] ([Scenario.scenario_phase_without_call]).
    - [Timing]: when a request is dropped once it is older than a threshold,
      the bound holds again with the latency in it: a profile is answered
      at most the refresh lifetime, the access lifetime and two thresholds
      after a login of its user was answered, and a refresh at most the
      refresh lifetime and one threshold after it; a request that has not
      timed out can be answered before it does.  Every trace of [System] is a
      trace of the timed service for every threshold that is not negative:
      with the threshold zero the bound is that of [Safety].

    ** Bounds and fuel

    Integers are unbounded ([Z]), as Python's are.  Time is in whole seconds
    since the epoch: a lifetime in minutes is multiplied by 60 and one in days
    by 86400.  The sources have no loop and no recursion.  The pipeline of
    [Refinement] is run with fuel 4: a state has at most four stages left
    ([Pipeline.stages_left]) and every step lowers that number, so four
    steps reach an outcome from the start ([Pipeline.validate_Done]).
    [System.run], [Interleaving.irun], [Scheduler.srun] and [Timing.trun]
    recurse on their list of inputs.  A program of [Programs] is a finite tree, and
    [Programs.run_prog] and [Wp.wp] recurse on it: the sources have neither
    loops nor recursion, so no fuel is needed, and a contract proved with
    [wp] is one of total correctness.  A request in flight has at most three phases left
    ([Interleaving.phases_left]), and every phase lowers that number.  The
    theorems of [Safety] and [Timing] assume a refresh lifetime that is not
    negative.  The threshold of [Timing] is any integer: a phase that runs
    shows that it is not negative, and with a negative one no request makes
    a phase.

    ** Not modelled

    HTTP transport and routing, form and body parsing, response
    serialization, the splitting of the [Authorization] header at its first
    space, the policy of the event loop (any interleaving of the phases or
    of the calls is a run, and in [Timing] any that keeps each request
    within the threshold), the
    cryptography of signatures (tokens are symbolic, and that no token
    verifies which the server has not signed is an assumption on the
    requests, which [Attacker] shows to be the symbolic client without the
    key, not a theorem about a signature scheme), the hashing primitive (an interface with
    its law), and what [create_user] stores (an interface with the law that
    the primary key stays unique). *)

From stdpp Require Import base tactics option.

(** ** Results: a call that returns or raises *)

Declare Scope res_scope.
Delimit Scope res_scope with res.

Inductive result (E A : Type) : Type :=
  | Ok (a : A)
  | Err (e : E).

Arguments Ok {E A} a.
Arguments Err {E A} e.

#[export] Instance result_eq_dec `{EqDecision E, EqDecision A} :
  EqDecision (result E A).
Proof. solve_decision. Defined.

#[export] Instance result_ret {E} : MRet (result E) := λ A a, Ok a.

#[export] Instance result_bind {E} : MBind (result E) := λ A B f m,
  match m with
  | Ok a => f a
  | Err e => Err e
  end.

#[export] Instance result_fmap {E} : FMap (result E) := λ A B f m,
  match m with
  | Ok a => Ok (f a)
  | Err e => Err e
  end.

(** [try: m except h]: the handler [h] sees what [m] raised, and may turn it
    into an exception of another type. *)
Definition try_except {E E' A} (m : result E A) (h : E → result E' A) :
    result E' A :=
  match m with
  | Ok a => Ok a
  | Err e => h e
  end.

Definition is_ok {E A} (m : result E A) : bool :=
  match m with
  | Ok _ => true
  | Err _ => false
  end.

Definition of_option {E A} (o : option A) (e : E) : result E A :=
  match o with
  | Some a => Ok a
  | None => Err e
  end.

Notation "'raise' e" := (Err e) (at level 10, e at level 9) : res_scope.
Notation "'unless' b 'raise' e ;; k" := (if b then k else Err e)
  (at level 10, b at level 9, e at level 9, k at level 200,
   format "'[v' 'unless'  b  'raise'  e ;;  '/' k ']'") : res_scope.
Notation "'try' m 'except' h" := (try_except m h)
  (at level 10, m at level 9, h at level 9) : res_scope.

(** ** Lemmas on results *)

Section result_lemmas.
Context {E A B C : Type}.
Implicit Types (m : result E A) (f : A → result E B) (g : B → result E C).

Lemma bind_Ok a f : Ok a ≫= f = f a.
Proof. reflexivity. Qed.

Lemma bind_Err (e : E) f : Err e ≫= f = Err e.
Proof. reflexivity. Qed.

Lemma bind_ret m : m ≫= mret = m.
Proof. by destruct m. Qed.

Lemma bind_assoc m f g : (m ≫= f) ≫= g = m ≫= (λ a, f a ≫= g).
Proof. by destruct m. Qed.

Lemma bind_Ok_inv m f b : m ≫= f = Ok b ↔ ∃ a, m = Ok a ∧ f a = Ok b.
Proof.
  destruct m as [a|e]; simpl; naive_solver.
Qed.

Lemma bind_Err_inv m f e :
  m ≫= f = Err e ↔ m = Err e ∨ ∃ a, m = Ok a ∧ f a = Err e.
Proof.
  destruct m as [a|e']; simpl; naive_solver.
Qed.

Lemma fmap_Ok_inv m (h : A → B) b : h <$> m = Ok b ↔ ∃ a, m = Ok a ∧ b = h a.
Proof.
  destruct m as [a|e]; simpl; naive_solver.
Qed.

Lemma try_except_Ok_inv {E'} m (h : E → result E' A) a :
  try_except m h = Ok a ↔ m = Ok a ∨ ∃ e, m = Err e ∧ h e = Ok a.
Proof.
  destruct m as [a'|e]; simpl; naive_solver.
Qed.

Lemma is_ok_true m : is_ok m = true ↔ ∃ a, m = Ok a.
Proof. destruct m; simpl; naive_solver. Qed.

Lemma of_option_Ok (o : option A) (e : E) a : of_option o e = Ok a ↔ o = Some a.
Proof. destruct o; simpl; naive_solver. Qed.

Lemma of_option_Err (o : option A) (e e' : E) :
  of_option o e = Err e' ↔ o = None ∧ e = e'.
Proof. destruct o; simpl; naive_solver. Qed.

End result_lemmas.

(** ** Automation *)

Create HintDb authjwt discriminated.
Create Rewrite HintDb authjwt.

#[export] Hint Rewrite @bind_Ok @bind_Err @bind_ret : authjwt.

(** [res_inv] takes apart the hypotheses that say a sequence of calls returned
    or raised. *)
Ltac res_inv :=
  repeat match goal with
  | H : Ok _ = Ok _ |- _ => injection H as H; try subst
  | H : Err _ = Err _ |- _ => injection H as H; try subst
  | H : Ok _ = Err _ |- _ => discriminate H
  | H : Err _ = Ok _ |- _ => discriminate H
  | H : _ ≫= _ = Ok _ |- _ => apply bind_Ok_inv in H as (? & ? & H)
  | H : _ <$> _ = Ok _ |- _ => apply fmap_Ok_inv in H as (? & H & ?)
  | H : of_option _ _ = Ok _ |- _ => apply of_option_Ok in H
  | H : of_option _ _ = Err _ |- _ => apply of_option_Err in H as [? ?]
  | H : is_ok _ = true |- _ => apply is_ok_true in H as [? H]
  end.

(** [case_res] splits on the result or the test the goal is stuck on. *)
Ltac case_res :=
  match goal with
  | |- context [match ?m with Ok _ => _ | Err _ => _ end] =>
      destruct m eqn:?; simpl
  | |- context [if ?b then _ else _] => destruct b eqn:?; simpl
  | |- context [match ?o with Some _ => _ | None => _ end] =>
      destruct o eqn:?; simpl
  end.
