(* ===== verification/PyData.v ===== *)
(** Python data as the sources use it: the values a claims dictionary holds,
    dictionaries with string keys, [dict.get], the equality [==] and [repr]
    (which the f-string conversion [!r] calls). *)

From Stdlib Require Import Ascii.
From stdpp Require Import base strings gmap pretty numbers.
From S2P Require Import Prelude.

Local Open Scope Z_scope.

(** ** Values *)

(** The values of a JSON claims set that the sources produce or inspect:
    [None], booleans, integers and strings. *)
Inductive pyval : Type :=
  | PyNone
  | PyBool (b : bool)
  | PyInt (z : Z)
  | PyStr (s : string).

#[export] Instance pyval_eq_dec : EqDecision pyval.
Proof. solve_decision. Defined.

#[export] Instance pyval_inhabited : Inhabited pyval := populate PyNone.

(** A [dict] with [str] keys.  An abbreviation and not a definition, so that
    stdpp's map lemmas rewrite through it. *)
Abbreviation dict := (gmap string pyval).

(** [d.get(k)]: the value under [k], or [None]. *)
Definition dict_get (d : dict) (k : string) : pyval :=
  default PyNone (d !! k).

(** [a == b].  A [bool] is an [int] in Python: [True == 1] and [False == 0]. *)
Definition py_eq (a b : pyval) : bool :=
  match a, b with
  | PyNone, PyNone => true
  | PyBool x, PyBool y => bool_decide (x = y)
  | PyInt x, PyInt y => bool_decide (x = y)
  | PyBool x, PyInt y | PyInt y, PyBool x =>
      bool_decide (y = if x then 1 else 0)
  | PyStr x, PyStr y => bool_decide (x = y)
  | _, _ => false
  end.

(** ** [repr] *)

Definition squote : ascii := Ascii.ascii_of_nat 39.
Definition dquote : ascii := Ascii.ascii_of_nat 34.
Definition backslash : ascii := Ascii.ascii_of_nat 92.

Fixpoint str_mem (c : ascii) (s : string) : bool :=
  match s with
  | EmptyString => false
  | String c' s' => bool_decide (c = c') || str_mem c s'
  end.

(** The quote [repr] encloses a string in: a single quote, unless the string
    holds a single quote and no double quote. *)
Definition repr_quote (s : string) : ascii :=
  if str_mem squote s && negb (str_mem dquote s) then dquote else squote.

Definition hex_digit (n : nat) : ascii :=
  Ascii.ascii_of_nat (if (n <? 10)%nat then 48 + n else 87 + n)%nat.

(** One character of a string under [repr], for the enclosing quote [q]:
    the quote and the backslash are escaped, tab, newline and carriage return
    have their letters, the other control characters of ASCII are written
    [\xhh].  Characters from 128 on are copied: the model holds printable
    text only in that range. *)
Definition repr_char (q c : ascii) : string :=
  let n := Ascii.nat_of_ascii c in
  if bool_decide (c = q) || bool_decide (c = backslash) then
    String backslash (String c EmptyString)
  else if (n =? 9)%nat then String backslash "t"
  else if (n =? 10)%nat then String backslash "n"
  else if (n =? 13)%nat then String backslash "r"
  else if (n <? 32)%nat || (n =? 127)%nat then
    String backslash
      (String "x" (String (hex_digit (n / 16)) (String (hex_digit (n mod 16))
         EmptyString)))
  else String c EmptyString.

Fixpoint repr_body (q : ascii) (s : string) : string :=
  match s with
  | EmptyString => EmptyString
  | String c s' => repr_char q c +:+ repr_body q s'
  end.

Definition str_repr (s : string) : string :=
  let q := repr_quote s in
  String q (repr_body q s +:+ String q EmptyString).

(** [repr(v)], what [{v!r}] puts into an f-string. *)
Definition py_repr (v : pyval) : string :=
  match v with
  | PyNone => "None"
  | PyBool true => "True"
  | PyBool false => "False"
  | PyInt z => pretty z
  | PyStr s => str_repr s
  end.

(** ** Lemmas *)

Lemma dict_get_insert_eq (d : dict) k v : dict_get (<[k:=v]> d) k = v.
Proof. unfold dict_get. by rewrite lookup_insert_eq. Qed.

Lemma dict_get_insert_ne (d : dict) k k' v :
  k ≠ k' → dict_get (<[k:=v]> d) k' = dict_get d k'.
Proof. intros. unfold dict_get. by rewrite lookup_insert_ne. Qed.

Lemma dict_get_None (d : dict) k : d !! k = None → dict_get d k = PyNone.
Proof. unfold dict_get. by intros ->. Qed.

Lemma dict_get_Some (d : dict) k v : d !! k = Some v → dict_get d k = v.
Proof. unfold dict_get. by intros ->. Qed.

Lemma py_eq_refl v : py_eq v v = true.
Proof. destruct v; simpl; by rewrite ?bool_decide_eq_true. Qed.

Lemma py_eq_sym a b : py_eq a b = py_eq b a.
Proof.
  destruct a, b; simpl; try done; apply bool_decide_ext; naive_solver.
Qed.

(** Only a string equals a string. *)
Lemma py_eq_str v s : py_eq v (PyStr s) = true ↔ v = PyStr s.
Proof.
  destruct v; simpl; rewrite ?bool_decide_eq_true; naive_solver.
Qed.

Lemma py_eq_str_false v s : py_eq v (PyStr s) = false ↔ v ≠ PyStr s.
Proof. rewrite <-py_eq_str. by destruct (py_eq _ _). Qed.

Lemma py_eq_none_str s : py_eq PyNone (PyStr s) = false.
Proof. done. Qed.

(** [repr] of a string without quotes, backslashes or control characters is
    the string between single quotes. *)
Definition plain_char (c : ascii) : bool :=
  let n := Ascii.nat_of_ascii c in
  negb (bool_decide (c = squote)) && negb (bool_decide (c = backslash))
  && negb (n <? 32)%nat && negb (n =? 127)%nat.

Fixpoint plain (s : string) : bool :=
  match s with
  | EmptyString => true
  | String c s' => plain_char c && plain s'
  end.

Lemma plain_not_squote s : plain s = true → str_mem squote s = false.
Proof.
  induction s as [|c s IH]; simpl; [done|].
  intros [Hc Hs]%andb_prop. rewrite (IH Hs), orb_false_r.
  apply bool_decide_eq_false. intros <-. by vm_compute in Hc.
Qed.

Lemma repr_char_plain c : plain_char c = true →
  repr_char squote c = String c EmptyString.
Proof.
  unfold plain_char, repr_char.
  intros (((Hq & Hb)%andb_prop & Hlo)%andb_prop & Hdel)%andb_prop.
  apply negb_true_iff in Hq, Hb, Hlo, Hdel.
  rewrite bool_decide_eq_false in Hq. rewrite bool_decide_eq_false in Hb.
  rewrite !bool_decide_false by done. rewrite Hlo, Hdel. simpl.
  apply Nat.ltb_ge in Hlo.
  by rewrite !(proj2 (Nat.eqb_neq _ _)) by lia.
Qed.

Lemma repr_body_plain s : plain s = true → repr_body squote s = s.
Proof.
  induction s as [|c s IH]; simpl; [done|].
  intros [Hc Hs]%andb_prop. by rewrite repr_char_plain, IH.
Qed.

Lemma str_repr_plain s : plain s = true →
  str_repr s = String squote (s +:+ String squote EmptyString).
Proof.
  intros Hs. unfold str_repr, repr_quote.
  by rewrite plain_not_squote, repr_body_plain.
Qed.

Example py_repr_access : py_repr (PyStr "access") = "'access'".
Proof. reflexivity. Qed.

Example py_repr_none : py_repr PyNone = "None".
Proof. reflexivity. Qed.

Example py_repr_int : py_repr (PyInt (-17)) = "-17".
Proof. reflexivity. Qed.

Example py_repr_escapes :
  py_repr (PyStr (String "a" (String (Ascii.ascii_of_nat 10)
             (String squote (String (Ascii.ascii_of_nat 1) "b")))))
  = String dquote (String "a" (String backslash (String "n" (String squote
      (String backslash (String "x" (String "0" (String "1"
      (String "b" (String dquote EmptyString)))))))))).
Proof. reflexivity. Qed.

#[export] Hint Rewrite dict_get_insert_eq py_eq_refl py_eq_none_str : authjwt.
#[export] Hint Rewrite dict_get_insert_ne using done : authjwt.
