(* ===== verification/Http.v ===== *)
(** The part of FastAPI the sources use: [HTTPException], the status
    constants of [fastapi.status], and the two classes of [fastapi.security]
    that read the [Authorization] header, [OAuth2PasswordBearer] and
    [HTTPBearer].  The header is given as FastAPI's
    [get_authorization_scheme_param] splits it at the first space, into a
    scheme and the rest; the splitting itself is not modelled. *)

From Stdlib Require Import Ascii.
From stdpp Require Import base strings numbers.
From S2P Require Import Prelude.

Local Open Scope Z_scope.

(** [HTTPException(status_code=..., detail=..., headers=...)].  [headers] is
    [None] unless the raiser gives them. *)
Record HTTPException : Type := mkHTTPException {
  status_code : Z;
  detail : string;
  headers : option (list (string * string));
}.

#[export] Instance HTTPException_eq_dec : EqDecision HTTPException.
Proof. solve_decision. Defined.

(** The call [HTTPException(status_code=c, detail=d)]. *)
Definition http_error (c : Z) (d : string) : HTTPException :=
  {| status_code := c; detail := d; headers := None |}.

Definition HTTP_401_UNAUTHORIZED : Z := 401.
Definition HTTP_403_FORBIDDEN : Z := 403.

(** What a dependency or an endpoint does: it returns, or raises
    [HTTPException]. *)
Abbreviation http A := (result HTTPException A).

(** ** [str.lower] on ASCII *)

Definition ascii_lower (c : ascii) : ascii :=
  let n := Ascii.nat_of_ascii c in
  if (65 <=? n)%nat && (n <=? 90)%nat then Ascii.ascii_of_nat (n + 32) else c.

Fixpoint str_lower (s : string) : string :=
  match s with
  | EmptyString => EmptyString
  | String c s' => String (ascii_lower c) (str_lower s')
  end.

(** ** The security classes *)

Section security_classes.
Context {T : Type} `{EqDecision T} (empty : T).

(** The [Authorization] header of a request: [None] when the request has none
    or an empty one, otherwise the scheme before the first space and the
    credentials after it ([empty] when there is nothing after it). *)
Definition authorization_header : Type := option (string * T).

Definition get_authorization_scheme_param (authorization : authorization_header) :
    string * T :=
  match authorization with
  | None => (EmptyString, empty)
  | Some (scheme, param) => (scheme, param)
  end.

(** [OAuth2PasswordBearer(tokenUrl=...)], with [auto_error] at its default. *)
Record OAuth2PasswordBearer : Type := mkOAuth2PasswordBearer {
  tokenUrl : string;
}.

Definition not_authenticated : HTTPException :=
  {| status_code := HTTP_401_UNAUTHORIZED; detail := "Not authenticated";
     headers := Some [("WWW-Authenticate", "Bearer")] |}.

(** [OAuth2PasswordBearer.__call__]: the credentials of a header whose scheme
    is [bearer] in any case; 401 for a request with no header or another
    scheme. *)
Definition OAuth2PasswordBearer_call (self : OAuth2PasswordBearer)
    (authorization : authorization_header) : http T :=
  let '(scheme, param) := get_authorization_scheme_param authorization in
  if bool_decide (authorization = None)
     || negb (bool_decide (str_lower scheme = "bearer"))
  then Err not_authenticated
  else Ok param.

(** [HTTPBearer(auto_error=...)]. *)
Record HTTPBearer : Type := mkHTTPBearer {
  auto_error : bool;
}.

(** [HTTPBearer.__call__]: the scheme and the credentials of a bearer header.
    With [auto_error] off, a request without such a header gives [None]
    instead of an exception. *)
Definition HTTPBearer_call (self : HTTPBearer)
    (authorization : authorization_header) : http (option (string * T)) :=
  let '(scheme, credentials) := get_authorization_scheme_param authorization in
  if bool_decide (authorization = None) || bool_decide (scheme = EmptyString)
     || bool_decide (credentials = empty)
  then if auto_error self
       then Err (http_error HTTP_403_FORBIDDEN "Not authenticated")
       else Ok None
  else if negb (bool_decide (str_lower scheme = "bearer"))
  then if auto_error self
       then Err (http_error HTTP_403_FORBIDDEN
                   "Invalid authentication credentials")
       else Ok None
  else Ok (Some (scheme, credentials)).

Lemma OAuth2PasswordBearer_call_Ok self authorization tok :
  OAuth2PasswordBearer_call self authorization = Ok tok ↔
  ∃ scheme, authorization = Some (scheme, tok) ∧ str_lower scheme = "bearer".
Proof.
  unfold OAuth2PasswordBearer_call.
  destruct authorization as [[scheme param]|]; simpl; [|naive_solver].
  case_bool_decide; simpl; naive_solver.
Qed.

Lemma OAuth2PasswordBearer_call_bearer self tok :
  OAuth2PasswordBearer_call self (Some ("Bearer", tok)) = Ok tok.
Proof. done. Qed.

Lemma OAuth2PasswordBearer_call_None self :
  OAuth2PasswordBearer_call self None = Err not_authenticated.
Proof. done. Qed.

Lemma OAuth2PasswordBearer_call_Err self authorization e :
  OAuth2PasswordBearer_call self authorization = Err e → e = not_authenticated.
Proof.
  unfold OAuth2PasswordBearer_call.
  destruct (get_authorization_scheme_param _) as [scheme param].
  destruct (_ || _); naive_solver.
Qed.

(** With [auto_error] off the class raises nothing. *)
Lemma HTTPBearer_call_no_error self authorization :
  auto_error self = false → is_ok (HTTPBearer_call self authorization) = true.
Proof.
  intros Hoff. unfold HTTPBearer_call. rewrite Hoff.
  destruct (get_authorization_scheme_param _) as [scheme credentials].
  by repeat case_res.
Qed.

End security_classes.

Example str_lower_bearer : str_lower "BeArEr" = "bearer".
Proof. reflexivity. Qed.

Lemma http_error_inj c d c' d' :
  http_error c d = http_error c' d' ↔ c = c' ∧ d = d'.
Proof. unfold http_error. naive_solver. Qed.

Lemma status_code_http_error c d : status_code (http_error c d) = c.
Proof. done. Qed.

Lemma detail_http_error c d : detail (http_error c d) = d.
Proof. done. Qed.

#[export] Hint Rewrite status_code_http_error detail_http_error : authjwt.
