(* ===== verification/Codec.v ===== *)
(** The codec of [src.auth.utils], which is not among the sources: signing
    and verifying a claims dictionary ([JwtCodec]), [encode_jwt] and
    [decode_jwt] with the expiry and issued-at claims, the password check
    ([PasswordHasher]) and the lifetimes of the configuration ([AuthJWT]).
    The interfaces state what the token factory and the validation chain rely
    on; the symbolic instances at the end show the laws can be met. *)

From stdpp Require Import base strings gmap numbers.
From S2P Require Import Prelude PyData.

Local Open Scope Z_scope.

(** ** Interfaces *)

(** Signing under the process-wide key.  [jwt_sign] is [jwt.encode] and
    [jwt_verify] the signature and format check of [jwt.decode]: [None] for a
    token that is malformed or was not signed under the key.  [token_empty] is
    the empty string, which is no token. *)
Class JwtCodec : Type := {
  token : Type;
  token_eq_dec :: EqDecision token;
  jwt_sign : dict → token;
  jwt_verify : token → option dict;
  jwt_verify_sign : ∀ claims, jwt_verify (jwt_sign claims) = Some claims;
  token_empty : token;
  jwt_verify_empty : jwt_verify token_empty = None;
}.

(** [validate_password(password, hashed)] with the primitive that produced
    [hashed]. *)
Class PasswordHasher : Type := {
  hash_password : string → string;
  validate_password : string → string → bool;
  validate_hash_password : ∀ pw, validate_password pw (hash_password pw) = true;
}.

(** [settings.auth_jwt]: the two lifetimes. *)
Record AuthJWT : Type := mkAuthJWT {
  access_token_expire_minutes : Z;
  refresh_token_expire_days : Z;
}.

(** Why a token is refused: the two causes behind [jwt.InvalidTokenError]. *)
Inductive InvalidTokenError : Type :=
  | InvalidSignatureOrFormat
  | Expired.

#[export] Instance InvalidTokenError_eq_dec : EqDecision InvalidTokenError.
Proof. solve_decision. Defined.

(** ** Durations, in seconds *)

Definition timedelta_minutes (m : Z) : Z := 60 * m.
Definition timedelta_days (d : Z) : Z := 86400 * d.

(** ** [encode_jwt] and [decode_jwt] *)

Section codec.
Context `{codec : JwtCodec}.
Implicit Types (now : Z) (payload claims : dict) (tok : token).

(** The instant a token issued at [now] expires: the duration wins over the
    minutes when the caller gives one. *)
Definition expire_at now (expire_minutes : Z) (expire_timedelta : option Z) : Z :=
  match expire_timedelta with
  | Some td => now + td
  | None => now + timedelta_minutes expire_minutes
  end.

(** The claims that are signed: the payload with the expiry and the issue
    time written over it. *)
Definition to_encode now payload (expire_minutes : Z)
    (expire_timedelta : option Z) : dict :=
  <["iat" := PyInt now]>
    (<["exp" := PyInt (expire_at now expire_minutes expire_timedelta)]> payload).

Definition encode_jwt now payload (expire_minutes : Z)
    (expire_timedelta : option Z) : token :=
  jwt_sign (to_encode now payload expire_minutes expire_timedelta).

(** The expiry check on verified claims: the token is expired when the current
    time exceeds the embedded expiry; an expiry that is not an integer is a
    format error; claims with no expiry do not expire. *)
Definition check_exp now claims : result InvalidTokenError dict :=
  match claims !! "exp" with
  | None => Ok claims
  | Some (PyInt e) => if bool_decide (e < now) then Err Expired else Ok claims
  | Some _ => Err InvalidSignatureOrFormat
  end.

Definition decode_jwt now tok : result InvalidTokenError dict :=
  match jwt_verify tok with
  | None => Err InvalidSignatureOrFormat
  | Some claims => check_exp now claims
  end.

(** ** Laws *)

Lemma to_encode_exp now payload m td :
  to_encode now payload m td !! "exp" = Some (PyInt (expire_at now m td)).
Proof. unfold to_encode. by simplify_map_eq. Qed.

Lemma to_encode_iat now payload m td :
  to_encode now payload m td !! "iat" = Some (PyInt now).
Proof. unfold to_encode. by simplify_map_eq. Qed.

Lemma to_encode_other now payload m td k :
  k ≠ "exp" → k ≠ "iat" → to_encode now payload m td !! k = payload !! k.
Proof. intros. unfold to_encode. by simplify_map_eq. Qed.

Lemma dom_to_encode now payload m td :
  dom (to_encode now payload m td) = {["iat"; "exp"]} ∪ dom payload.
Proof. unfold to_encode. rewrite !dom_insert_L. set_solver. Qed.

Lemma check_exp_Ok now claims claims' :
  check_exp now claims = Ok claims' ↔
  claims' = claims ∧
  (claims !! "exp" = None ∨ ∃ e, claims !! "exp" = Some (PyInt e) ∧ now ≤ e).
Proof.
  unfold check_exp. destruct (claims !! "exp") as [[| |e|]|];
    try case_bool_decide; naive_solver lia.
Qed.

Lemma decode_jwt_Ok now tok claims :
  decode_jwt now tok = Ok claims ↔
  jwt_verify tok = Some claims ∧
  (claims !! "exp" = None ∨ ∃ e, claims !! "exp" = Some (PyInt e) ∧ now ≤ e).
Proof.
  unfold decode_jwt. destruct (jwt_verify tok) as [c|]; [|naive_solver].
  rewrite check_exp_Ok. naive_solver.
Qed.

Lemma decode_jwt_unverified now tok :
  jwt_verify tok = None → decode_jwt now tok = Err InvalidSignatureOrFormat.
Proof. unfold decode_jwt. by intros ->. Qed.

(** Decoding what [encode_jwt] produced: the signed claims until the expiry is
    exceeded, [Expired] from then on. *)
Lemma decode_encode_jwt now now' payload m td :
  decode_jwt now' (encode_jwt now payload m td) =
  if bool_decide (expire_at now m td < now') then Err Expired
  else Ok (to_encode now payload m td).
Proof.
  unfold decode_jwt, encode_jwt, check_exp.
  by rewrite jwt_verify_sign, to_encode_exp.
Qed.

Lemma decode_encode_jwt_fresh now now' payload m td :
  now' ≤ expire_at now m td →
  decode_jwt now' (encode_jwt now payload m td) = Ok (to_encode now payload m td).
Proof. intros. rewrite decode_encode_jwt. case_bool_decide; [lia|done]. Qed.

Lemma decode_encode_jwt_expired now now' payload m td :
  expire_at now m td < now' →
  decode_jwt now' (encode_jwt now payload m td) = Err Expired.
Proof. intros. rewrite decode_encode_jwt. by case_bool_decide. Qed.

(** Expiry is monotone in time: a token refused as expired stays refused. *)
Lemma decode_jwt_expired_mono now now' tok :
  now ≤ now' → decode_jwt now tok = Err Expired → decode_jwt now' tok = Err Expired.
Proof.
  unfold decode_jwt, check_exp. intros Hle.
  destruct (jwt_verify tok) as [c|]; [|done].
  destruct (c !! "exp") as [[| |e|]|]; try done.
  repeat case_bool_decide; try done; lia.
Qed.

End codec.

(** ** Symbolic instances *)

(** A symbolic token: the claims and the key they were signed under.  It
    verifies under the server's key only. *)
Record stoken : Type := SToken {
  st_key : Z;
  st_claims : dict;
}.

#[export] Instance stoken_eq_dec : EqDecision stoken.
Proof. solve_decision. Defined.

Definition symbolic_verify (server_key : Z) (t : stoken) : option dict :=
  if bool_decide (st_key t = server_key) then Some (st_claims t) else None.

Lemma symbolic_verify_sign server_key claims :
  symbolic_verify server_key (SToken server_key claims) = Some claims.
Proof. unfold symbolic_verify. simpl. by rewrite bool_decide_true. Qed.

(** The empty string of the symbolic tokens: no claims, under a key that is
    not the server's. *)
Definition symbolic_empty (server_key : Z) : stoken := SToken (server_key + 1) ∅.

Lemma symbolic_verify_empty server_key :
  symbolic_verify server_key (symbolic_empty server_key) = None.
Proof.
  unfold symbolic_verify, symbolic_empty. simpl.
  rewrite bool_decide_false; [done|lia].
Qed.

Definition symbolic_codec (server_key : Z) : JwtCodec := {|
  token := stoken;
  jwt_sign := SToken server_key;
  jwt_verify := symbolic_verify server_key;
  jwt_verify_sign := symbolic_verify_sign server_key;
  token_empty := symbolic_empty server_key;
  jwt_verify_empty := symbolic_verify_empty server_key;
|}.

(** In the symbolic codec a token verifies only if it is the signature of its
    claims under the server's key: nothing else is accepted. *)
Lemma symbolic_verify_Some server_key t claims :
  symbolic_verify server_key t = Some claims ↔ t = SToken server_key claims.
Proof.
  unfold symbolic_verify. destruct t as [k c]; simpl.
  case_bool_decide; naive_solver.
Qed.

(** A symbolic hasher: the hash of a password is the password behind a tag. *)
Definition symbolic_hash (pw : string) : string := "hash:" +:+ pw.

Definition symbolic_validate (pw hashed : string) : bool :=
  bool_decide (symbolic_hash pw = hashed).

Lemma symbolic_validate_hash pw : symbolic_validate pw (symbolic_hash pw) = true.
Proof. unfold symbolic_validate. by rewrite bool_decide_true. Qed.

Definition symbolic_hasher : PasswordHasher := {|
  hash_password := symbolic_hash;
  validate_password := symbolic_validate;
  validate_hash_password := symbolic_validate_hash;
|}.

Lemma symbolic_validate_true pw pw' :
  symbolic_validate pw (symbolic_hash pw') = true ↔ pw = pw'.
Proof.
  unfold symbolic_validate, symbolic_hash. rewrite bool_decide_eq_true.
  simpl. split; [|by intros ->]. by intros [=].
Qed.

#[export] Hint Rewrite @jwt_verify_sign @to_encode_exp @to_encode_iat
  @validate_hash_password symbolic_validate_hash : authjwt.
#[export] Hint Resolve decode_jwt_unverified decode_encode_jwt_fresh
  decode_encode_jwt_expired : authjwt.
