(* ===== verification/UserStore.v ===== *)
(** The user table of [src.core.database], which is not among the sources:
    the [User] row with the attributes the sources read, the two queries they
    issue ([UserStore]), and an instance on a list of rows with the changes
    the environment can make to it (a registration, a deactivation, a
    deletion). *)

From stdpp Require Import base numbers strings list.
From S2P Require Import Prelude PyData.

Local Open Scope Z_scope.

(** A row of the table: [user.id], [user.username], [user.password] (the
    stored hash), [user.email] and [user.active]. *)
Record User : Type := mkUser {
  id : Z;
  username : string;
  password : string;
  email : string;
  active : bool;
}.

#[export] Instance User_eq_dec : EqDecision User.
Proof. solve_decision. Defined.

(** ** The queries *)

(** [select_first_by_username] is
    [select(User).where(User.username == username)] followed by
    [.scalars().first()]; [session_get] is [session.get(User, ident)], whose
    [ident] is whatever Python value the caller read from the claims.  In a
    well-formed table ([db_wf]) the primary key determines the row. *)
Class UserStore : Type := {
  db : Type;
  db_wf : db → Prop;
  db_wf_dec :: ∀ d, Decision (db_wf d);
  select_first_by_username : db → string → option User;
  session_get : db → pyval → option User;
  select_first_by_username_Some d name u :
    select_first_by_username d name = Some u → username u = name;
  session_get_Some d ident u :
    session_get d ident = Some u → ident = PyInt (id u);
  session_get_select d name u :
    db_wf d → select_first_by_username d name = Some u →
    session_get d (PyInt (id u)) = Some u;
}.

(** ** A table as a list of rows *)

Definition find_row (P : User → bool) (rows : list User) : option User :=
  snd <$> list_find (λ u, P u = true) rows.

Definition rows_by_username (rows : list User) (name : string) : option User :=
  find_row (λ u, bool_decide (username u = name)) rows.

Definition rows_get (rows : list User) (ident : pyval) : option User :=
  match ident with
  | PyInt i => find_row (λ u, bool_decide (id u = i)) rows
  | _ => None
  end.

(** The primary key is unique. *)
Definition rows_wf (rows : list User) : Prop := NoDup (id <$> rows).

#[export] Instance rows_wf_dec rows : Decision (rows_wf rows).
Proof. unfold rows_wf. apply _. Defined.

(** What the environment does to the table. *)
Definition rows_add (u : User) (rows : list User) : list User := rows ++ [u].

Definition rows_delete (i : Z) (rows : list User) : list User :=
  filter (λ u, id u ≠ i) rows.

Definition set_active (b : bool) (u : User) : User :=
  {| id := id u; username := username u; password := password u;
     email := email u; active := b |}.

Definition rows_set_active (i : Z) (b : bool) (rows : list User) : list User :=
  (λ u, if bool_decide (id u = i) then set_active b u else u) <$> rows.

(** ** Lemmas on the list instance *)

Lemma find_row_Some P rows u :
  find_row P rows = Some u → u ∈ rows ∧ P u = true.
Proof.
  unfold find_row. intros [[i u'] [Hf ->]]%fmap_Some.
  apply list_find_Some in Hf as (Hi & HP & _).
  split; [by eapply list_elem_of_lookup_2|done].
Qed.

Lemma find_row_None P rows :
  find_row P rows = None ↔ ∀ u, u ∈ rows → P u = false.
Proof.
  unfold find_row. rewrite fmap_None, list_find_None, Forall_forall.
  split; intros H u Hu; specialize (H u Hu); by destruct (P u).
Qed.

Lemma rows_by_username_Some rows name u :
  rows_by_username rows name = Some u → username u = name.
Proof. by intros [_ ?%bool_decide_eq_true]%find_row_Some. Qed.

Lemma rows_get_Some rows ident u :
  rows_get rows ident = Some u → ident = PyInt (id u).
Proof.
  destruct ident; try done; simpl.
  by intros [_ ->%bool_decide_eq_true]%find_row_Some.
Qed.

Lemma rows_get_elem_of rows ident u : rows_get rows ident = Some u → u ∈ rows.
Proof. destruct ident; try done. by intros [? _]%find_row_Some. Qed.

(** With a unique primary key, looking a row of the table up by its key finds
    that row. *)
Lemma rows_get_of_elem rows u :
  rows_wf rows → u ∈ rows → rows_get rows (PyInt (id u)) = Some u.
Proof.
  unfold rows_wf, rows_get, find_row. intros Hwf Hu.
  destruct (list_find _ rows) as [[i u']|] eqn:Hf; simpl.
  - apply list_find_Some in Hf as (Hi & ?%bool_decide_eq_true & _).
    apply list_elem_of_lookup_1 in Hu as [j Hj]. f_equal.
    assert (i = j) as ->; [|congruence].
    eapply NoDup_lookup; [done| |]; rewrite list_lookup_fmap.
    + by rewrite Hi.
    + rewrite Hj. simpl. by f_equal.
  - apply list_find_None in Hf. rewrite Forall_forall in Hf.
    specialize (Hf u Hu). by rewrite bool_decide_true in Hf.
Qed.

Lemma rows_get_by_username rows name u :
  rows_wf rows → rows_by_username rows name = Some u →
  rows_get rows (PyInt (id u)) = Some u.
Proof. intros ? [? _]%find_row_Some. by apply rows_get_of_elem. Qed.

Definition list_store : UserStore := {|
  db := list User;
  db_wf := rows_wf;
  db_wf_dec := rows_wf_dec;
  select_first_by_username := rows_by_username;
  session_get := rows_get;
  select_first_by_username_Some := rows_by_username_Some;
  session_get_Some := rows_get_Some;
  session_get_select := rows_get_by_username;
|}.

(** The changes of the environment and the two queries. *)

Lemma rows_get_delete rows i : rows_get (rows_delete i rows) (PyInt i) = None.
Proof.
  unfold rows_get, rows_delete. apply find_row_None.
  intros u [Hne _]%list_elem_of_filter. by apply bool_decide_eq_false.
Qed.

Lemma id_set_active b u : id (set_active b u) = id u.
Proof. done. Qed.

Lemma active_set_active b u : active (set_active b u) = b.
Proof. done. Qed.

Lemma rows_set_active_ids i b rows : id <$> rows_set_active i b rows = id <$> rows.
Proof.
  unfold rows_set_active. rewrite <-list_fmap_compose.
  apply list_fmap_ext. intros ? u _. simpl. by case_bool_decide.
Qed.

Lemma rows_set_active_wf i b rows : rows_wf rows → rows_wf (rows_set_active i b rows).
Proof. unfold rows_wf. by rewrite rows_set_active_ids. Qed.

Lemma rows_delete_wf i rows : rows_wf rows → rows_wf (rows_delete i rows).
Proof.
  unfold rows_wf, rows_delete. intros Hwf.
  induction rows as [|u rows IH]; [done|].
  apply NoDup_cons in Hwf as [Hu Hwf]. rewrite filter_cons.
  case_decide; [|by apply IH]. rewrite fmap_cons. apply NoDup_cons.
  split; [|by apply IH]. intros (u' & ? & [_ ?]%list_elem_of_filter)%list_elem_of_fmap.
  apply Hu, list_elem_of_fmap. eauto.
Qed.

Lemma rows_add_wf u rows :
  rows_wf rows → id u ∉ id <$> rows → rows_wf (rows_add u rows).
Proof.
  unfold rows_wf, rows_add. intros Hwf Hu. rewrite fmap_app. simpl.
  apply NoDup_app. split_and!; [done| |apply NoDup_singleton].
  intros i Hi ->%list_elem_of_singleton. done.
Qed.

Lemma find_row_fmap P (f : User → User) rows :
  find_row P (f <$> rows) = f <$> find_row (P ∘ f) rows.
Proof.
  unfold find_row. rewrite list_find_fmap.
  by destruct (list_find _ rows) as [[? ?]|].
Qed.

Lemma find_row_ext P Q rows :
  (∀ u, P u = Q u) → find_row P rows = find_row Q rows.
Proof.
  intros HPQ. unfold find_row. f_equal. apply list_find_ext.
  intros u. by rewrite HPQ.
Qed.

(** After a change of the flag the row under that key is the old row with the
    new flag. *)
Lemma rows_get_set_active rows i b u :
  rows_get rows (PyInt i) = Some u →
  rows_get (rows_set_active i b rows) (PyInt i) = Some (set_active b u).
Proof.
  unfold rows_get, rows_set_active. intros Hu. rewrite find_row_fmap.
  rewrite (find_row_ext _ (λ u, bool_decide (id u = i))), Hu.
  - apply find_row_Some in Hu as [_ Hu]. simpl. by rewrite Hu.
  - intros u'. unfold compose.
    destruct (bool_decide (id u' = i)) eqn:E; simpl; by rewrite ?E.
Qed.

(** The rows under the other keys are untouched. *)
Lemma rows_get_set_active_ne rows i j b :
  i ≠ j → rows_get (rows_set_active i b rows) (PyInt j) = rows_get rows (PyInt j).
Proof.
  unfold rows_get, rows_set_active. intros Hne. rewrite find_row_fmap.
  rewrite (find_row_ext _ (λ u, bool_decide (id u = j))).
  - destruct (find_row _ rows) as [u|] eqn:Hu; [|done].
    apply find_row_Some in Hu as [_ Hu%bool_decide_eq_true]. simpl.
    rewrite bool_decide_false; [done|congruence].
  - intros u'. unfold compose.
    destruct (bool_decide (id u' = i)) eqn:E; simpl; [|done].
    apply bool_decide_eq_true in E. apply bool_decide_ext. naive_solver.
Qed.

#[export] Hint Resolve rows_set_active_wf rows_delete_wf rows_add_wf : authjwt.
#[export] Hint Rewrite id_set_active active_set_active rows_get_delete : authjwt.
