(* ===== verification/UserCrud.v ===== *)
(** [create_user] of [src.api_v1.cruds.user_crud], which [register_user]
    awaits and which is not among the sources.  The interface [UserCrud]
    states its type and the one guarantee the database gives of any
    insertion: the table it leaves has a unique primary key.  What it stores
    and when it fails is not known here, so no theorem depends on it.

    [rows_create] is an instance on the list of rows: a new row with the next
    free key, the hash of the submitted password, and the active flag set. *)

From stdpp Require Import base numbers strings list.
From S2P Require Import Prelude PyData Http Codec UserStore.

Local Open Scope Z_scope.

Class UserCrud `{store : UserStore} : Type := {
  UserSchema : Type;
  create_user : db → UserSchema → http (db * User);
  create_user_wf session user_in session' row :
    db_wf session → create_user session user_in = Ok (session', row) →
    db_wf session';
}.

(** ** An instance on the list of rows *)

(** The submitted form: username, password and email. *)
Record NewUser : Type := mkNewUser {
  new_username : string;
  new_password : string;
  new_email : string;
}.

(** The key after the largest one in use. *)
Definition next_id (rows : list User) : Z :=
  1 + foldr Z.max 0 (id <$> rows).

Definition rows_create `{hasher : PasswordHasher} (rows : list User)
    (user_in : NewUser) : http (list User * User) :=
  let row := {| id := next_id rows;
                username := new_username user_in;
                password := hash_password (new_password user_in);
                email := new_email user_in;
                active := true |} in
  Ok (rows_add row rows, row).

Lemma next_id_fresh rows i : i ∈ id <$> rows → i < next_id rows.
Proof.
  unfold next_id. induction (id <$> rows) as [|j l IH]; simpl.
  - by intros ?%elem_of_nil.
  - intros [->|Hi%IH]%elem_of_cons; lia.
Qed.

Lemma rows_create_wf `{hasher : PasswordHasher} rows user_in rows' row :
  rows_wf rows → rows_create rows user_in = Ok (rows', row) → rows_wf rows'.
Proof.
  intros Hwf [= <- <-]. apply rows_add_wf; [done|]. simpl.
  intros Hin%next_id_fresh. lia.
Qed.

Definition list_crud `{hasher : PasswordHasher} :
    UserCrud (store := list_store) :=
  Build_UserCrud list_store NewUser
    (rows_create :
       db (UserStore := list_store) → NewUser →
       http (db (UserStore := list_store) * User))
    rows_create_wf.

(** A user registered in a table can log in with the submitted password:
    the row is found under its key, and the stored hash verifies. *)
Lemma rows_create_get `{hasher : PasswordHasher} rows user_in rows' row :
  rows_wf rows → rows_create rows user_in = Ok (rows', row) →
  rows_get rows' (PyInt (id row)) = Some row ∧
  validate_password (new_password user_in) (password row) = true ∧
  active row = true.
Proof.
  intros Hwf Hc. pose proof (rows_create_wf _ _ _ _ Hwf Hc) as Hwf'.
  injection Hc as <- <-. split_and!; [|apply validate_hash_password|done].
  apply rows_get_of_elem; [done|]. unfold rows_add.
  apply elem_of_app. right. by left.
Qed.
