(* ===== verification/Fixtures.v ===== *)
(** Concrete inputs on which the theorems are instantiated: a signing key, a
    configuration, two users and a table that holds them. *)

From stdpp Require Import base numbers strings list gmap.
From S2P Require Import Prelude PyData Http Codec UserStore UserCrud.

Local Open Scope Z_scope.

Definition demo_codec : JwtCodec := symbolic_codec 7.

Definition demo_crud : UserCrud (store := list_store) :=
  list_crud (hasher := symbolic_hasher).

Definition demo_settings : AuthJWT :=
  {| access_token_expire_minutes := 15; refresh_token_expire_days := 30 |}.

Definition alice : User :=
  {| id := 1; username := "alice"; password := symbolic_hash "correct-pw";
     email := "alice@example.org"; active := true |}.

Definition bob : User :=
  {| id := 2; username := "bob"; password := symbolic_hash "hunter2";
     email := "bob@example.org"; active := false |}.

Definition demo_rows : list User := [alice; bob].

Lemma demo_rows_wf : rows_wf demo_rows.
Proof. unfold rows_wf. compute_done. Qed.
