(* ===== verification/CreateToken.v ===== *)
(** The token factory, [src/src/auth/create_token.py]: [create_jwt] puts the
    token kind and the caller's data into one claims dictionary and has the
    codec sign it; [create_access_token] and [create_refresh_token] choose the
    claims and the lifetime of each kind. *)

From stdpp Require Import base numbers strings gmap.
From S2P Require Import Prelude PyData Codec UserStore Fixtures.

Local Open Scope Z_scope.

Definition TOKEN_TYPE_FIELD : string := "type".
Definition ACCESS_TOKEN_TYPE : string := "access".
Definition REFRESH_TOKEN_TYPE : string := "refresh".

(** A well-formed claims set: a kind that is one of the two, an integer
    subject, and integer instants with the issue not after the expiry. *)
Definition claims_wf (claims : dict) : bool :=
  match claims !! TOKEN_TYPE_FIELD, claims !! "sub", claims !! "exp",
        claims !! "iat" with
  | Some (PyStr kind), Some (PyInt _), Some (PyInt exp), Some (PyInt iat) =>
      bool_decide (iat ≤ exp) &&
      bool_decide (kind = ACCESS_TOKEN_TYPE ∨ kind = REFRESH_TOKEN_TYPE)
  | _, _, _, _ => false
  end.

Section create_token.
Context `{codec : JwtCodec} (settings : AuthJWT).
Implicit Types (now : Z) (user : User) (token_data : dict).

(** The first two statements of [create_jwt]: the dictionary that holds the
    kind, updated with the caller's data.  [dict.update] lets the data win on
    a key both have. *)
Definition create_jwt_payload (token_type : string) token_data : dict :=
  let jwt_payload : dict := {[ TOKEN_TYPE_FIELD := PyStr token_type ]} in
  token_data ∪ jwt_payload.

(** [create_jwt].  [expire_minutes] is [None] when the caller leaves the
    parameter to its default, the access lifetime of the settings. *)
Definition create_jwt now (token_type : string) token_data
    (expire_minutes : option Z) (expire_timedelta : option Z) : token :=
  let jwt_payload := create_jwt_payload token_type token_data in
  encode_jwt now jwt_payload
    (default (access_token_expire_minutes settings) expire_minutes)
    expire_timedelta.

(** The claims [create_access_token] binds to the user. *)
Definition access_token_data user : dict :=
  {[ "sub" := PyInt (id user);
     "username" := PyStr (username user);
     "email" := PyStr (email user) ]}.

Definition create_access_token now user : token :=
  let jwt_payload := access_token_data user in
  create_jwt now ACCESS_TOKEN_TYPE jwt_payload
    (Some (access_token_expire_minutes settings)) None.

(** The claims [create_refresh_token] binds to the user: the subject only. *)
Definition refresh_token_data user : dict :=
  {[ "sub" := PyInt (id user) ]}.

Definition create_refresh_token now user : token :=
  let jwt_payload := refresh_token_data user in
  create_jwt now REFRESH_TOKEN_TYPE jwt_payload None
    (Some (timedelta_days (refresh_token_expire_days settings))).

(** ** The wire shape of each kind *)

(** What the claims of a token of each kind are to be, field by field: an
    access token issued at [now] for [user] carries the kind, the subject, the
    two display fields, and expires after the access lifetime; a refresh token
    carries the kind and the subject, and expires after the refresh
    lifetime. *)
Definition access_claims now user : dict :=
  {[ "type" := PyStr "access";
     "sub" := PyInt (id user);
     "username" := PyStr (username user);
     "email" := PyStr (email user);
     "exp" := PyInt (now + 60 * access_token_expire_minutes settings);
     "iat" := PyInt now ]}.

Definition refresh_claims now user : dict :=
  {[ "type" := PyStr "refresh";
     "sub" := PyInt (id user);
     "exp" := PyInt (now + 86400 * refresh_token_expire_days settings);
     "iat" := PyInt now ]}.

(** ** Lemmas shared by the theorems *)

Lemma jwt_verify_create_jwt now token_type token_data m td :
  jwt_verify (create_jwt now token_type token_data m td) =
  Some (to_encode now (create_jwt_payload token_type token_data)
          (default (access_token_expire_minutes settings) m) td).
Proof. unfold create_jwt, encode_jwt. apply jwt_verify_sign. Qed.

Lemma create_jwt_payload_type token_type token_data :
  create_jwt_payload token_type token_data !! TOKEN_TYPE_FIELD =
  Some (default (PyStr token_type) (token_data !! TOKEN_TYPE_FIELD)).
Proof.
  unfold create_jwt_payload. rewrite lookup_union, lookup_singleton_eq.
  by destruct (token_data !! TOKEN_TYPE_FIELD).
Qed.

Lemma create_jwt_payload_other token_type token_data k :
  k ≠ TOKEN_TYPE_FIELD →
  create_jwt_payload token_type token_data !! k = token_data !! k.
Proof.
  intros. unfold create_jwt_payload.
  rewrite lookup_union, lookup_singleton_ne by done.
  by destruct (token_data !! k).
Qed.

Lemma jwt_verify_create_access_token now user :
  jwt_verify (create_access_token now user) = Some (access_claims now user).
Proof. unfold create_access_token. by rewrite jwt_verify_create_jwt. Qed.

Lemma jwt_verify_create_refresh_token now user :
  jwt_verify (create_refresh_token now user) = Some (refresh_claims now user).
Proof. unfold create_refresh_token. by rewrite jwt_verify_create_jwt. Qed.

Lemma access_claims_exp now user :
  access_claims now user !! "exp" =
  Some (PyInt (now + 60 * access_token_expire_minutes settings)).
Proof. done. Qed.

Lemma refresh_claims_exp now user :
  refresh_claims now user !! "exp" =
  Some (PyInt (now + 86400 * refresh_token_expire_days settings)).
Proof. done. Qed.

Lemma access_claims_type now user :
  access_claims now user !! TOKEN_TYPE_FIELD = Some (PyStr ACCESS_TOKEN_TYPE).
Proof. done. Qed.

Lemma refresh_claims_type now user :
  refresh_claims now user !! TOKEN_TYPE_FIELD = Some (PyStr REFRESH_TOKEN_TYPE).
Proof. done. Qed.

Lemma access_claims_sub now user :
  access_claims now user !! "sub" = Some (PyInt (id user)).
Proof. done. Qed.

Lemma refresh_claims_sub now user :
  refresh_claims now user !! "sub" = Some (PyInt (id user)).
Proof. done. Qed.

Lemma access_claims_iat now user :
  access_claims now user !! "iat" = Some (PyInt now).
Proof. done. Qed.

Lemma refresh_claims_iat now user :
  refresh_claims now user !! "iat" = Some (PyInt now).
Proof. done. Qed.

(** The claims of the tokens of the factory are well formed when the
    lifetimes are not negative. *)
Lemma access_claims_wf now user :
  0 ≤ access_token_expire_minutes settings →
  claims_wf (access_claims now user) = true.
Proof.
  intros. unfold claims_wf.
  rewrite access_claims_type, access_claims_sub, access_claims_exp,
    access_claims_iat.
  rewrite bool_decide_true by lia. by rewrite bool_decide_true by auto.
Qed.

Lemma refresh_claims_wf now user :
  0 ≤ refresh_token_expire_days settings →
  claims_wf (refresh_claims now user) = true.
Proof.
  intros. unfold claims_wf.
  rewrite refresh_claims_type, refresh_claims_sub, refresh_claims_exp,
    refresh_claims_iat.
  rewrite bool_decide_true by lia. by rewrite bool_decide_true by auto.
Qed.

(** The subject of a token of the factory is determined by the token. *)
Lemma create_access_token_sub now now' user user' :
  create_access_token now user = create_access_token now' user' →
  id user = id user'.
Proof.
  intros Heq. apply (f_equal jwt_verify) in Heq.
  rewrite !jwt_verify_create_access_token in Heq. apply (inj Some) in Heq.
  apply (f_equal (.!! "sub")) in Heq. rewrite !access_claims_sub in Heq.
  by injection Heq.
Qed.

Lemma decode_verified now tok claims e :
  jwt_verify tok = Some claims → claims !! "exp" = Some (PyInt e) →
  decode_jwt now tok = if bool_decide (e < now) then Err Expired else Ok claims.
Proof. unfold decode_jwt, check_exp. by intros -> ->. Qed.

End create_token.

#[export] Hint Rewrite @jwt_verify_create_jwt @jwt_verify_create_access_token
  @jwt_verify_create_refresh_token @create_jwt_payload_type : authjwt.
#[export] Hint Rewrite @create_jwt_payload_other using done : authjwt.

(** ** Theorems *)

Section create_token_theorems.
Context `{codec : JwtCodec} (settings : AuthJWT).
Implicit Types (now : Z) (user : User) (token_data : dict).

(** C32 [access_token_roundtrip]: decoding an access token at [now'] gives,
    until the access lifetime (in minutes) after its issue at [now] is
    exceeded, exactly the claims [type = "access"], [sub], [username],
    [email], [exp] and [iat]; after that it fails with [Expired]. *)
Theorem access_token_roundtrip now now' user :
  decode_jwt now' (create_access_token settings now user) =
  if bool_decide (now + 60 * access_token_expire_minutes settings < now')
  then Err Expired
  else Ok (access_claims settings now user).
Proof.
  apply decode_verified; [apply jwt_verify_create_access_token|done].
Qed.

(** C33 [refresh_token_roundtrip]: decoding a refresh token at [now'] gives,
    until the refresh lifetime (in days) after its issue at [now] is exceeded,
    exactly the claims [type = "refresh"], [sub], [exp] and [iat], without the
    display fields; after that it fails with [Expired].  The lifetime in
    minutes, which [create_jwt] defaults to the access lifetime, plays no
    part. *)
Theorem refresh_token_roundtrip now now' user :
  decode_jwt now' (create_refresh_token settings now user) =
  if bool_decide (now + 86400 * refresh_token_expire_days settings < now')
  then Err Expired
  else Ok (refresh_claims settings now user).
Proof.
  apply decode_verified; [apply jwt_verify_create_refresh_token|done].
Qed.

(** C37 [create_jwt_type_overridable]: the [type] claim [create_jwt] signs is
    the [type] entry of the caller's data when the data has one, and the token
    kind only otherwise: the update of the payload with the data comes after
    the kind is written. *)
Theorem create_jwt_type_overridable now token_type token_data m td :
  jwt_verify (create_jwt settings now token_type token_data m td)
    ≫= (.!! TOKEN_TYPE_FIELD) =
  Some (default (PyStr token_type) (token_data !! TOKEN_TYPE_FIELD)).
Proof.
  autorewrite with authjwt. simpl.
  rewrite to_encode_other by done. apply create_jwt_payload_type.
Qed.

(** A refresh token depends on the user through
    the primary key alone: two users with the same key get the same token at
    the same instant, whatever their username, email and liveness. *)
Lemma refresh_token_minimal now user user' :
  id user = id user' →
  create_refresh_token settings now user = create_refresh_token settings now user'.
Proof.
  intros Hid. unfold create_refresh_token, refresh_token_data. by rewrite Hid.
Qed.

(** No access token is a refresh token, whoever
    and whenever they were issued for. *)
Lemma token_kinds_distinct now now' user user' :
  bool_decide (create_access_token settings now user =
               create_refresh_token settings now' user') = false.
Proof.
  apply bool_decide_eq_false. intros Heq.
  apply (f_equal jwt_verify) in Heq. autorewrite with authjwt in Heq.
  apply (inj Some), (f_equal (.!! TOKEN_TYPE_FIELD)) in Heq.
  by rewrite access_claims_type, refresh_claims_type in Heq.
Qed.

(** Two access tokens are equal exactly when
    they were issued at the same instant for users with the same key,
    username and email. *)
Lemma access_token_injective now now' user user' :
  create_access_token settings now user = create_access_token settings now' user' ↔
  now = now' ∧ id user = id user' ∧ username user = username user' ∧
  email user = email user'.
Proof.
  split.
  - intros Heq. apply (f_equal jwt_verify) in Heq.
    autorewrite with authjwt in Heq. apply (inj Some) in Heq.
    pose proof (f_equal (.!! "iat") Heq) as Hiat.
    pose proof (f_equal (.!! "sub") Heq) as Hsub.
    pose proof (f_equal (.!! "username") Heq) as Hname.
    pose proof (f_equal (.!! "email") Heq) as Hmail.
    clear Heq. unfold access_claims in *. by simplify_map_eq.
  - intros (-> & Hid & Hn & He).
    unfold create_access_token, access_token_data. by rewrite Hid, Hn, He.
Qed.

End create_token_theorems.

Lemma refresh_token_minimal_witness :
  create_refresh_token (codec := demo_codec) demo_settings 1000 alice =
  create_refresh_token (codec := demo_codec) demo_settings 1000
    (set_active false alice).
Proof.
  apply (refresh_token_minimal (codec := demo_codec) demo_settings 1000 alice
           (set_active false alice)).
  reflexivity.
Defined.

(** A caller of [create_jwt] whose data holds a [type] decides the kind. *)
Example create_jwt_type_overridden :
  jwt_verify (JwtCodec := demo_codec)
    (create_jwt (codec := demo_codec) demo_settings 1000 REFRESH_TOKEN_TYPE
       {[ "type" := PyStr "access"; "sub" := PyInt 1 ]} None None)
    ≫= (.!! "type") = Some (PyStr "access").
Proof. reflexivity. Qed.
