(* ===== verification/Security.v ===== *)
(** The dependencies of
    [src/src/api_v1/dependencies/security_dependencies.py]: the credential
    gate [validate_auth_user] and the chain that turns a bearer token into an
    active user: [get_current_token_payload] (decode), [validate_token_type]
    (kind), [get_user_by_token_sub] (subject), the wrapper of
    [get_current_active_auth_user] (liveness).  The two definitions
    [depends_UserGetterFromToken] and [depends_current_active_auth_user] are
    the calls the framework makes for the [Depends] declarations, innermost
    dependency first.

    The source imports [TOKEN_TYPE_FIELD] from [src.auth.utils]; the model
    takes the constant of [create_token.py], which the factory writes. *)

From stdpp Require Import base numbers strings gmap.
From S2P Require Import Prelude PyData Http Codec UserStore Fixtures CreateToken.

Local Open Scope Z_scope.
Local Open Scope res_scope.

(** ** The exceptions the dependencies raise *)

Definition incorrect_credentials : HTTPException :=
  http_error 400 "Incorrect username or password".

Definition user_inactive : HTTPException :=
  http_error HTTP_403_FORBIDDEN "User inactive".

Definition invalid_token_error : HTTPException :=
  http_error HTTP_401_UNAUTHORIZED "invalid token error".

Definition invalid_token_type (current_token_type : pyval)
    (token_type : string) : HTTPException :=
  http_error HTTP_401_UNAUTHORIZED
    ("invalid token type " +:+ py_repr current_token_type +:+
     " expected " +:+ py_repr (PyStr token_type)).

Definition user_not_found : HTTPException :=
  http_error HTTP_401_UNAUTHORIZED "token invalid (user not found)".

Definition inactive_user : HTTPException :=
  http_error HTTP_403_FORBIDDEN "inactive user".

(** [UserGetterFromToken]: the object keeps the kind it was built for. *)
Record UserGetterFromToken : Type := mkUserGetterFromToken {
  token_type : string;
}.

(** The two readers of the [Authorization] header.  [http_bearer] never
    raises; [oauth2_scheme] is the one the token chain depends on. *)
Definition http_bearer : HTTPBearer := mkHTTPBearer false.

Definition oauth2_scheme : OAuth2PasswordBearer :=
  mkOAuth2PasswordBearer "/api/v1/auth/login".

Section security.
Context `{codec : JwtCodec} `{hasher : PasswordHasher} `{store : UserStore}.
Implicit Types (now : Z) (session : db) (payload : dict) (tok : token).

(** [validate_auth_user]: no row or a password that does not verify is the
    same error; the liveness of the account is looked at after that. *)
Definition validate_auth_user (username password : string) session :
    http User :=
  let user := select_first_by_username session username in
  match user with
  | None => raise incorrect_credentials
  | Some user =>
      if negb (validate_password password (UserStore.password user))
      then raise incorrect_credentials
      else if negb (active user) then raise user_inactive
      else Ok user
  end.

(** [get_current_token_payload]: whatever the decoder refuses the token for,
    the caller sees one exception. *)
Definition get_current_token_payload now tok : http dict :=
  try (decode_jwt now tok) except (λ _ : InvalidTokenError,
    raise invalid_token_error).

Definition validate_token_type payload (token_type : string) : http bool :=
  let current_token_type := dict_get payload TOKEN_TYPE_FIELD in
  if py_eq current_token_type (PyStr token_type) then Ok true
  else raise (invalid_token_type current_token_type token_type).

Definition get_user_by_token_sub payload session : http User :=
  let user_id := dict_get payload "sub" in
  match session_get session user_id with
  | Some user => Ok user
  | None => raise user_not_found
  end.

(** [UserGetterFromToken.__call__], on the payload and the session the
    framework resolved. *)
Definition UserGetterFromToken_call (self : UserGetterFromToken) payload
    session : http User :=
  _ ← validate_token_type payload (token_type self);
  get_user_by_token_sub payload session.

(** The wrapper [get_current_active_auth_user] returns, on the user the
    framework resolved. *)
Definition get_current_active_auth_user (token_type : string) (user : User) :
    http User :=
  if active user then Ok user else raise inactive_user.

(** The dependency of [UserGetterFromToken.__call__]: the payload of the
    bearer token, then the call. *)
Definition depends_UserGetterFromToken (self : UserGetterFromToken) now
    session tok : http User :=
  payload ← get_current_token_payload now tok;
  UserGetterFromToken_call self payload session.

(** The dependency of the wrapper: the user the getter of that kind returns,
    then the wrapper. *)
Definition depends_current_active_auth_user (token_type : string) now session
    tok : http User :=
  user ← depends_UserGetterFromToken (mkUserGetterFromToken token_type) now
            session tok;
  get_current_active_auth_user token_type user.

(** ** Each dependency on each branch *)

Lemma validate_auth_user_Ok session username password user :
  validate_auth_user username password session = Ok user ↔
  select_first_by_username session username = Some user ∧
  validate_password password (UserStore.password user) = true ∧
  active user = true.
Proof.
  unfold validate_auth_user.
  destruct (select_first_by_username _ _) as [u|]; [|naive_solver].
  destruct (validate_password password (UserStore.password u)) eqn:Hp,
    (active u) eqn:Ha; simpl.
  all: split; [intros [= <-]|intros ([= <-] & ? & ?)]; try done; congruence.
Qed.

Lemma validate_auth_user_unknown session username password :
  select_first_by_username session username = None →
  validate_auth_user username password session = Err incorrect_credentials.
Proof. unfold validate_auth_user. by intros ->. Qed.

Lemma validate_auth_user_wrong_password session username password user :
  select_first_by_username session username = Some user →
  validate_password password (UserStore.password user) = false →
  validate_auth_user username password session = Err incorrect_credentials.
Proof. unfold validate_auth_user. by intros -> ->. Qed.

Lemma validate_auth_user_inactive session username password user :
  select_first_by_username session username = Some user →
  validate_password password (UserStore.password user) = true →
  active user = false →
  validate_auth_user username password session = Err user_inactive.
Proof. unfold validate_auth_user. by intros -> -> ->. Qed.

Lemma get_current_token_payload_Ok now tok payload :
  get_current_token_payload now tok = Ok payload ↔
  decode_jwt now tok = Ok payload.
Proof.
  unfold get_current_token_payload. rewrite try_except_Ok_inv. naive_solver.
Qed.

Lemma get_current_token_payload_Err now tok e :
  decode_jwt now tok = Err e →
  get_current_token_payload now tok = Err invalid_token_error.
Proof. unfold get_current_token_payload. by intros ->. Qed.

Lemma get_current_token_payload_verified now tok claims e :
  jwt_verify tok = Some claims → claims !! "exp" = Some (PyInt e) →
  get_current_token_payload now tok =
  if bool_decide (e < now) then Err invalid_token_error else Ok claims.
Proof.
  intros Hv He. unfold get_current_token_payload.
  rewrite (decode_verified _ _ _ _ Hv He). by case_bool_decide.
Qed.

Lemma get_current_token_payload_unverified now tok :
  jwt_verify tok = None →
  get_current_token_payload now tok = Err invalid_token_error.
Proof.
  intros. eapply get_current_token_payload_Err. by apply decode_jwt_unverified.
Qed.

Lemma validate_token_type_eq payload token_type :
  payload !! TOKEN_TYPE_FIELD = Some (PyStr token_type) →
  validate_token_type payload token_type = Ok true.
Proof.
  intros H. unfold validate_token_type.
  by rewrite (dict_get_Some _ _ _ H), py_eq_refl.
Qed.

Lemma validate_token_type_ne payload token_type :
  payload !! TOKEN_TYPE_FIELD ≠ Some (PyStr token_type) →
  validate_token_type payload token_type =
  Err (invalid_token_type (dict_get payload TOKEN_TYPE_FIELD) token_type).
Proof.
  intros H. unfold validate_token_type.
  destruct (py_eq _ _) eqn:Heq; [|done].
  apply py_eq_str in Heq. unfold dict_get in Heq.
  destruct (payload !! TOKEN_TYPE_FIELD); naive_solver.
Qed.

Lemma validate_token_type_Ok payload token_type b :
  validate_token_type payload token_type = Ok b ↔
  b = true ∧ payload !! TOKEN_TYPE_FIELD = Some (PyStr token_type).
Proof.
  destruct (decide (payload !! TOKEN_TYPE_FIELD = Some (PyStr token_type))).
  - rewrite validate_token_type_eq by done. naive_solver.
  - rewrite validate_token_type_ne by done. naive_solver.
Qed.

Lemma session_get_int session ident user :
  session_get session ident = Some user →
  ident = PyInt (id user) ∧ session_get session (PyInt (id user)) = Some user.
Proof.
  intros H. pose proof (session_get_Some _ _ _ H) as ->. done.
Qed.

Lemma get_user_by_token_sub_Ok session payload user :
  get_user_by_token_sub payload session = Ok user ↔
  payload !! "sub" = Some (PyInt (id user)) ∧
  session_get session (PyInt (id user)) = Some user.
Proof.
  unfold get_user_by_token_sub, dict_get. split.
  - destruct (session_get _ _) as [u|] eqn:Hu; [|done]. intros [= ->].
    apply session_get_int in Hu as [Hid Hu].
    destruct (payload !! "sub"); naive_solver.
  - intros [-> Hu]. simpl. by rewrite Hu.
Qed.

Lemma get_user_by_token_sub_found session payload user :
  payload !! "sub" = Some (PyInt (id user)) →
  session_get session (PyInt (id user)) = Some user →
  get_user_by_token_sub payload session = Ok user.
Proof. intros. by apply get_user_by_token_sub_Ok. Qed.

Lemma get_user_by_token_sub_missing session payload i :
  payload !! "sub" = Some (PyInt i) → session_get session (PyInt i) = None →
  get_user_by_token_sub payload session = Err user_not_found.
Proof.
  intros Hs Hg. unfold get_user_by_token_sub.
  by rewrite (dict_get_Some _ _ _ Hs), Hg.
Qed.

Lemma get_current_active_auth_user_Ok token_type user user' :
  get_current_active_auth_user token_type user = Ok user' ↔
  user' = user ∧ active user = true.
Proof.
  unfold get_current_active_auth_user. destruct (active user); naive_solver.
Qed.

Lemma get_current_token_payload_Err_inv now tok e :
  get_current_token_payload now tok = Err e →
  e = invalid_token_error ∧ ∃ why, decode_jwt now tok = Err why.
Proof.
  unfold get_current_token_payload.
  destruct (decode_jwt now tok); simpl; [done|]. intros [= <-]. eauto.
Qed.

Lemma validate_token_type_Err payload token_type e :
  validate_token_type payload token_type = Err e →
  e = invalid_token_type (dict_get payload TOKEN_TYPE_FIELD) token_type ∧
  payload !! TOKEN_TYPE_FIELD ≠ Some (PyStr token_type).
Proof.
  destruct (decide (payload !! TOKEN_TYPE_FIELD = Some (PyStr token_type))).
  - by rewrite validate_token_type_eq.
  - rewrite validate_token_type_ne by done. by intros [= <-].
Qed.

Lemma get_user_by_token_sub_Err session payload e :
  get_user_by_token_sub payload session = Err e →
  e = user_not_found ∧ session_get session (dict_get payload "sub") = None.
Proof.
  unfold get_user_by_token_sub.
  destruct (session_get _ _); [done|]. by intros [= <-].
Qed.

Lemma get_current_active_auth_user_Err token_type user e :
  get_current_active_auth_user token_type user = Err e →
  e = inactive_user ∧ active user = false.
Proof.
  unfold get_current_active_auth_user.
  destruct (active user); [done|]. by intros [= <-].
Qed.

(** ** The chain on a token that verifies *)

(** Once the token verifies and is not expired, the chain is the three checks
    on its claims, in their order. *)
Lemma depends_current_active_auth_user_verified token_type now session tok
    claims e :
  jwt_verify tok = Some claims → claims !! "exp" = Some (PyInt e) → now ≤ e →
  depends_current_active_auth_user token_type now session tok =
  (_ ← validate_token_type claims token_type;
   user ← get_user_by_token_sub claims session;
   get_current_active_auth_user token_type user).
Proof.
  intros Hv He Hnow.
  unfold depends_current_active_auth_user, depends_UserGetterFromToken.
  rewrite (get_current_token_payload_verified _ _ _ _ Hv He).
  rewrite bool_decide_false by lia. simpl.
  unfold UserGetterFromToken_call. simpl. by rewrite bind_assoc.
Qed.

Lemma depends_current_active_auth_user_undecoded token_type now session tok e :
  decode_jwt now tok = Err e →
  depends_current_active_auth_user token_type now session tok =
  Err invalid_token_error.
Proof.
  intros H. unfold depends_current_active_auth_user, depends_UserGetterFromToken.
  by rewrite (get_current_token_payload_Err _ _ _ H).
Qed.

(** The checks after the decoding, on the claims of a token of the required
    kind whose subject is the key [i]: the row under [i] as the table has it
    now decides. *)
Lemma checks_on_claims token_type session claims i :
  claims !! TOKEN_TYPE_FIELD = Some (PyStr token_type) →
  claims !! "sub" = Some (PyInt i) →
  (_ ← validate_token_type claims token_type;
   user ← get_user_by_token_sub claims session;
   get_current_active_auth_user token_type user) =
  match session_get session (PyInt i) with
  | None => Err user_not_found
  | Some row => if active row then Ok row else Err inactive_user
  end.
Proof.
  intros Ht Hs. rewrite (validate_token_type_eq _ _ Ht). simpl.
  unfold get_user_by_token_sub. rewrite (dict_get_Some _ _ _ Hs).
  by destruct (session_get _ _).
Qed.

(** The chain on a token that verifies to claims of the required kind. *)
Lemma chain_on_claims token_type now session tok claims e i :
  jwt_verify tok = Some claims → claims !! "exp" = Some (PyInt e) →
  claims !! TOKEN_TYPE_FIELD = Some (PyStr token_type) →
  claims !! "sub" = Some (PyInt i) →
  depends_current_active_auth_user token_type now session tok =
  if bool_decide (e < now) then Err invalid_token_error
  else match session_get session (PyInt i) with
       | None => Err user_not_found
       | Some row => if active row then Ok row else Err inactive_user
       end.
Proof.
  intros Hv He Ht Hs. case_bool_decide.
  - eapply depends_current_active_auth_user_undecoded.
    rewrite (decode_verified _ _ _ _ Hv He). by rewrite bool_decide_true.
  - rewrite (depends_current_active_auth_user_verified _ _ _ _ _ _ Hv He)
      by lia.
    by apply checks_on_claims.
Qed.

(** The chain on a token that verifies to claims of another kind. *)
Lemma chain_on_other_kind token_type now session tok claims e :
  jwt_verify tok = Some claims → claims !! "exp" = Some (PyInt e) →
  claims !! TOKEN_TYPE_FIELD ≠ Some (PyStr token_type) →
  depends_current_active_auth_user token_type now session tok =
  if bool_decide (e < now) then Err invalid_token_error
  else Err (invalid_token_type (dict_get claims TOKEN_TYPE_FIELD) token_type).
Proof.
  intros Hv He Ht. case_bool_decide.
  - eapply depends_current_active_auth_user_undecoded.
    rewrite (decode_verified _ _ _ _ Hv He). by rewrite bool_decide_true.
  - rewrite (depends_current_active_auth_user_verified _ _ _ _ _ _ Hv He)
      by lia.
    by rewrite (validate_token_type_ne _ _ Ht).
Qed.

End security.

(** ** The chain on the tokens of the factory *)

Section issued_tokens.
Context `{codec : JwtCodec} `{store : UserStore} (settings : AuthJWT).
Implicit Types (now : Z) (session : db) (user : User).

(** What the table says of a key, as the last two checks of the chain read
    it. *)
Definition row_answer session (i : Z) : http User :=
  match session_get session (PyInt i) with
  | None => Err user_not_found
  | Some row => if active row then Ok row else Err inactive_user
  end.

Lemma chain_access_token now now' session user :
  depends_current_active_auth_user ACCESS_TOKEN_TYPE now' session
    (create_access_token settings now user) =
  if bool_decide (now + 60 * access_token_expire_minutes settings < now')
  then Err invalid_token_error else row_answer session (id user).
Proof.
  by rewrite (chain_on_claims _ _ _ _ _ _ (id user)
                (jwt_verify_create_access_token settings now user)
                (access_claims_exp settings now user)).
Qed.

Lemma chain_refresh_token now now' session user :
  depends_current_active_auth_user REFRESH_TOKEN_TYPE now' session
    (create_refresh_token settings now user) =
  if bool_decide (now + 86400 * refresh_token_expire_days settings < now')
  then Err invalid_token_error else row_answer session (id user).
Proof.
  by rewrite (chain_on_claims _ _ _ _ _ _ (id user)
                (jwt_verify_create_refresh_token settings now user)
                (refresh_claims_exp settings now user)).
Qed.

Lemma chain_access_token_fresh now now' session user :
  now' ≤ now + 60 * access_token_expire_minutes settings →
  depends_current_active_auth_user ACCESS_TOKEN_TYPE now' session
    (create_access_token settings now user) = row_answer session (id user).
Proof. intros. rewrite chain_access_token. by rewrite bool_decide_false by lia. Qed.

Lemma chain_refresh_token_fresh now now' session user :
  now' ≤ now + 86400 * refresh_token_expire_days settings →
  depends_current_active_auth_user REFRESH_TOKEN_TYPE now' session
    (create_refresh_token settings now user) = row_answer session (id user).
Proof. intros. rewrite chain_refresh_token. by rewrite bool_decide_false by lia. Qed.

(** The answer for the user the credential gate returned, in a well-formed
    table. *)
Lemma row_answer_authenticated `{hasher : PasswordHasher} session username
    password user :
  db_wf session → validate_auth_user username password session = Ok user →
  row_answer session (id user) = Ok user.
Proof.
  intros Hwf (Hsel & _ & Ha)%validate_auth_user_Ok. unfold row_answer.
  by rewrite (session_get_select _ _ _ Hwf Hsel), Ha.
Qed.

End issued_tokens.

Lemma row_answer_set_active rows i b row :
  rows_get rows (PyInt i) = Some row →
  row_answer (store := list_store) (rows_set_active i b rows) i =
  if b then Ok (set_active b row) else Err inactive_user.
Proof.
  intros Hrow. unfold row_answer.
  change (session_get (UserStore := list_store)) with rows_get.
  rewrite (rows_get_set_active _ _ _ _ Hrow). by destruct b.
Qed.

Lemma row_answer_delete rows i :
  row_answer (store := list_store) (rows_delete i rows) i = Err user_not_found.
Proof.
  unfold row_answer.
  change (session_get (UserStore := list_store)) with rows_get.
  by rewrite rows_get_delete.
Qed.


(** [chain_inv] turns the hypotheses that a dependency returned into what its
    checks established. *)
Ltac chain_inv :=
  res_inv;
  repeat match goal with
  | H : get_current_token_payload _ _ = Ok _ |- _ =>
      apply get_current_token_payload_Ok in H
  | H : validate_token_type _ _ = Ok _ |- _ =>
      apply validate_token_type_Ok in H as [? H]
  | H : get_user_by_token_sub _ _ = Ok _ |- _ =>
      apply get_user_by_token_sub_Ok in H as [? H]
  | H : get_current_active_auth_user _ _ = Ok _ |- _ =>
      apply get_current_active_auth_user_Ok in H as [? H]
  | H : validate_auth_user _ _ _ = Ok _ |- _ =>
      apply validate_auth_user_Ok in H as (? & ? & H)
  end; subst.

(** What a grant of the chain implies, for the routes and the system built
    on it. *)
Lemma chain_Ok_inv `{codec : JwtCodec} `{store : UserStore} token_type now
    session tok user :
  depends_current_active_auth_user token_type now session tok = Ok user →
  ∃ claims,
    decode_jwt now tok = Ok claims ∧
    claims !! TOKEN_TYPE_FIELD = Some (PyStr token_type) ∧
    claims !! "sub" = Some (PyInt (id user)) ∧
    session_get session (PyInt (id user)) = Some user ∧
    active user = true.
Proof.
  unfold depends_current_active_auth_user, depends_UserGetterFromToken,
    UserGetterFromToken_call. simpl.
  intros H. chain_inv. eauto 10.
Qed.

(** ** Theorems: the credential gate *)

Section gate_theorems.
Context `{hasher : PasswordHasher} `{store : UserStore}.
Implicit Types (session : db) (user : User).

(** When the credential gate returns a user, that
    user is the row selected for the presented username, the presented
    password verifies against its stored hash, and the account is active. *)
Lemma login_grants_sound session username password user :
  validate_auth_user username password session = Ok user →
  select_first_by_username session username = Some user ∧
  UserStore.username user = username ∧
  validate_password password (UserStore.password user) = true ∧
  active user = true.
Proof.
  intros (Hsel & ? & ?)%validate_auth_user_Ok.
  eauto using select_first_by_username_Some.
Qed.

(** C9 [credential_gate_order]: a correct password for an inactive account
    is answered with 403 "User inactive", not with the credentials error: the
    liveness check comes after the password check. *)
Theorem credential_gate_order session username password user :
  select_first_by_username session username = Some user →
  validate_password password (UserStore.password user) = true →
  active user = false →
  validate_auth_user username password session =
  Err (http_error 403 "User inactive").
Proof. apply validate_auth_user_inactive. Qed.

(** C10 [credential_gate_uniform]: a username that selects no row and an
    existing username with a password that does not verify get the same
    answer, 400 "Incorrect username or password", whether or not the existing
    account is active. *)
Theorem credential_gate_uniform session username password username' password'
    user :
  select_first_by_username session username = None →
  select_first_by_username session username' = Some user →
  validate_password password' (UserStore.password user) = false →
  validate_auth_user username password session =
    Err (http_error 400 "Incorrect username or password") ∧
  validate_auth_user username' password' session =
    validate_auth_user username password session.
Proof.
  intros Hn Hs Hp. rewrite (validate_auth_user_unknown _ _ _ Hn).
  by rewrite (validate_auth_user_wrong_password _ _ _ _ Hs Hp).
Qed.

End gate_theorems.

Lemma login_grants_sound_witness :
  select_first_by_username (UserStore := list_store) demo_rows "alice" = Some alice ∧
  username alice = "alice" ∧
  validate_password (PasswordHasher := symbolic_hasher) "correct-pw"
    (password alice) = true ∧
  active alice = true.
Proof.
  apply (login_grants_sound (hasher := symbolic_hasher) (store := list_store)
           demo_rows "alice" "correct-pw" alice).
  reflexivity.
Defined.

Lemma credential_gate_order_witness :
  validate_auth_user (hasher := symbolic_hasher) (store := list_store)
    "bob" "hunter2" demo_rows = Err (http_error 403 "User inactive").
Proof.
  apply (credential_gate_order (hasher := symbolic_hasher)
           (store := list_store) demo_rows "bob" "hunter2" bob); reflexivity.
Defined.

Lemma credential_gate_uniform_witness :
  validate_auth_user (hasher := symbolic_hasher) (store := list_store)
    "carol" "x" demo_rows = Err (http_error 400 "Incorrect username or password") ∧
  validate_auth_user (hasher := symbolic_hasher) (store := list_store)
    "bob" "wrong" demo_rows =
  validate_auth_user (hasher := symbolic_hasher) (store := list_store)
    "carol" "x" demo_rows.
Proof.
  apply (credential_gate_uniform (hasher := symbolic_hasher)
           (store := list_store) demo_rows "carol" "x" "bob" "wrong" bob);
    reflexivity.
Defined.

(** ** Theorems: the validation chain *)

Section chain_theorems.
Context `{codec : JwtCodec} `{store : UserStore} (settings : AuthJWT).
Implicit Types (now : Z) (session : db) (tok : token) (user : User).

(** C1 [chain_grants_iff]: the chain returns a user exactly when the token
    decodes (it verifies and is not expired) to claims whose [type] is the
    kind the route requires and whose [sub] is the primary key of that user,
    the table holds that user under that key, and the user is active. *)
Theorem chain_grants_iff token_type now session tok user :
  depends_current_active_auth_user token_type now session tok = Ok user ↔
  ∃ claims,
    decode_jwt now tok = Ok claims ∧
    claims !! TOKEN_TYPE_FIELD = Some (PyStr token_type) ∧
    claims !! "sub" = Some (PyInt (id user)) ∧
    session_get session (PyInt (id user)) = Some user ∧
    active user = true.
Proof.
  split; [apply chain_Ok_inv|].
  unfold depends_current_active_auth_user, depends_UserGetterFromToken,
    UserGetterFromToken_call. simpl.
  - intros (claims & Hd & Ht & Hs & Hg & Ha).
    apply get_current_token_payload_Ok in Hd. rewrite Hd. simpl.
    rewrite (validate_token_type_eq _ _ Ht). simpl.
    rewrite (get_user_by_token_sub_found _ _ _ Hs Hg). simpl.
    by apply get_current_active_auth_user_Ok.
Qed.

(** C5 [refresh_token_refused_as_access]: a refresh token presented where an
    access token is required is refused, whatever the table holds: before its
    expiry with 401 "invalid token type 'refresh' expected 'access'", after it
    with 401 "invalid token error". *)
Theorem refresh_token_refused_as_access now now' session user :
  depends_current_active_auth_user ACCESS_TOKEN_TYPE now' session
    (create_refresh_token settings now user) =
  if bool_decide (now + 86400 * refresh_token_expire_days settings < now')
  then Err (http_error 401 "invalid token error")
  else Err (http_error 401 "invalid token type 'refresh' expected 'access'").
Proof.
  by rewrite (chain_on_other_kind _ _ _ _ _ _
                (jwt_verify_create_refresh_token settings now user)
                (refresh_claims_exp settings now user)).
Qed.

(** C6 [access_token_refused_as_refresh]: an access token presented where a
    refresh token is required is refused, whatever the table holds: before its
    expiry with 401 "invalid token type 'access' expected 'refresh'", after it
    with 401 "invalid token error". *)
Theorem access_token_refused_as_refresh now now' session user :
  depends_current_active_auth_user REFRESH_TOKEN_TYPE now' session
    (create_access_token settings now user) =
  if bool_decide (now + 60 * access_token_expire_minutes settings < now')
  then Err (http_error 401 "invalid token error")
  else Err (http_error 401 "invalid token type 'access' expected 'refresh'").
Proof.
  by rewrite (chain_on_other_kind _ _ _ _ _ _
                (jwt_verify_create_access_token settings now user)
                (access_claims_exp settings now user)).
Qed.

End chain_theorems.

(** ** Theorems: refusals and scenarios *)

Section refusal_theorems.
Context `{codec : JwtCodec} `{store : UserStore}.
Implicit Types (now : Z) (session : db) (tok : token).

(** C12 [chain_refusals]: every refusal of the chain is one of four
    exceptions, each with its cause: 401 "invalid token error" when the token
    does not decode; 401 "invalid token type ..." when the decoded [type] is
    not the required kind; 401 "token invalid (user not found)" when the kind
    is right and the table has no row for the [sub] claim; 403 "inactive user"
    when that row is inactive. *)
Theorem chain_refusals token_type now session tok e :
  depends_current_active_auth_user token_type now session tok = Err e →
  (e = invalid_token_error ∧ ∃ why, decode_jwt now tok = Err why) ∨
  ∃ claims, decode_jwt now tok = Ok claims ∧
    ((e = invalid_token_type (dict_get claims TOKEN_TYPE_FIELD) token_type ∧
      claims !! TOKEN_TYPE_FIELD ≠ Some (PyStr token_type)) ∨
     (claims !! TOKEN_TYPE_FIELD = Some (PyStr token_type) ∧
      ((e = user_not_found ∧
        session_get session (dict_get claims "sub") = None) ∨
       (e = inactive_user ∧ ∃ row,
          session_get session (dict_get claims "sub") = Some row ∧
          active row = false)))).
Proof.
  unfold depends_current_active_auth_user, depends_UserGetterFromToken,
    UserGetterFromToken_call. simpl.
  destruct (get_current_token_payload now tok) as [claims|] eqn:Hp; simpl;
    [|intros [= <-]; left; by eapply get_current_token_payload_Err_inv].
  apply get_current_token_payload_Ok in Hp. intros He. right. exists claims.
  split; [done|].
  destruct (validate_token_type claims token_type) eqn:Ht; simpl in He;
    [|injection He as <-; left; by apply validate_token_type_Err].
  apply validate_token_type_Ok in Ht as [_ Ht]. right. split; [done|].
  destruct (get_user_by_token_sub claims session) as [row|] eqn:Hu;
    simpl in He;
    [|injection He as <-; left; by apply get_user_by_token_sub_Err].
  right. apply get_current_active_auth_user_Err in He as [-> Ha].
  apply get_user_by_token_sub_Ok in Hu as [Hs Hu].
  rewrite (dict_get_Some _ _ _ Hs). eauto.
Qed.

(** A token the decoder refuses as expired is
    refused by the chain at every later instant, for every kind and whatever
    the table holds then. *)
Lemma expired_stays_refused token_type now now' session tok :
  decode_jwt now tok = Err Expired → now ≤ now' →
  depends_current_active_auth_user token_type now' session tok =
  Err (http_error 401 "invalid token error").
Proof.
  intros He Hle. eapply depends_current_active_auth_user_undecoded.
  by eapply decode_jwt_expired_mono.
Qed.

End refusal_theorems.

Section scenario_theorems.
Context `{codec : JwtCodec} `{hasher : PasswordHasher} `{store : UserStore}.
Context (settings : AuthJWT).
Implicit Types (now : Z) (session : db) (user : User).

(** In a table with a unique primary key, the access token issued for the
    user the credential gate returned is accepted where an access token is
    required, with that same user, until the access lifetime is exceeded. *)
Lemma login_then_access session username password user now now' :
  db_wf session →
  validate_auth_user username password session = Ok user →
  now' ≤ now + 60 * access_token_expire_minutes settings →
  depends_current_active_auth_user ACCESS_TOKEN_TYPE now' session
    (create_access_token settings now user) = Ok user.
Proof.
  intros. rewrite chain_access_token_fresh by done.
  by eapply row_answer_authenticated.
Qed.

(** Likewise the refresh token issued for that user is accepted where a
    refresh token is required until the refresh lifetime is exceeded. *)
Lemma login_then_refresh session username password user now now' :
  db_wf session →
  validate_auth_user username password session = Ok user →
  now' ≤ now + 86400 * refresh_token_expire_days settings →
  depends_current_active_auth_user REFRESH_TOKEN_TYPE now' session
    (create_refresh_token settings now user) = Ok user.
Proof.
  intros. rewrite chain_refresh_token_fresh by done.
  by eapply row_answer_authenticated.
Qed.

End scenario_theorems.

Section table_theorems.
Context `{codec : JwtCodec} (settings : AuthJWT).
Implicit Types (now : Z) (rows : list User) (user : User).

(** C34 [deactivation_revokes]: once the row of a token's subject is made
    inactive, the unexpired access token is answered with 403 "inactive
    user": liveness is read from the table at validation time, not from the
    token. *)
Theorem deactivation_revokes rows user row now now' :
  rows_get rows (PyInt (id user)) = Some row →
  now' ≤ now + 60 * access_token_expire_minutes settings →
  depends_current_active_auth_user (store := list_store) ACCESS_TOKEN_TYPE
    now' (rows_set_active (id user) false rows)
    (create_access_token settings now user) =
  Err (http_error 403 "inactive user").
Proof.
  intros Hrow ?. rewrite chain_access_token_fresh by done.
  by rewrite (row_answer_set_active _ _ _ _ Hrow).
Qed.

(** C35 [deletion_revokes]: once the row of a token's subject is deleted, the
    unexpired access token is answered with 401 "token invalid (user not
    found)". *)
Theorem deletion_revokes rows user now now' :
  now' ≤ now + 60 * access_token_expire_minutes settings →
  depends_current_active_auth_user (store := list_store) ACCESS_TOKEN_TYPE
    now' (rows_delete (id user) rows)
    (create_access_token settings now user) =
  Err (http_error 401 "token invalid (user not found)").
Proof.
  intros. rewrite chain_access_token_fresh by done. apply row_answer_delete.
Qed.

(** C39 [reactivation_restores]: there is no revocation list: an access token
    issued before its subject was deactivated is accepted again, unexpired,
    once the row is active again. *)
Theorem reactivation_restores rows user row now now' :
  rows_get rows (PyInt (id user)) = Some row →
  now' ≤ now + 60 * access_token_expire_minutes settings →
  depends_current_active_auth_user (store := list_store) ACCESS_TOKEN_TYPE
    now' (rows_set_active (id user) true
            (rows_set_active (id user) false rows))
    (create_access_token settings now user) =
  Ok (set_active true row).
Proof.
  intros Hrow%(rows_get_set_active _ _ false) ?.
  rewrite chain_access_token_fresh by done.
  by rewrite (row_answer_set_active _ _ _ _ Hrow).
Qed.

End table_theorems.

(** ** Witnesses *)

Definition expired_demo_token : token (JwtCodec := demo_codec) :=
  create_access_token (codec := demo_codec) demo_settings 1000 alice.

Lemma chain_refusals_witness :
  (invalid_token_type (PyStr "refresh") "access" = invalid_token_error ∧
   ∃ why, decode_jwt (codec := demo_codec) 1500
            (create_refresh_token (codec := demo_codec) demo_settings 1000 alice)
          = Err why) ∨
  ∃ claims,
    decode_jwt (codec := demo_codec) 1500
      (create_refresh_token (codec := demo_codec) demo_settings 1000 alice)
    = Ok claims ∧
    ((invalid_token_type (PyStr "refresh") "access" =
        invalid_token_type (dict_get claims TOKEN_TYPE_FIELD) "access" ∧
      claims !! TOKEN_TYPE_FIELD ≠ Some (PyStr "access")) ∨
     (claims !! TOKEN_TYPE_FIELD = Some (PyStr "access") ∧
      ((invalid_token_type (PyStr "refresh") "access" = user_not_found ∧
        session_get (UserStore := list_store) demo_rows (dict_get claims "sub")
        = None) ∨
       (invalid_token_type (PyStr "refresh") "access" = inactive_user ∧
        ∃ row,
          session_get (UserStore := list_store) demo_rows
            (dict_get claims "sub") = Some row ∧
          active row = false)))).
Proof.
  apply (chain_refusals (codec := demo_codec) (store := list_store)
           "access" 1500 demo_rows
           (create_refresh_token (codec := demo_codec) demo_settings 1000 alice)).
  reflexivity.
Defined.

Lemma expired_stays_refused_witness :
  depends_current_active_auth_user (codec := demo_codec) (store := list_store)
    "access" 5000 demo_rows expired_demo_token =
  Err (http_error 401 "invalid token error").
Proof.
  apply (expired_stays_refused (codec := demo_codec) (store := list_store)
           "access" 2000 5000 demo_rows expired_demo_token);
    [reflexivity|lia].
Defined.

Lemma login_then_access_witness :
  depends_current_active_auth_user (codec := demo_codec) (store := list_store)
    ACCESS_TOKEN_TYPE 1500 demo_rows
    (create_access_token (codec := demo_codec) demo_settings 1000 alice)
  = Ok alice.
Proof.
  apply (login_then_access (codec := demo_codec) (hasher := symbolic_hasher)
           (store := list_store) demo_settings demo_rows "alice" "correct-pw"
           alice 1000 1500);
    [exact demo_rows_wf|reflexivity|simpl; lia].
Defined.

Lemma login_then_refresh_witness :
  depends_current_active_auth_user (codec := demo_codec) (store := list_store)
    REFRESH_TOKEN_TYPE 86400 demo_rows
    (create_refresh_token (codec := demo_codec) demo_settings 1000 alice)
  = Ok alice.
Proof.
  apply (login_then_refresh (codec := demo_codec) (hasher := symbolic_hasher)
           (store := list_store) demo_settings demo_rows "alice" "correct-pw"
           alice 1000 86400);
    [exact demo_rows_wf|reflexivity|simpl; lia].
Defined.

Lemma deactivation_revokes_witness :
  depends_current_active_auth_user (codec := demo_codec) (store := list_store)
    ACCESS_TOKEN_TYPE 1500 (rows_set_active (id alice) false demo_rows)
    (create_access_token (codec := demo_codec) demo_settings 1000 alice)
  = Err (http_error 403 "inactive user").
Proof.
  apply (deactivation_revokes (codec := demo_codec) demo_settings demo_rows
           alice alice 1000 1500); [reflexivity|simpl; lia].
Defined.

Lemma deletion_revokes_witness :
  depends_current_active_auth_user (codec := demo_codec) (store := list_store)
    ACCESS_TOKEN_TYPE 1500 (rows_delete (id alice) demo_rows)
    (create_access_token (codec := demo_codec) demo_settings 1000 alice)
  = Err (http_error 401 "token invalid (user not found)").
Proof.
  apply (deletion_revokes (codec := demo_codec) demo_settings demo_rows
           alice 1000 1500). simpl; lia.
Defined.

Lemma reactivation_restores_witness :
  depends_current_active_auth_user (codec := demo_codec) (store := list_store)
    ACCESS_TOKEN_TYPE 1500
    (rows_set_active (id alice) true
       (rows_set_active (id alice) false demo_rows))
    (create_access_token (codec := demo_codec) demo_settings 1000 alice)
  = Ok (set_active true alice).
Proof.
  apply (reactivation_restores (codec := demo_codec) demo_settings demo_rows
           alice alice 1000 1500); [reflexivity|simpl; lia].
Defined.
