(* ===== verification/Refinement.v ===== *)
(** The specification of the two gates, stated on its own terms, and the
    theorems that the dependencies of [Security] implement it.

    [Gate] is the credential gate: a relation between a presented username
    and password and one of three outcomes.  [Pipeline] is the validation
    pipeline: a machine whose states are the four stages and the terminal
    outcomes, with one rule per way out of a stage.  Each module gives the
    translation of an outcome to the HTTP answer, and proves that the code
    returns the translation of the outcome the specification determines. *)

From Stdlib Require Wf_nat.
From stdpp Require Import base numbers strings gmap relations.
From S2P Require Import Prelude PyData Http Codec UserStore Fixtures.
From S2P Require Import CreateToken Security.

Local Open Scope Z_scope.

(** ** The credential gate *)

Module Gate.

Inductive AuthOutcome : Type :=
  | Authenticated (principal : User)
  | InvalidCredentials
  | InactiveAccount.

#[export] Instance AuthOutcome_eq_dec : EqDecision AuthOutcome.
Proof. solve_decision. Defined.

Definition http_of_outcome (o : AuthOutcome) : http User :=
  match o with
  | Authenticated principal => Ok principal
  | InvalidCredentials => Err (http_error 400 "Incorrect username or password")
  | InactiveAccount => Err (http_error 403 "User inactive")
  end.

Section gate.
Context `{hasher : PasswordHasher} `{store : UserStore}.
Implicit Types (session : db) (o : AuthOutcome).

(** [authenticate]: a miss and a wrong password are [InvalidCredentials];
    liveness is judged only once the password verified. *)
Inductive authenticate session (username password : string) :
    AuthOutcome → Prop :=
  | auth_miss :
      select_first_by_username session username = None →
      authenticate session username password InvalidCredentials
  | auth_wrong_password principal :
      select_first_by_username session username = Some principal →
      validate_password password (UserStore.password principal) = false →
      authenticate session username password InvalidCredentials
  | auth_inactive principal :
      select_first_by_username session username = Some principal →
      validate_password password (UserStore.password principal) = true →
      active principal = false →
      authenticate session username password InactiveAccount
  | auth_ok principal :
      select_first_by_username session username = Some principal →
      validate_password password (UserStore.password principal) = true →
      active principal = true →
      authenticate session username password (Authenticated principal).

Lemma authenticate_total session username password :
  ∃ o, authenticate session username password o.
Proof.
  destruct (select_first_by_username session username) as [u|] eqn:Hs;
    [|eauto using authenticate].
  destruct (validate_password password (UserStore.password u)) eqn:Hp,
    (active u) eqn:Ha; eauto using authenticate.
Qed.

Lemma authenticate_functional session username password o o' :
  authenticate session username password o →
  authenticate session username password o' → o = o'.
Proof. destruct 1; destruct 1; congruence. Qed.

Lemma http_of_outcome_inj o o' : http_of_outcome o = http_of_outcome o' → o = o'.
Proof. destruct o, o'; simpl; by intros [=]; subst. Qed.

Lemma authenticate_http session username password o :
  authenticate session username password o →
  validate_auth_user username password session = http_of_outcome o.
Proof.
  destruct 1; simpl;
    eauto using validate_auth_user_unknown, validate_auth_user_wrong_password,
      validate_auth_user_inactive.
  by apply validate_auth_user_Ok.
Qed.

(** C11 [gate_refines]: [validate_auth_user] implements [authenticate]: the
    specification relates the presented credentials to an outcome exactly
    when the code returns the HTTP answer of that outcome. *)
Theorem gate_refines session username password o :
  authenticate session username password o ↔
  validate_auth_user username password session = http_of_outcome o.
Proof.
  split; [apply authenticate_http|]. intros Hcode.
  destruct (authenticate_total session username password) as [o' Ho'].
  rewrite (authenticate_http _ _ _ _ Ho') in Hcode.
  by rewrite <-(http_of_outcome_inj _ _ Hcode).
Qed.

End gate.
End Gate.

(** ** The validation pipeline *)

Module Pipeline.

Inductive TokenKind : Type := Access | Refresh.

#[export] Instance TokenKind_eq_dec : EqDecision TokenKind.
Proof. solve_decision. Defined.

Definition kind_name (k : TokenKind) : string :=
  match k with
  | Access => "access"
  | Refresh => "refresh"
  end.

(** The terminal results.  [BadToken InvalidSignatureOrFormat] and
    [BadToken Expired] are the two failures of the decode stage. *)
Inductive ValidationOutcome : Type :=
  | Valid (principal : User)
  | BadToken (why : InvalidTokenError)
  | WrongTokenType (expected : TokenKind) (actual : pyval)
  | UnknownSubject
  | InactiveAccount.

#[export] Instance ValidationOutcome_eq_dec : EqDecision ValidationOutcome.
Proof. solve_decision. Defined.

Definition http_of_outcome (o : ValidationOutcome) : http User :=
  match o with
  | Valid principal => Ok principal
  | BadToken _ => Err (http_error 401 "invalid token error")
  | WrongTokenType expected actual =>
      Err (http_error 401
             ("invalid token type " +:+ py_repr actual +:+ " expected " +:+
              py_repr (PyStr (kind_name expected))))
  | UnknownSubject => Err (http_error 401 "token invalid (user not found)")
  | InactiveAccount => Err (http_error 403 "inactive user")
  end.

Section pipeline.
Context `{codec : JwtCodec} `{store : UserStore}.
Context (expected : TokenKind) (now : Z) (session : db).
Implicit Types (tok : token) (claims : dict) (o : ValidationOutcome).

(** A state of the pipeline: the stage about to run with its input, or the
    outcome. *)
Inductive stage : Type :=
  | Decoding (tok : token)
  | TypeMatching (claims : dict)
  | Resolving (claims : dict)
  | CheckingLiveness (principal : User)
  | Done (outcome : ValidationOutcome).

(** The subject the claims resolve to in the table, if any. *)
Definition resolve claims : option User :=
  claims !! "sub" ≫= session_get session.

(** One rule for each way out of a stage. *)
Inductive step : stage → stage → Prop :=
  | step_decode tok claims :
      decode_jwt now tok = Ok claims →
      step (Decoding tok) (TypeMatching claims)
  | step_decode_fail tok why :
      decode_jwt now tok = Err why →
      step (Decoding tok) (Done (BadToken why))
  | step_type claims :
      claims !! "type" = Some (PyStr (kind_name expected)) →
      step (TypeMatching claims) (Resolving claims)
  | step_type_fail claims :
      claims !! "type" ≠ Some (PyStr (kind_name expected)) →
      step (TypeMatching claims)
        (Done (WrongTokenType expected (dict_get claims "type")))
  | step_resolve claims principal :
      resolve claims = Some principal →
      step (Resolving claims) (CheckingLiveness principal)
  | step_resolve_fail claims :
      resolve claims = None →
      step (Resolving claims) (Done UnknownSubject)
  | step_live principal :
      active principal = true →
      step (CheckingLiveness principal) (Done (Valid principal))
  | step_live_fail principal :
      active principal = false →
      step (CheckingLiveness principal) (Done InactiveAccount).

(** The same machine as a function: the successor of a state, [None] for an
    outcome. *)
Definition next (s : stage) : option stage :=
  match s with
  | Decoding tok =>
      Some match decode_jwt now tok with
           | Ok claims => TypeMatching claims
           | Err why => Done (BadToken why)
           end
  | TypeMatching claims =>
      Some (if bool_decide (claims !! "type" = Some (PyStr (kind_name expected)))
            then Resolving claims
            else Done (WrongTokenType expected (dict_get claims "type")))
  | Resolving claims =>
      Some match resolve claims with
           | Some principal => CheckingLiveness principal
           | None => Done UnknownSubject
           end
  | CheckingLiveness principal =>
      Some (if active principal then Done (Valid principal)
            else Done InactiveAccount)
  | Done _ => None
  end.

(** The stages still to run from a state: the measure that bounds a run. *)
Definition stages_left (s : stage) : nat :=
  match s with
  | Decoding _ => 4
  | TypeMatching _ => 3
  | Resolving _ => 2
  | CheckingLiveness _ => 1
  | Done _ => 0
  end.

Fixpoint run (fuel : nat) (s : stage) : stage :=
  match fuel with
  | O => s
  | S fuel' =>
      match next s with
      | Some s' => run fuel' s'
      | None => s
      end
  end.

(** [validate]: the outcome of the pipeline on a token.  Four steps suffice:
    [validate_Done]. *)
Definition validate tok : ValidationOutcome :=
  match run 4 (Decoding tok) with
  | Done o => o
  | _ => BadToken InvalidSignatureOrFormat
  end.

(** *** The machine *)

Lemma step_next s s' : step s s' ↔ next s = Some s'.
Proof.
  split.
  - destruct 1; simpl; repeat f_equal;
      rewrite ?bool_decide_true, ?bool_decide_false by done;
      by repeat match goal with H : _ = _ |- _ => rewrite H end.
  - destruct s; simpl; intros [= <-]; try case_bool_decide;
      repeat case_res; eauto using step.
Qed.

Lemma step_deterministic s s1 s2 : step s s1 → step s s2 → s1 = s2.
Proof. rewrite !step_next. congruence. Qed.

(** There is no loop and no retry: every step consumes a stage. *)
Lemma step_decreases s s' : step s s' → (stages_left s' < stages_left s)%nat.
Proof. destruct 1; simpl; lia. Qed.

(** The states without a successor are exactly the outcomes. *)
Lemma terminal_iff_Done s : next s = None ↔ ∃ o, s = Done o.
Proof. destruct s; simpl; naive_solver. Qed.

Lemma run_steps fuel s : rtc step s (run fuel s).
Proof.
  revert s. induction fuel as [|fuel IH]; intros s; simpl; [done|].
  destruct (next s) as [s'|] eqn:Hs; [|done].
  eapply rtc_l; [by apply step_next|apply IH].
Qed.

Lemma run_Done fuel s :
  (stages_left s ≤ fuel)%nat → ∃ o, run fuel s = Done o.
Proof.
  revert s. induction fuel as [|fuel IH]; intros s Hs; simpl.
  - destruct s; simpl in Hs; try lia. eauto.
  - destruct (next s) as [s'|] eqn:Hn; [|by apply terminal_iff_Done].
    apply IH. apply step_next, step_decreases in Hn. lia.
Qed.

Lemma validate_Done tok : run 4 (Decoding tok) = Done (validate tok).
Proof.
  unfold validate. destruct (run_Done 4 (Decoding tok)) as [o ->]; done.
Qed.

(** Every token reaches an outcome, in at most four steps, and the outcome is
    unique. *)
Lemma validate_reaches tok : rtc step (Decoding tok) (Done (validate tok)).
Proof. rewrite <-validate_Done. apply run_steps. Qed.

Lemma rtc_step_Done s o o' :
  rtc step s (Done o) → rtc step s (Done o') → o = o'.
Proof.
  intros H. remember (Done o) as t eqn:Ht. revert o'.
  induction H as [s|s s' s'' Hs _ IH]; intros o' H'; subst.
  - inversion H' as [|? ? ? Hs]; [done|inversion Hs].
  - inversion H' as [|? s2 ? Hs2 Hrest]; subst; [inversion Hs|].
    apply IH; [done|]. by rewrite (step_deterministic _ _ _ Hs Hs2).
Qed.

Lemma validate_unique tok o :
  rtc step (Decoding tok) (Done o) ↔ validate tok = o.
Proof.
  split; [|intros <-; apply validate_reaches].
  intros. symmetry. eauto using rtc_step_Done, validate_reaches.
Qed.

(** *** The code follows the machine *)

(** What the code does from each state of the pipeline: the chain from a
    token, and its remaining checks from the later stages. *)
Definition code_from (s : stage) : http User :=
  match s with
  | Decoding tok =>
      depends_current_active_auth_user (kind_name expected) now session tok
  | TypeMatching claims =>
      user ← UserGetterFromToken_call
                (mkUserGetterFromToken (kind_name expected)) claims session;
      get_current_active_auth_user (kind_name expected) user
  | Resolving claims =>
      user ← get_user_by_token_sub claims session;
      get_current_active_auth_user (kind_name expected) user
  | CheckingLiveness principal =>
      get_current_active_auth_user (kind_name expected) principal
  | Done o => http_of_outcome o
  end.

Lemma resolve_get_user_by_token_sub claims :
  get_user_by_token_sub claims session =
  of_option (resolve claims) (http_error 401 "token invalid (user not found)").
Proof.
  unfold get_user_by_token_sub, resolve, dict_get.
  destruct (claims !! "sub") as [v|]; simpl; [by destruct (session_get _ _)|].
  destruct (session_get session PyNone) as [u|] eqn:Hu; [|done].
  by apply session_get_Some in Hu.
Qed.

(** A step of the machine does not change what the code answers. *)
Lemma step_code_from s s' : step s s' → code_from s = code_from s'.
Proof.
  destruct 1 as [? ? Hd|? ? Hd|? Ht|? Ht|? ? Hr|? Hr|? Ha|? Ha]; simpl.
  - unfold depends_current_active_auth_user, depends_UserGetterFromToken.
    by rewrite (proj2 (get_current_token_payload_Ok _ _ _) Hd).
  - by eapply depends_current_active_auth_user_undecoded.
  - unfold UserGetterFromToken_call. simpl.
    by rewrite validate_token_type_eq.
  - unfold UserGetterFromToken_call. simpl.
    by rewrite validate_token_type_ne.
  - by rewrite resolve_get_user_by_token_sub, Hr.
  - by rewrite resolve_get_user_by_token_sub, Hr.
  - unfold get_current_active_auth_user. by rewrite Ha.
  - unfold get_current_active_auth_user. by rewrite Ha.
Qed.

Lemma rtc_step_code_from s s' : rtc step s s' → code_from s = code_from s'.
Proof.
  induction 1 as [|? ? ? Hs _ IH]; [done|].
  by rewrite (step_code_from _ _ Hs).
Qed.

(** C3 [chain_refines]: the chain of dependencies implements the pipeline:
    on every token it returns the HTTP answer of the outcome the four-stage
    machine reaches. *)
Theorem chain_refines tok :
  depends_current_active_auth_user (kind_name expected) now session tok =
  http_of_outcome (validate tok).
Proof. apply (rtc_step_code_from _ _ (validate_reaches tok)). Qed.

(** The machine stops: [stages_left] bounds the steps from every state. *)
Lemma run_bsteps fuel s : bsteps step fuel s (run fuel s).
Proof.
  revert s. induction fuel as [|fuel IH]; intros s; simpl; [constructor|].
  destruct (next s) as [s'|] eqn:Hs; [|constructor].
  eapply bsteps_l; [by apply step_next|apply IH].
Qed.


(** C38 [bad_token_answers_collapse]: the pipeline tells an expired token
    from one that does not verify, and the chain answers both alike. *)
Theorem bad_token_answers_collapse tok tok' :
  validate tok = BadToken Expired →
  validate tok' = BadToken InvalidSignatureOrFormat →
  depends_current_active_auth_user (kind_name expected) now session tok =
  depends_current_active_auth_user (kind_name expected) now session tok'.
Proof.
  intros H H'.
  pose proof (rtc_step_code_from _ _ (validate_reaches tok)) as E.
  pose proof (rtc_step_code_from _ _ (validate_reaches tok')) as E'.
  simpl in E, E'. by rewrite E, E', H, H'.
Qed.

End pipeline.

Lemma kind_name_access : kind_name Access = ACCESS_TOKEN_TYPE.
Proof. done. Qed.

Lemma kind_name_refresh : kind_name Refresh = REFRESH_TOKEN_TYPE.
Proof. done. Qed.

Lemma bad_token_answers_collapse_witness :
  depends_current_active_auth_user (codec := demo_codec) (store := list_store)
    (kind_name Access) 2000 demo_rows
    (create_access_token (codec := demo_codec) demo_settings 1000 alice) =
  depends_current_active_auth_user (codec := demo_codec) (store := list_store)
    (kind_name Access) 2000 demo_rows (SToken 8 ∅).
Proof.
  apply (bad_token_answers_collapse (codec := demo_codec) (store := list_store)
           Access 2000 demo_rows); reflexivity.
Defined.

End Pipeline.
