(* ===== verification/Routers.v ===== *)
(** The endpoints of [src/src/api_v1/routers/demo_jwt_auth.py] and
    [src/src/api_v1/routers/user_router.py].

    Each handler is one definition ([auth_user_issue_jwt], [auth_refresh_jwt],
    [read_users_me]); each route ([login_route], [refresh_route],
    [users_me_route]) is the handler after the dependencies the framework
    resolves for it, in the framework's order: the dependencies of the router
    first, then those of the handler's parameters from left to right, a
    dependency that occurs twice in a request being called once.

    A handler that builds two tokens reads the clock twice; each read is an
    argument of its own.  [register_user] only calls [create_user], which is
    not among the sources: it is the operation of the interface [UserCrud]. *)

From stdpp Require Import base numbers strings gmap.
From S2P Require Import Prelude PyData Http Codec UserStore UserCrud Fixtures.
From S2P Require Import CreateToken Security.

Local Open Scope Z_scope.
Local Open Scope res_scope.

(** ** The response of the token endpoints *)

(** [TokenInfo], with the two fields the handlers set.  A refresh token that
    is [None] is left out of the response. *)
Record TokenInfo {T : Type} : Type := mkTokenInfo {
  access_token : T;
  refresh_token : option T;
}.
Arguments TokenInfo T : clear implicits.
Arguments mkTokenInfo {T} access_token refresh_token.

Section routers.
Context `{codec : JwtCodec} `{hasher : PasswordHasher} `{store : UserStore}.
Context (settings : AuthJWT).
Implicit Types (now : Z) (session : db) (payload : dict) (tok : token).
Implicit Types (user : User) (authorization : authorization_header (T := token)).

(** ** [demo_jwt_auth.py] *)

(** [auth_user_issue_jwt]: the access token is built at [now], the refresh
    token at [now']. *)
Definition auth_user_issue_jwt now now' user : TokenInfo token :=
  let access_token := create_access_token settings now user in
  let refresh_token := create_refresh_token settings now' user in
  mkTokenInfo access_token (Some refresh_token).

(** [auth_refresh_jwt]: a new access token and nothing else. *)
Definition auth_refresh_jwt now user : TokenInfo token :=
  let access_token := create_access_token settings now user in
  mkTokenInfo access_token None.

(** [POST /auth/login/]: the router's [http_bearer], then the credential
    gate on the two form fields, then the handler. *)
Definition login_route now now' session authorization
    (username password : string) : http (TokenInfo token) :=
  _ ← HTTPBearer_call token_empty http_bearer authorization;
  user ← validate_auth_user username password session;
  Ok (auth_user_issue_jwt now now' user).

(** [POST /auth/refresh/]: the router's [http_bearer], then the chain for a
    refresh token read at [now], then the handler, which signs at [now']. *)
Definition refresh_route now now' session authorization :
    http (TokenInfo token) :=
  _ ← HTTPBearer_call token_empty http_bearer authorization;
  tok ← OAuth2PasswordBearer_call token_empty oauth2_scheme authorization;
  user ← depends_current_active_auth_user REFRESH_TOKEN_TYPE now session tok;
  Ok (auth_refresh_jwt now' user).

(** [register_user]: what [create_user] returns; the session it leaves is
    the table from then on. *)
Definition register_user `{crud : @UserCrud store} (user_in : UserSchema)
    session : http (db * User) :=
  create_user session user_in.

(** [POST /auth/register/]: the router's [http_bearer], then the handler on
    the submitted body. *)
Definition register_route `{crud : @UserCrud store} session authorization
    (user_in : UserSchema) : http (db * User) :=
  _ ← HTTPBearer_call token_empty http_bearer authorization;
  register_user user_in session.

(** ** [user_router.py] *)

(** [read_users_me]: the row of the user and the [iat] claim of the token. *)
Definition read_users_me payload user : dict :=
  let iat := dict_get payload "iat" in
  {[ "id" := PyInt (id user);
     "email" := PyStr (email user);
     "username" := PyStr (username user);
     "logged_at_in" := iat ]}.

(** [GET /users/me/]: the router's [http_bearer]; the payload of the bearer
    token for the first parameter; for the second, the getter and the
    liveness check on that same payload (the token is read and decoded
    once). *)
Definition users_me_route now session authorization : http dict :=
  _ ← HTTPBearer_call token_empty http_bearer authorization;
  tok ← OAuth2PasswordBearer_call token_empty oauth2_scheme authorization;
  payload ← get_current_token_payload now tok;
  user ← UserGetterFromToken_call (mkUserGetterFromToken ACCESS_TOKEN_TYPE)
            payload session;
  user ← get_current_active_auth_user ACCESS_TOKEN_TYPE user;
  Ok (read_users_me payload user).

(** The same route without the framework's cache, for reference: each
    [Depends] resolved on its own, so that the header is read and the token
    decoded once for the payload of the handler and once more for the
    user. *)
Definition users_me_route_uncached now session authorization : http dict :=
  _ ← HTTPBearer_call token_empty http_bearer authorization;
  payload ← (tok ← OAuth2PasswordBearer_call token_empty oauth2_scheme
                      authorization;
             get_current_token_payload now tok);
  user ← (tok ← OAuth2PasswordBearer_call token_empty oauth2_scheme
                   authorization;
          depends_current_active_auth_user ACCESS_TOKEN_TYPE now session tok);
  Ok (read_users_me payload user).

(** ** The header readers in the routes *)

Lemma http_bearer_passes authorization :
  ∃ credentials,
    HTTPBearer_call token_empty http_bearer authorization = Ok credentials.
Proof.
  apply is_ok_true. by apply HTTPBearer_call_no_error.
Qed.

Lemma http_bearer_bind {A} authorization (k : http A) :
  (HTTPBearer_call token_empty http_bearer authorization ≫= λ _, k) = k.
Proof. by destruct (http_bearer_passes authorization) as [c ->]. Qed.

Lemma login_route_eq now now' session authorization username password :
  login_route now now' session authorization username password =
  auth_user_issue_jwt now now' <$> validate_auth_user username password session.
Proof.
  unfold login_route. rewrite http_bearer_bind.
  by destruct (validate_auth_user _ _ _).
Qed.

Lemma register_route_eq `{crud : @UserCrud store} session authorization
    user_in :
  register_route session authorization user_in = create_user session user_in.
Proof. unfold register_route. by rewrite http_bearer_bind. Qed.

Lemma refresh_route_eq now now' session authorization :
  refresh_route now now' session authorization =
  tok ← OAuth2PasswordBearer_call token_empty oauth2_scheme authorization;
  auth_refresh_jwt now' <$>
    depends_current_active_auth_user REFRESH_TOKEN_TYPE now session tok.
Proof.
  unfold refresh_route. rewrite http_bearer_bind.
  destruct (OAuth2PasswordBearer_call _ _ _) as [tok|]; [simpl|done].
  by destruct (depends_current_active_auth_user _ _ _ _).
Qed.

(** The route on a header [Bearer tok]. *)
Lemma refresh_route_bearer now now' session tok :
  refresh_route now now' session (Some ("Bearer", tok)) =
  auth_refresh_jwt now' <$>
    depends_current_active_auth_user REFRESH_TOKEN_TYPE now session tok.
Proof. by rewrite refresh_route_eq. Qed.

(** The payload that [users_me_route] passes on is the one the chain of
    [Security] decodes again: the route is the chain, with the payload kept
    for the handler. *)
Lemma users_me_route_eq now session authorization :
  users_me_route now session authorization =
  tok ← OAuth2PasswordBearer_call token_empty oauth2_scheme authorization;
  payload ← get_current_token_payload now tok;
  read_users_me payload <$>
    depends_current_active_auth_user ACCESS_TOKEN_TYPE now session tok.
Proof.
  unfold users_me_route. rewrite http_bearer_bind.
  destruct (OAuth2PasswordBearer_call _ _ _) as [tok|]; [simpl|done].
  unfold depends_current_active_auth_user, depends_UserGetterFromToken.
  destruct (get_current_token_payload now tok) as [payload|]; [simpl|done].
  destruct (UserGetterFromToken_call _ _ _) as [user|]; [simpl|done].
  by destruct (get_current_active_auth_user _ _).
Qed.

Lemma users_me_route_bearer now session tok :
  users_me_route now session (Some ("Bearer", tok)) =
  payload ← get_current_token_payload now tok;
  read_users_me payload <$>
    depends_current_active_auth_user ACCESS_TOKEN_TYPE now session tok.
Proof. by rewrite users_me_route_eq. Qed.

Lemma read_users_me_id payload user :
  dict_get (read_users_me payload user) "id" = PyInt (id user).
Proof. unfold read_users_me, dict_get. by simplify_map_eq. Qed.

Lemma read_users_me_logged_at_in payload user :
  dict_get (read_users_me payload user) "logged_at_in" = dict_get payload "iat".
Proof. unfold read_users_me, dict_get. by simplify_map_eq. Qed.

End routers.

(** ** The routes on the tokens of the factory *)

Section issued.
Context `{codec : JwtCodec} `{hasher : PasswordHasher} `{store : UserStore}.
Context (settings : AuthJWT).
Implicit Types (now : Z) (session : db) (user : User).

(** What [/users/me/] answers for a user whose token was signed at [now]. *)
Definition profile now user : dict :=
  {[ "id" := PyInt (id user);
     "email" := PyStr (email user);
     "username" := PyStr (username user);
     "logged_at_in" := PyInt now ]}.

Lemma read_users_me_access_claims now user row :
  read_users_me (access_claims settings now user) row = profile now row.
Proof. done. Qed.

Lemma login_route_Ok now now' session authorization username password info :
  login_route settings now now' session authorization username password
    = Ok info ↔
  ∃ user, validate_auth_user username password session = Ok user ∧
          info = auth_user_issue_jwt settings now now' user.
Proof.
  rewrite login_route_eq.
  destruct (validate_auth_user _ _ _); simpl; naive_solver.
Qed.

Lemma users_me_route_access_token now now' session user :
  users_me_route now' session
    (Some ("Bearer", create_access_token settings now user)) =
  if bool_decide (now + 60 * access_token_expire_minutes settings < now')
  then Err invalid_token_error
  else profile now <$> row_answer session (id user).
Proof.
  rewrite users_me_route_bearer, chain_access_token.
  rewrite (get_current_token_payload_verified _ _ _ _
             (jwt_verify_create_access_token settings now user)
             (access_claims_exp settings now user)).
  by case_bool_decide.
Qed.

Lemma users_me_route_refresh_token now now' session user :
  users_me_route now' session
    (Some ("Bearer", create_refresh_token settings now user)) =
  if bool_decide (now + 86400 * refresh_token_expire_days settings < now')
  then Err invalid_token_error
  else Err (invalid_token_type (PyStr REFRESH_TOKEN_TYPE) ACCESS_TOKEN_TYPE).
Proof.
  rewrite users_me_route_bearer.
  rewrite (get_current_token_payload_verified _ _ _ _
             (jwt_verify_create_refresh_token settings now user)
             (refresh_claims_exp settings now user)).
  rewrite (chain_on_other_kind _ _ _ _ _ _
             (jwt_verify_create_refresh_token settings now user)
             (refresh_claims_exp settings now user)) by done.
  by case_bool_decide.
Qed.

Lemma refresh_route_refresh_token now now' now'' session user :
  refresh_route settings now' now'' session
    (Some ("Bearer", create_refresh_token settings now user)) =
  if bool_decide (now + 86400 * refresh_token_expire_days settings < now')
  then Err invalid_token_error
  else auth_refresh_jwt settings now'' <$> row_answer session (id user).
Proof.
  rewrite refresh_route_bearer, chain_refresh_token. by case_bool_decide.
Qed.

End issued.

(** ** Theorems: the routes *)

Section route_theorems.
Context `{codec : JwtCodec} `{hasher : PasswordHasher} `{store : UserStore}.
Context (settings : AuthJWT).
Implicit Types (now : Z) (session : db) (tok : token) (user : User).
Implicit Types (authorization : authorization_header (T := token)).

(** C4 [users_me_grants_iff]: [GET /users/me/] answers with a profile exactly
    when the request has an [Authorization] header whose scheme is [bearer]
    in any case and whose token decodes to claims of kind [access] with the
    key of an active row as subject; the profile is that row's, with the
    [iat] claim of the token. *)
Theorem users_me_grants_iff now session authorization d :
  users_me_route now session authorization = Ok d ↔
  ∃ scheme tok claims user,
    authorization = Some (scheme, tok) ∧ str_lower scheme = "bearer" ∧
    decode_jwt now tok = Ok claims ∧
    claims !! TOKEN_TYPE_FIELD = Some (PyStr ACCESS_TOKEN_TYPE) ∧
    claims !! "sub" = Some (PyInt (id user)) ∧
    session_get session (PyInt (id user)) = Some user ∧
    active user = true ∧
    d = read_users_me claims user.
Proof.
  unfold users_me_route. rewrite http_bearer_bind.
  unfold UserGetterFromToken_call. simpl. split.
  - intros H. chain_inv.
    match goal with
    | H : OAuth2PasswordBearer_call _ _ _ = Ok _ |- _ =>
        apply OAuth2PasswordBearer_call_Ok in H as (scheme & -> & Hs)
    end.
    eauto 12.
  - intros (scheme & tok & claims & user & -> & Hs & Hd & Ht & Hsub & Hg & Ha & ->).
    rewrite (proj2 (OAuth2PasswordBearer_call_Ok _ _ _ _)) by eauto. simpl.
    apply get_current_token_payload_Ok in Hd. rewrite Hd. simpl.
    rewrite (validate_token_type_eq _ _ Ht). simpl.
    rewrite (get_user_by_token_sub_found _ _ _ Hsub Hg). simpl.
    by rewrite (proj2 (get_current_active_auth_user_Ok _ _ _) (conj eq_refl Ha)).
Qed.

(** After a login that succeeded in a table with a
    unique primary key, the access token of the response, sent as
    [Bearer <token>] to [/users/me/] within the access lifetime, is answered
    with the profile of the user who logged in and the time the token was
    signed at. *)
Lemma login_then_users_me now0 now1 now2 session authorization username
    password info :
  db_wf session →
  login_route settings now0 now1 session authorization username password
    = Ok info →
  now2 ≤ now0 + 60 * access_token_expire_minutes settings →
  ∃ user,
    validate_auth_user username password session = Ok user ∧
    users_me_route now2 session (Some ("Bearer", access_token info))
      = Ok (profile now0 user).
Proof.
  intros Hwf (user & Hv & ->)%login_route_Ok Hfresh. exists user. split; [done|].
  simpl. rewrite users_me_route_access_token, bool_decide_false by lia.
  by rewrite (row_answer_authenticated _ _ _ _ Hwf Hv).
Qed.

(** C26 [login_then_refresh_then_users_me]: the refresh token of a login
    response, sent to [/auth/refresh/] within the refresh lifetime, is
    answered with a response that holds a new access token and no refresh
    token; that access token opens [/users/me/] within its own lifetime, and
    the profile shows the time of the refresh, not of the login. *)
Theorem login_then_refresh_then_users_me now0 now1 now2 now3 now4 session
    authorization username password info rt :
  db_wf session →
  login_route settings now0 now1 session authorization username password
    = Ok info →
  refresh_token info = Some rt →
  now2 ≤ now1 + 86400 * refresh_token_expire_days settings →
  now4 ≤ now3 + 60 * access_token_expire_minutes settings →
  ∃ user info',
    refresh_route settings now2 now3 session (Some ("Bearer", rt)) = Ok info' ∧
    refresh_token info' = None ∧
    users_me_route now4 session (Some ("Bearer", access_token info'))
      = Ok (profile now3 user).
Proof.
  intros Hwf (user & Hv & ->)%login_route_Ok [= <-] Hfresh Hfresh'.
  pose proof (row_answer_authenticated _ _ _ _ Hwf Hv) as Hrow.
  exists user, (auth_refresh_jwt settings now3 user).
  rewrite refresh_route_refresh_token, bool_decide_false, Hrow by lia.
  repeat split. simpl.
  by rewrite users_me_route_access_token, bool_decide_false, Hrow by lia.
Qed.

(** Every successful answer of
    [/auth/refresh/] holds an access token signed at the time of the request
    for the user the chain returned, and no refresh token: the refresh token
    presented stays the only one. *)
Lemma refresh_route_never_rotates now now' session authorization info :
  refresh_route settings now now' session authorization = Ok info →
  refresh_token info = None ∧
  ∃ tok user,
    OAuth2PasswordBearer_call token_empty oauth2_scheme authorization = Ok tok ∧
    depends_current_active_auth_user REFRESH_TOKEN_TYPE now session tok
      = Ok user ∧
    access_token info = create_access_token settings now' user.
Proof.
  rewrite refresh_route_eq. intros (tok & Ht & H)%bind_Ok_inv.
  destruct (depends_current_active_auth_user _ _ _ _) as [user|] eqn:Hu;
    [|done].
  injection H as <-. eauto 6.
Qed.

(** The refresh token of a
    login response does not open [/users/me/]: within its lifetime the answer
    is 401 "invalid token type 'refresh' expected 'access'". *)
Lemma login_refresh_token_refused_by_users_me now0 now1 now2 session
    authorization username password info rt :
  login_route settings now0 now1 session authorization username password
    = Ok info →
  refresh_token info = Some rt →
  now2 ≤ now1 + 86400 * refresh_token_expire_days settings →
  users_me_route now2 session (Some ("Bearer", rt)) =
  Err (http_error HTTP_401_UNAUTHORIZED
         "invalid token type 'refresh' expected 'access'").
Proof.
  intros (user & Hv & ->)%login_route_Ok [= <-] Hfresh.
  by rewrite users_me_route_refresh_token, bool_decide_false by lia.
Qed.


(** The cache of the framework does not
    change what [/users/me/] answers: resolving the payload once and sharing
    it gives the same answer, on every request, as resolving each dependency
    on its own at the same instant. *)
Lemma users_me_route_cache_equiv now session authorization :
  users_me_route now session authorization =
  users_me_route_uncached now session authorization.
Proof.
  rewrite users_me_route_eq. unfold users_me_route_uncached.
  rewrite http_bearer_bind.
  destruct (OAuth2PasswordBearer_call _ _ _) as [tok|]; [simpl|done].
  destruct (get_current_token_payload now tok) as [payload|]; [simpl|done].
  by destruct (depends_current_active_auth_user _ _ _ _).
Qed.

(** [/auth/login/] does not read the
    [Authorization] header: the router's [http_bearer] never refuses, so the
    answer is the same with any header or none. *)
Lemma login_ignores_authorization now now' session authorization
    authorization' username password :
  login_route settings now now' session authorization username password =
  login_route settings now now' session authorization' username password.
Proof. by rewrite !login_route_eq. Qed.

(** C40 [bearer_scheme_case_insensitive]: the scheme of the header is compared
    after lowering its case: any spelling of [bearer] is answered as
    [Bearer] is, and any other scheme is answered 401 "Not authenticated",
    whatever the token. *)
Theorem bearer_scheme_case_insensitive now session (scheme : string) tok :
  users_me_route now session (Some (scheme, tok)) =
  if bool_decide (str_lower scheme = "bearer")
  then users_me_route now session (Some ("Bearer", tok))
  else Err not_authenticated.
Proof.
  rewrite !users_me_route_eq. unfold OAuth2PasswordBearer_call. simpl.
  by case_bool_decide.
Qed.

End route_theorems.

(** ** The theorems at the demonstration table *)

(** The response to the login of the first row, the access token signed at
    1000 and the refresh token at 1001. *)
Definition demo_login : TokenInfo (token (JwtCodec := demo_codec)) :=
  auth_user_issue_jwt (codec := demo_codec) demo_settings 1000 1001 alice.

Lemma login_then_users_me_witness :
  ∃ user,
    validate_auth_user (hasher := symbolic_hasher) (store := list_store)
      "alice" "correct-pw" demo_rows = Ok user ∧
    users_me_route (codec := demo_codec) (store := list_store) 1500 demo_rows
      (Some ("Bearer", access_token demo_login)) = Ok (profile 1000 user).
Proof.
  apply (login_then_users_me (codec := demo_codec) (hasher := symbolic_hasher)
           (store := list_store) demo_settings 1000 1001 1500 demo_rows None
           "alice" "correct-pw" demo_login);
    [exact demo_rows_wf|reflexivity|simpl; lia].
Defined.

Lemma login_then_refresh_then_users_me_witness :
  ∃ user info',
    refresh_route (codec := demo_codec) (store := list_store) demo_settings
      90000 90001 demo_rows
      (Some ("Bearer", create_refresh_token (codec := demo_codec)
                         demo_settings 1001 alice)) = Ok info' ∧
    refresh_token info' = None ∧
    users_me_route (codec := demo_codec) (store := list_store) 90500 demo_rows
      (Some ("Bearer", access_token info')) = Ok (profile 90001 user).
Proof.
  apply (login_then_refresh_then_users_me (codec := demo_codec)
           (hasher := symbolic_hasher) (store := list_store) demo_settings
           1000 1001 90000 90001 90500 demo_rows None "alice" "correct-pw"
           demo_login);
    [exact demo_rows_wf|reflexivity|reflexivity|simpl; lia|simpl; lia].
Defined.

Lemma refresh_route_never_rotates_witness :
  refresh_token
    (auth_refresh_jwt (codec := demo_codec) demo_settings 90001 alice) = None ∧
  ∃ tok user,
    OAuth2PasswordBearer_call token_empty oauth2_scheme
      (Some ("bearer", create_refresh_token (codec := demo_codec)
                         demo_settings 1001 alice)) = Ok tok ∧
    depends_current_active_auth_user (codec := demo_codec)
      (store := list_store) REFRESH_TOKEN_TYPE 90000 demo_rows tok = Ok user ∧
    access_token
      (auth_refresh_jwt (codec := demo_codec) demo_settings 90001 alice) =
    create_access_token (codec := demo_codec) demo_settings 90001 user.
Proof.
  apply (refresh_route_never_rotates (codec := demo_codec)
           (store := list_store) demo_settings 90000 90001 demo_rows).
  reflexivity.
Defined.

Lemma login_refresh_token_refused_by_users_me_witness :
  users_me_route (codec := demo_codec) (store := list_store) 1500 demo_rows
    (Some ("Bearer", create_refresh_token (codec := demo_codec)
                       demo_settings 1001 alice)) =
  Err (http_error HTTP_401_UNAUTHORIZED
         "invalid token type 'refresh' expected 'access'").
Proof.
  apply (login_refresh_token_refused_by_users_me (codec := demo_codec)
           (hasher := symbolic_hasher) (store := list_store) demo_settings
           1000 1001 1500 demo_rows None "alice" "correct-pw" demo_login);
    [reflexivity|reflexivity|simpl; lia].
Defined.

(** The profile [/users/me/] gives for the access token of the first row,
    evaluated. *)
Example users_me_route_demo :
  users_me_route (codec := demo_codec) (store := list_store) 1500 demo_rows
    (Some ("BEARER", create_access_token (codec := demo_codec) demo_settings
                       1000 alice)) =
  Ok {[ "id" := PyInt 1; "email" := PyStr (email alice);
        "username" := PyStr "alice"; "logged_at_in" := PyInt 1000 ]}.
Proof. reflexivity. Qed.
