(* ===== verification/Programs.v ===== *)
(** The coroutines of the sources as programs.

    [Security] and [Routers] give each function of the sources as a function
    of the clock and the table it reads.  Here the same functions are
    programs that call their environment ([call]): a program reads the clock
    where the source reaches [datetime.utcnow()] (in [encode_jwt]) or the
    expiry check of [jwt.decode], and reads or writes the table where the
    source awaits the session ([await session.execute], [await session.get],
    [await create_user]).  Between two calls a program computes, and that
    part is the function of [Security] or [Routers] it stands for.

    The sources have no loop, so a program is a finite tree ([prog]): it
    returns, raises an [HTTPException], or makes a call and goes on with the
    answer.  [run_prog] answers each call from one instant and one table;
    [calls] lists the calls a run makes.

    The theorems say that [run_prog] of each program is the function of
    [Security] or [Routers] of the same name, and which calls each program
    makes: the table is read once by the credential gate whatever the
    credentials, and by the chain only once the token is decoded and of the
    kind required. *)

From stdpp Require Import base numbers strings gmap list.
From S2P Require Import Prelude PyData Http Codec UserStore UserCrud Fixtures.
From S2P Require Import CreateToken Security Routers.

Local Open Scope Z_scope.

(** ** Calls and programs *)

Section calls.
Context `{store : UserStore} `{crud : @UserCrud store}.

(** What a coroutine asks of its environment. *)
Inductive call : Type :=
  | UtcNow
      (** [datetime.utcnow()] in [encode_jwt]; the clock [jwt.decode]
          compares the expiry with. *)
  | Execute (username : string)
      (** [await session.execute(select(User).where(User.username ==
          username))], then [.scalars().first()]. *)
  | SessionGet (ident : pyval)
      (** [await session.get(User, ident)]. *)
  | CreateUser (user_in : UserSchema)
      (** [await create_user(session=session, user_in=user_in)]. *).

(** What the environment answers. *)
Definition call_ret (c : call) : Type :=
  match c with
  | UtcNow => Z
  | Execute _ | SessionGet _ => option User
  | CreateUser _ => http User
  end.

Inductive prog (A : Type) : Type :=
  | Return (a : A)
  | Raise (e : HTTPException)
  | Next (c : call) (k : call_ret c → prog A).

Arguments Return {A} a.
Arguments Raise {A} e.
Arguments Next {A} c k.

Fixpoint prog_bind {A B} (f : A → prog B) (p : prog A) : prog B :=
  match p with
  | Return a => f a
  | Raise e => Raise e
  | Next c k => Next c (λ x, prog_bind f (k x))
  end.

#[export] Instance prog_ret : MRet prog := @Return.
#[export] Instance prog_mbind : MBind prog := @prog_bind.

(** The calls that read the table. *)
Definition is_query (c : call) : bool :=
  match c with
  | Execute _ | SessionGet _ => true
  | UtcNow | CreateUser _ => false
  end.

(** The call that writes the table. *)
Definition is_write (c : call) : bool :=
  match c with
  | CreateUser _ => true
  | _ => false
  end.

(** A call, for its answer. *)
Definition perform (c : call) : prog (call_ret c) := Next c Return.

(** A function that returns or raises, as a program that makes no call. *)
Definition lift {A} (r : http A) : prog A :=
  match r with
  | Ok a => Return a
  | Err e => Raise e
  end.

(** ** One instant, one table *)

(** The answer to a call at the instant [now] on the table [session], and
    the table the call leaves. *)
Definition handle (now : Z) (session : db) (c : call) : call_ret c * db :=
  match c return call_ret c * db with
  | UtcNow => (now, session)
  | Execute username => (select_first_by_username session username, session)
  | SessionGet ident => (session_get session ident, session)
  | CreateUser user_in =>
      match create_user session user_in with
      | Ok (session', row) => (Ok row, session')
      | Err e => (Err e, session)
      end
  end.

(** The first call of a program answered: the program that is left, and the
    table.  A program that has returned or raised stays as it is. *)
Definition pstep {A} (now : Z) (session : db) (p : prog A) : prog A * db :=
  match p with
  | Next c k => let '(x, session') := handle now session c in (k x, session')
  | _ => (p, session)
  end.

(** Every call answered at the same instant. *)
Fixpoint run_prog {A} (now : Z) (session : db) (p : prog A) : http A * db :=
  match p with
  | Return a => (Ok a, session)
  | Raise e => (Err e, session)
  | Next c k =>
      let '(x, session') := handle now session c in run_prog now session' (k x)
  end.

(** The calls of that run, in order. *)
Fixpoint calls {A} (now : Z) (session : db) (p : prog A) : list call :=
  match p with
  | Next c k =>
      let '(x, session') := handle now session c in
      c :: calls now session' (k x)
  | _ => []
  end.

(** ** Laws *)

Lemma run_lift {A} now session (r : http A) :
  run_prog now session (lift r) = (r, session).
Proof. by destruct r. Qed.

Lemma calls_lift {A} now session (r : http A) : calls now session (lift r) = [].
Proof. by destruct r. Qed.

(** A run is its first call, then the run of what is left. *)
Lemma run_prog_pstep {A} now session (p : prog A) :
  run_prog now session p =
  run_prog now (pstep now session p).2 (pstep now session p).1.
Proof. destruct p as [a|e|c k]; [done..|]. simpl. by destruct (handle _ _ _). Qed.

Lemma run_bind {A B} now session (p : prog A) (f : A → prog B) :
  run_prog now session (p ≫= f) =
  match run_prog now session p with
  | (Ok a, session') => run_prog now session' (f a)
  | (Err e, session') => (Err e, session')
  end.
Proof.
  revert session. induction p as [a|e|c k IH]; intros session; [done..|].
  simpl. destruct (handle now session c) as [x session']. apply IH.
Qed.

Lemma calls_bind {A B} now session (p : prog A) (f : A → prog B) :
  calls now session (p ≫= f) =
  calls now session p ++
  match run_prog now session p with
  | (Ok a, session') => calls now session' (f a)
  | (Err _, _) => []
  end.
Proof.
  revert session. induction p as [a|e|c k IH]; intros session; [done..|].
  simpl. destruct (handle now session c) as [x session'].
  rewrite <-app_comm_cons. f_equal. apply IH.
Qed.

End calls.

Arguments Return {_ _ A} a.
Arguments Raise {_ _ A} e.
Arguments Next {_ _ A} c k.

(** ** The functions of the sources *)

Section programs.
Context `{codec : JwtCodec} `{hasher : PasswordHasher} `{store : UserStore}.
Context `{crud : @UserCrud store} (settings : AuthJWT).
Implicit Types (now : Z) (session : db) (payload : dict) (tok : token).
Implicit Types (user : User) (authorization : authorization_header (T := token)).

(** *** [security_dependencies.py] *)

(** [validate_auth_user]: the query is awaited, the checks follow. *)
Definition validate_auth_user_prog (username password : string) : prog User :=
  user ← perform (Execute username);
  match user with
  | None => Raise incorrect_credentials
  | Some user =>
      if negb (validate_password password (UserStore.password user))
      then Raise incorrect_credentials
      else if negb (active user) then Raise user_inactive
      else Return user
  end.

(** [get_current_token_payload]: [decode_jwt] reads the clock for the expiry
    check. *)
Definition get_current_token_payload_prog tok : prog dict :=
  now ← perform UtcNow;
  lift (get_current_token_payload now tok).

(** [get_user_by_token_sub]: the row is awaited. *)
Definition get_user_by_token_sub_prog payload : prog User :=
  let user_id := dict_get payload "sub" in
  user ← perform (SessionGet user_id);
  match user with
  | Some user => Return user
  | None => Raise user_not_found
  end.

(** [UserGetterFromToken.__call__]: the kind is checked before the row is
    awaited. *)
Definition UserGetterFromToken_call_prog (self : UserGetterFromToken)
    payload : prog User :=
  _ ← lift (validate_token_type payload (token_type self));
  get_user_by_token_sub_prog payload.

(** The dependency of the wrapper [get_current_active_auth_user] returns, on
    a payload the framework has resolved: the getter of that kind, then the
    wrapper. *)
Definition resolve_user_prog (token_type : string) payload : prog User :=
  user ← UserGetterFromToken_call_prog (mkUserGetterFromToken token_type)
            payload;
  lift (get_current_active_auth_user token_type user).

(** The chain the framework builds for [get_current_active_auth_user]. *)
Definition depends_current_active_auth_user_prog (token_type : string) tok :
    prog User :=
  payload ← get_current_token_payload_prog tok;
  resolve_user_prog token_type payload.

(** *** [create_token.py] *)

(** [create_access_token] and [create_refresh_token]: [encode_jwt] reads the
    clock for the issue time and the expiry. *)
Definition create_access_token_prog user : prog token :=
  now ← perform UtcNow;
  Return (create_access_token settings now user).

Definition create_refresh_token_prog user : prog token :=
  now ← perform UtcNow;
  Return (create_refresh_token settings now user).

(** *** [demo_jwt_auth.py] and [user_router.py] *)

Definition auth_user_issue_jwt_prog user : prog (TokenInfo token) :=
  access_token ← create_access_token_prog user;
  refresh_token ← create_refresh_token_prog user;
  Return (mkTokenInfo access_token (Some refresh_token)).

Definition auth_refresh_jwt_prog user : prog (TokenInfo token) :=
  access_token ← create_access_token_prog user;
  Return (mkTokenInfo access_token None).

Definition register_user_prog (user_in : UserSchema) : prog User :=
  r ← perform (CreateUser user_in);
  lift r.

(** The routes: the dependencies of the router and of the parameters, then
    the handler. *)
Definition login_prog authorization (username password : string) :
    prog (TokenInfo token) :=
  _ ← lift (HTTPBearer_call token_empty http_bearer authorization);
  user ← validate_auth_user_prog username password;
  auth_user_issue_jwt_prog user.

Definition refresh_prog authorization : prog (TokenInfo token) :=
  _ ← lift (HTTPBearer_call token_empty http_bearer authorization);
  tok ← lift (OAuth2PasswordBearer_call token_empty oauth2_scheme
                authorization);
  user ← depends_current_active_auth_user_prog REFRESH_TOKEN_TYPE tok;
  auth_refresh_jwt_prog user.

Definition users_me_prog authorization : prog dict :=
  _ ← lift (HTTPBearer_call token_empty http_bearer authorization);
  tok ← lift (OAuth2PasswordBearer_call token_empty oauth2_scheme
                authorization);
  payload ← get_current_token_payload_prog tok;
  user ← resolve_user_prog ACCESS_TOKEN_TYPE payload;
  Return (read_users_me payload user).

Definition register_prog authorization (user_in : UserSchema) : prog User :=
  _ ← lift (HTTPBearer_call token_empty http_bearer authorization);
  register_user_prog user_in.

(** ** Each program, run *)

Lemma run_validate_auth_user_prog now session username password :
  run_prog now session (validate_auth_user_prog username password) =
  (validate_auth_user username password session, session).
Proof.
  unfold validate_auth_user_prog, validate_auth_user. simpl.
  by repeat case_match.
Qed.

Lemma run_get_current_token_payload_prog now session tok :
  run_prog now session (get_current_token_payload_prog tok) =
  (get_current_token_payload now tok, session).
Proof. apply run_lift. Qed.

Lemma run_get_user_by_token_sub_prog now session payload :
  run_prog now session (get_user_by_token_sub_prog payload) =
  (get_user_by_token_sub payload session, session).
Proof.
  unfold get_user_by_token_sub_prog, get_user_by_token_sub. simpl.
  by case_match.
Qed.

Lemma run_UserGetterFromToken_call_prog now session self payload :
  run_prog now session (UserGetterFromToken_call_prog self payload) =
  (UserGetterFromToken_call self payload session, session).
Proof.
  unfold UserGetterFromToken_call_prog, UserGetterFromToken_call.
  rewrite run_bind, run_lift.
  destruct (validate_token_type _ _); [|done].
  apply run_get_user_by_token_sub_prog.
Qed.

Lemma run_resolve_user_prog now session token_type payload :
  run_prog now session (resolve_user_prog token_type payload) =
  (user ← UserGetterFromToken_call (mkUserGetterFromToken token_type) payload
             session;
   get_current_active_auth_user token_type user, session).
Proof.
  unfold resolve_user_prog.
  rewrite run_bind, run_UserGetterFromToken_call_prog.
  destruct (UserGetterFromToken_call _ _ _); [|done]. apply run_lift.
Qed.

Lemma run_depends_current_active_auth_user_prog now session token_type tok :
  run_prog now session (depends_current_active_auth_user_prog token_type tok) =
  (depends_current_active_auth_user token_type now session tok, session).
Proof.
  unfold depends_current_active_auth_user_prog,
    depends_current_active_auth_user, depends_UserGetterFromToken.
  rewrite run_bind, run_get_current_token_payload_prog.
  destruct (get_current_token_payload _ _) as [payload|]; [|done].
  apply run_resolve_user_prog.
Qed.

Lemma run_auth_user_issue_jwt_prog now session user :
  run_prog now session (auth_user_issue_jwt_prog user) =
  (Ok (auth_user_issue_jwt settings now now user), session).
Proof. done. Qed.

Lemma run_auth_refresh_jwt_prog now session user :
  run_prog now session (auth_refresh_jwt_prog user) =
  (Ok (auth_refresh_jwt settings now user), session).
Proof. done. Qed.

Lemma lift_http_bearer_bind {A} authorization (k : prog A) :
  (lift (HTTPBearer_call token_empty http_bearer authorization) ≫= λ _, k) = k.
Proof. by destruct (http_bearer_passes authorization) as [c ->]. Qed.

Lemma run_login_prog now session authorization username password :
  run_prog now session (login_prog authorization username password) =
  (login_route settings now now session authorization username password,
   session).
Proof.
  unfold login_prog. rewrite lift_http_bearer_bind, login_route_eq, run_bind,
    run_validate_auth_user_prog.
  by destruct (validate_auth_user _ _ _).
Qed.

Lemma run_refresh_prog now session authorization :
  run_prog now session (refresh_prog authorization) =
  (refresh_route settings now now session authorization, session).
Proof.
  unfold refresh_prog. rewrite lift_http_bearer_bind, refresh_route_eq,
    run_bind, run_lift.
  destruct (OAuth2PasswordBearer_call _ _ _) as [tok|]; [rewrite ?bind_Ok; cbv beta iota|done].
  rewrite run_bind, run_depends_current_active_auth_user_prog.
  by destruct (depends_current_active_auth_user _ _ _ _).
Qed.

Lemma run_users_me_prog now session authorization :
  run_prog now session (users_me_prog authorization) =
  (users_me_route now session authorization, session).
Proof.
  unfold users_me_prog, users_me_route.
  rewrite lift_http_bearer_bind, http_bearer_bind, run_bind, run_lift.
  destruct (OAuth2PasswordBearer_call _ _ _) as [tok|]; [rewrite ?bind_Ok; cbv beta iota|done].
  rewrite run_bind, run_get_current_token_payload_prog.
  destruct (get_current_token_payload _ _) as [payload|];
    [rewrite ?bind_Ok; cbv beta iota|done].
  rewrite run_bind, run_resolve_user_prog.
  destruct (UserGetterFromToken_call _ _ _) as [user|]; [simpl|done].
  by destruct (get_current_active_auth_user _ _).
Qed.

Lemma run_register_prog now session authorization user_in :
  run_prog now session (register_prog authorization user_in) =
  match register_route session authorization user_in with
  | Ok (session', row) => (Ok row, session')
  | Err e => (Err e, session)
  end.
Proof.
  unfold register_prog. rewrite lift_http_bearer_bind, register_route_eq.
  simpl. by destruct (create_user _ _) as [[session' row]|].
Qed.

(** ** The calls of each program *)

(** The credential gate reads the table once, by the submitted username,
    whatever the credentials and whatever the table holds: an unknown
    username, a wrong password and an inactive account are not told apart by
    the calls the gate makes. *)
Lemma gate_calls_uniform now session username password :
  calls now session (validate_auth_user_prog username password) =
  [Execute username].
Proof.
  unfold validate_auth_user_prog. simpl. by repeat case_match.
Qed.

Lemma calls_get_current_token_payload_prog now session tok :
  calls now session (get_current_token_payload_prog tok) = [UtcNow].
Proof. simpl. by rewrite calls_lift. Qed.

Lemma calls_auth_user_issue_jwt_prog now session user :
  calls now session (auth_user_issue_jwt_prog user) = [UtcNow; UtcNow].
Proof. done. Qed.

Lemma calls_auth_refresh_jwt_prog now session user :
  calls now session (auth_refresh_jwt_prog user) = [UtcNow].
Proof. done. Qed.

Lemma calls_register_user_prog now session user_in :
  calls now session (register_user_prog user_in) = [CreateUser user_in].
Proof.
  simpl. by destruct (create_user _ _) as [[session' row]|].
Qed.

(** The getter queries the table by the subject of the payload, once, and
    only for a payload of the kind required. *)
Lemma calls_resolve_user_prog now session token_type payload :
  calls now session (resolve_user_prog token_type payload) =
  if py_eq (dict_get payload TOKEN_TYPE_FIELD) (PyStr token_type)
  then [SessionGet (dict_get payload "sub")]
  else [].
Proof.
  unfold resolve_user_prog, UserGetterFromToken_call_prog,
    validate_token_type. simpl.
  destruct (py_eq _ _); [simpl|done]. f_equal.
  destruct (session_get _ _); [apply calls_lift|done].
Qed.

(** C13 [chain_reads_table_iff]: the validation chain reads the clock once, to
    decode the token, and reads the table only for a token that is decoded
    and of the kind required, once, by the subject of that token: a token
    that is refused for its signature, its expiry or its kind costs no
    query. *)
Theorem chain_reads_table_iff now session token_type tok :
  calls now session (depends_current_active_auth_user_prog token_type tok) =
  UtcNow ::
  match get_current_token_payload now tok with
  | Ok payload =>
      if py_eq (dict_get payload TOKEN_TYPE_FIELD) (PyStr token_type)
      then [SessionGet (dict_get payload "sub")]
      else []
  | Err _ => []
  end.
Proof.
  unfold depends_current_active_auth_user_prog. simpl. f_equal.
  destruct (get_current_token_payload now tok) as [payload|]; [|done].
  apply calls_resolve_user_prog.
Qed.

End programs.

(** The equations of [run_prog] and [calls], for [autorewrite], and the
    case analysis on what the calls answer. *)
Create Rewrite HintDb prog.
#[export] Hint Rewrite @run_lift @run_bind @calls_lift @calls_bind
  @lift_http_bearer_bind @run_validate_auth_user_prog
  @run_get_current_token_payload_prog @run_resolve_user_prog
  @run_auth_user_issue_jwt_prog @run_auth_refresh_jwt_prog
  @gate_calls_uniform @calls_get_current_token_payload_prog
  @calls_resolve_user_prog @calls_auth_user_issue_jwt_prog
  @calls_auth_refresh_jwt_prog @calls_register_user_prog : prog.

Ltac prog_cases :=
  autorewrite with prog;
  repeat (case_match; simplify_eq/=; autorewrite with prog).
