(* ===== verification/Wp.v ===== *)
(** Contracts of the programs, whatever the environment answers.

    [Programs.run_prog] answers every call of a program from one instant and
    one table.  Between two calls of a request the clock goes on and the
    table changes, so a contract that is to hold of the service has to hold
    for any answers.  [wp E p Q] says that the program [p] ends in a result
    that satisfies [Q] whatever the environment answers to its calls, as long
    as each answer is one the environment [E] permits.

    The laws are those of a weakest precondition ([wp_lift], [wp_perform],
    [wp_bind], [wp_seq], and [wp_mono] with its [Proper] instance);
    [wp_run_prog] and [wp_pstep] are its adequacy, for a whole run and for
    one call.  The environment [lawful] permits what
    a user table may answer (the laws of [UserStore]) and any reading of the
    clock.  Under it each function of the sources has its contract
    ([gate_post], [chain_post], [login_post], [refresh_post],
    [users_me_post]). *)

From stdpp Require Import base numbers strings gmap list.
From S2P Require Import Prelude PyData Http Codec UserStore UserCrud Fixtures.
From S2P Require Import CreateToken Security Routers Programs.

Local Open Scope Z_scope.

(** ** The predicate transformer *)

Section wp.
Context `{store : UserStore} `{crud : @UserCrud store}.

(** The answers an environment permits to a call. *)
Definition env : Type := ∀ c : call, call_ret c → Prop.

Fixpoint wp {A} (E : env) (p : prog A) (Q : http A → Prop) : Prop :=
  match p with
  | Return a => Q (Ok a)
  | Raise e => Q (Err e)
  | Next c k => ∀ x, E c x → wp E (k x) Q
  end.

(** What a user table may answer: a row selected by a username has that
    username, a row fetched by a key has that key.  The clock and the
    insertion answer anything. *)
Definition lawful : env := λ c,
  match c return call_ret c → Prop with
  | Execute name => λ r, ∀ u, r = Some u → username u = name
  | SessionGet ident => λ r, ∀ u, r = Some u → ident = PyInt (id u)
  | UtcNow | CreateUser _ => λ _, True
  end.

(** An environment that permits what [handle] answers, at every instant and
    on every table. *)
Definition permits_handle (E : env) : Prop :=
  ∀ now session c, E c (handle now session c).1.

(** ** Laws *)

Lemma wp_mono {A} (E E' : env) (p : prog A) (Q Q' : http A → Prop) :
  (∀ c x, E' c x → E c x) → (∀ r, Q r → Q' r) → wp E p Q → wp E' p Q'.
Proof.
  intros HE HQ. induction p as [a|e|c k IH]; simpl; [by auto..|].
  intros Hwp x Hx. by apply IH, Hwp, HE.
Qed.

#[export] Instance wp_proper {A} (E : env) (p : prog A) :
  Proper (pointwise_relation _ impl ==> impl) (wp E p).
Proof. intros Q Q' HQ Hwp. by eapply wp_mono. Qed.

Lemma wp_lift {A} (E : env) (r : http A) Q : wp E (lift r) Q ↔ Q r.
Proof. by destruct r. Qed.

Lemma wp_perform (E : env) c (Q : http (call_ret c) → Prop) :
  wp E (perform c) Q ↔ ∀ x, E c x → Q (Ok x).
Proof. done. Qed.

(** What is left of the postcondition after a program that is followed by
    [f]. *)
Definition then_wp {A B} (E : env) (f : A → prog B) (Q : http B → Prop)
    (r : http A) : Prop :=
  match r with
  | Ok a => wp E (f a) Q
  | Err e => Q (Err e)
  end.

Lemma wp_bind {A B} (E : env) (p : prog A) (f : A → prog B) Q :
  wp E (p ≫= f) Q ↔ wp E p (then_wp E f Q).
Proof.
  induction p as [a|e|c k IH]; [done..|]. simpl.
  split; intros Hwp x Hx; by apply IH, Hwp.
Qed.

(** The sequencing rule with an intermediate assertion. *)
Lemma wp_seq {A B} (E : env) (p : prog A) (f : A → prog B) R Q :
  wp E p R → (∀ r, R r → then_wp E f Q r) → wp E (p ≫= f) Q.
Proof. intros Hp HR. apply wp_bind. by eapply wp_mono. Qed.

(** ** Adequacy *)

Lemma lawful_permits_handle : permits_handle lawful.
Proof.
  intros now session [|name|ident|user_in]; simpl; [done| | |done].
  - apply select_first_by_username_Some.
  - apply session_get_Some.
Qed.

(** One call answered at any instant on any table keeps the contract. *)
Lemma wp_pstep {A} (E : env) now session (p : prog A) Q :
  permits_handle E → wp E p Q → wp E (pstep now session p).1 Q.
Proof.
  intros HE. destruct p as [a|e|c k]; [done..|]. simpl. intros Hwp.
  specialize (Hwp _ (HE now session c)).
  by destruct (handle now session c).
Qed.

(** A program that has no call left has its result. *)
Lemma wp_Return {A} (E : env) (a : A) Q : wp E (Return a) Q ↔ Q (Ok a).
Proof. done. Qed.

Lemma wp_run_prog {A} (E : env) now session (p : prog A) Q :
  permits_handle E → wp E p Q → Q (run_prog now session p).1.
Proof.
  intros HE. revert session.
  induction p as [a|e|c k IH]; intros session; [done..|]. simpl. intros Hwp.
  specialize (Hwp _ (HE now session c)).
  destruct (handle now session c) as [x session']. by apply IH.
Qed.

End wp.

(** ** The contracts of the functions of the sources *)

Section contracts.
Context `{codec : JwtCodec} `{hasher : PasswordHasher} `{store : UserStore}.
Context `{crud : @UserCrud store} (settings : AuthJWT).
Implicit Types (payload : dict) (tok : token) (user : User).
Implicit Types (authorization : authorization_header (T := token)).

(** The credential gate returns a row of the presented username whose stored
    hash verifies the presented password and that is active; it raises one
    of its two exceptions. *)
Definition gate_post (username password : string) (r : http User) : Prop :=
  match r with
  | Ok user =>
      UserStore.username user = username ∧
      validate_password password (UserStore.password user) = true ∧
      active user = true
  | Err e => e = incorrect_credentials ∨ e = user_inactive
  end.

(** The getter and the wrapper return an active row whose key is the subject
    of the payload, for a payload of the kind required. *)
Definition resolve_post (token_type : string) payload (r : http User) : Prop :=
  match r with
  | Ok user =>
      py_eq (dict_get payload TOKEN_TYPE_FIELD) (PyStr token_type) = true ∧
      dict_get payload "sub" = PyInt (id user) ∧ active user = true
  | Err e =>
      e = invalid_token_type (dict_get payload TOKEN_TYPE_FIELD) token_type ∨
      e = user_not_found ∨ e = inactive_user
  end.

(** The chain returns such a row for the payload the token decodes to at
    some reading of the clock. *)
Definition chain_post (token_type : string) tok (r : http User) : Prop :=
  match r with
  | Ok user =>
      ∃ now payload,
        get_current_token_payload now tok = Ok payload ∧
        resolve_post token_type payload (Ok user)
  | Err e =>
      e = invalid_token_error ∨
      ∃ now payload,
        get_current_token_payload now tok = Ok payload ∧
        resolve_post token_type payload (Err e)
  end.

(** The bearer token of a request. *)
Definition bearer_of authorization tok : Prop :=
  OAuth2PasswordBearer_call token_empty oauth2_scheme authorization = Ok tok.

(** A login answers with the two tokens of a user who passed the gate, each
    signed at a reading of the clock. *)
Definition login_post (username password : string)
    (r : http (TokenInfo token)) : Prop :=
  match r with
  | Ok info =>
      ∃ user now now',
        gate_post username password (Ok user) ∧
        info = auth_user_issue_jwt settings now now' user
  | Err e => gate_post username password (Err e)
  end.

(** A refresh answers with an access token, and no refresh token, of a user
    the chain returned for the bearer token of the request as a refresh
    token. *)
Definition refresh_post authorization (r : http (TokenInfo token)) : Prop :=
  match r with
  | Ok info =>
      ∃ tok user now,
        bearer_of authorization tok ∧
        chain_post REFRESH_TOKEN_TYPE tok (Ok user) ∧
        info = auth_refresh_jwt settings now user
  | Err e =>
      e = not_authenticated ∨
      ∃ tok, bearer_of authorization tok ∧
             chain_post REFRESH_TOKEN_TYPE tok (Err e)
  end.

(** The profile is that of a user the getter returned for the payload the
    bearer token of the request decodes to, as an access token. *)
Definition users_me_post authorization (r : http dict) : Prop :=
  match r with
  | Ok d =>
      ∃ tok now payload user,
        bearer_of authorization tok ∧
        get_current_token_payload now tok = Ok payload ∧
        resolve_post ACCESS_TOKEN_TYPE payload (Ok user) ∧
        d = read_users_me payload user
  | Err e =>
      e = not_authenticated ∨
      ∃ tok, bearer_of authorization tok ∧
             chain_post ACCESS_TOKEN_TYPE tok (Err e)
  end.

(** ** The programs meet their contracts *)

Lemma wp_validate_auth_user_prog username password :
  wp lawful (validate_auth_user_prog username password)
    (gate_post username password).
Proof.
  unfold validate_auth_user_prog. simpl. intros [user|] Hrow; [|by left].
  destruct (validate_password _ _) eqn:Hp; simpl; [|by left].
  destruct (active user) eqn:Ha; simpl; [|by right].
  split_and!; auto.
Qed.

Lemma wp_resolve_user_prog token_type payload :
  wp lawful (resolve_user_prog token_type payload)
    (resolve_post token_type payload).
Proof.
  unfold resolve_user_prog, UserGetterFromToken_call_prog, validate_token_type.
  simpl. destruct (py_eq _ _) eqn:Hk; simpl; [|by left].
  intros [user|] Hrow; simpl; [|by right; left].
  unfold get_current_active_auth_user.
  destruct (active user) eqn:Ha; simpl; [|by right; right].
  split_and!; auto.
Qed.

Lemma wp_get_current_token_payload_prog tok :
  wp lawful (get_current_token_payload_prog tok)
    (λ r, ∃ now, r = get_current_token_payload now tok).
Proof. intros now _. apply wp_lift. by exists now. Qed.

(** What follows the decoding of the token, at any reading of the clock. *)
Lemma wp_decoded {A} tok (f : dict → prog A) Q :
  (∀ now, then_wp lawful f Q (get_current_token_payload now tok)) →
  wp lawful (get_current_token_payload_prog tok ≫= f) Q.
Proof.
  intros H. eapply wp_seq; [apply wp_get_current_token_payload_prog|].
  by intros r [now ->].
Qed.

(** What follows the extraction of the bearer token by the two readers of
    the header. *)
Lemma wp_bearer {A} authorization (f : token → prog A) Q :
  then_wp lawful f Q
    (OAuth2PasswordBearer_call token_empty oauth2_scheme authorization) →
  wp lawful
    (_ ← lift (HTTPBearer_call token_empty http_bearer authorization);
     tok ← lift (OAuth2PasswordBearer_call token_empty oauth2_scheme
                   authorization);
     f tok) Q.
Proof. intros H. rewrite lift_http_bearer_bind. by apply wp_bind, wp_lift. Qed.

Lemma not_bearer_not_authenticated authorization e :
  OAuth2PasswordBearer_call token_empty oauth2_scheme authorization = Err e →
  e = not_authenticated.
Proof. apply OAuth2PasswordBearer_call_Err. Qed.

Lemma wp_chain token_type tok :
  wp lawful (depends_current_active_auth_user_prog token_type tok)
    (chain_post token_type tok).
Proof.
  apply wp_decoded. intros now.
  destruct (get_current_token_payload now tok) as [payload|e] eqn:Hd;
    unfold then_wp.
  - eapply wp_proper; [|apply wp_resolve_user_prog].
    intros [user|e] HR; simpl; eauto.
  - left. by apply get_current_token_payload_Err_inv in Hd as [-> _].
Qed.

Lemma wp_login_prog authorization username password :
  wp lawful (login_prog settings authorization username password)
    (login_post username password).
Proof.
  unfold login_prog. rewrite lift_http_bearer_bind.
  eapply wp_seq; [apply wp_validate_auth_user_prog|].
  intros [user|e] Hg; [|done]. intros now _ now' _. by exists user, now, now'.
Qed.

Lemma wp_refresh_prog authorization :
  wp lawful (refresh_prog settings authorization) (refresh_post authorization).
Proof.
  apply wp_bearer.
  destruct (OAuth2PasswordBearer_call _ _ _) as [tok|e] eqn:Hb;
    unfold then_wp; [|left; by eapply not_bearer_not_authenticated].
  eapply wp_seq; [apply wp_chain|].
  intros [user|e] Hc; simpl; [|by eauto].
  intros now _. by exists tok, user, now.
Qed.

Lemma wp_users_me_prog authorization :
  wp lawful (users_me_prog authorization) (users_me_post authorization).
Proof.
  apply wp_bearer.
  destruct (OAuth2PasswordBearer_call _ _ _) as [tok|e] eqn:Hb;
    unfold then_wp; [|left; by eapply not_bearer_not_authenticated].
  apply wp_decoded. intros now.
  destruct (get_current_token_payload now tok) as [payload|e] eqn:Hd;
    unfold then_wp.
  - eapply wp_seq; [apply wp_resolve_user_prog|].
    intros [user|e] HR; simpl; [by exists tok, now, payload, user|].
    right. exists tok. split; [done|]. right. by exists now, payload.
  - right. exists tok. split; [done|]. left.
    by apply get_current_token_payload_Err_inv in Hd as [-> _].
Qed.

(** C19 [chain_contract]: whatever the clock reads and whatever rows the table
    answers with, at each call, the validation chain returns only an active
    row whose key is the subject of the claims the token decodes to at the
    reading of the clock, these claims being of the kind required; and it
    raises only its four exceptions. *)
Theorem chain_contract token_type tok :
  wp lawful (depends_current_active_auth_user_prog token_type tok)
    (λ r, match r with
          | Ok user =>
              ∃ now payload,
                get_current_token_payload now tok = Ok payload ∧
                py_eq (dict_get payload TOKEN_TYPE_FIELD) (PyStr token_type)
                  = true ∧
                dict_get payload "sub" = PyInt (id user) ∧ active user = true
          | Err e =>
              e = invalid_token_error ∨ e = user_not_found ∨
              e = inactive_user ∨
              ∃ kind, e = invalid_token_type kind token_type
          end).
Proof.
  eapply wp_proper; [|apply wp_chain].
  intros [user|e]; simpl; [done|].
  intros [->|(now & payload & _ & [->|[->| ->]])]; eauto.
Qed.

End contracts.
