(* ===== verification/System.v ===== *)
(** The service as a whole: the three routes of [Routers] served one request
    at a time against a clock and a user table that change between requests.

    The state ([world]) is the clock, the table and the tokens the service
    has handed out so far.  A step serves a request ([serve], which calls the
    routes of [Routers]; a registration leaves the table [create_user]
    returns), lets time pass, or replaces the table (a deactivation, a
    deletion: every change made outside the routes).  All clock reads of one request see the same instant.

    Tokens are unforgeable: the bearer token of a request is one the service
    has issued, or one that does not verify ([presentable]).

    [step] is the relation, [exec] the function that computes the step of an
    input, [run] the function that computes the trace of a list of inputs;
    the lemmas here relate the three and state what every step keeps: the
    clock does not go back, no issued token is forgotten, the table stays
    well formed. *)

From stdpp Require Import base numbers strings gmap list.
From S2P Require Import Prelude PyData Http Codec UserStore UserCrud Fixtures.
From S2P Require Import CreateToken Security Routers.

Local Open Scope Z_scope.

(** ** Requests, responses, events *)

Section system.
Context `{codec : JwtCodec} `{hasher : PasswordHasher} `{store : UserStore}.
Context `{crud : @UserCrud store} (settings : AuthJWT).

Inductive request : Type :=
  | ReqLogin (authorization : authorization_header (T := token))
      (username password : string)
  | ReqRefresh (authorization : authorization_header (T := token))
  | ReqMe (authorization : authorization_header (T := token))
  | ReqRegister (authorization : authorization_header (T := token))
      (user_in : UserSchema).

Inductive response : Type :=
  | RespToken (r : http (TokenInfo token))
  | RespProfile (r : http dict)
  | RespUser (r : http User).

(** What drives the service: a request, [dt] seconds passing, a new table. *)
Inductive input : Type :=
  | InRequest (req : request)
  | InTick (dt : Z)
  | InTable (rows : db).

(** What an observer of the service sees: a request served at an instant with
    its response, and the changes of the environment. *)
Inductive event : Type :=
  | Served (now : Z) (req : request) (resp : response)
  | Tick (dt : Z)
  | Table (rows : db).

Record world : Type := mkWorld {
  clock : Z;
  table : db;
  issued : list token;
}.

Definition set_clock (now : Z) (w : world) : world :=
  mkWorld now (table w) (issued w).

Definition set_table (rows : db) (w : world) : world :=
  mkWorld (clock w) rows (issued w).

Definition authorization_of (req : request) :
    authorization_header (T := token) :=
  match req with
  | ReqLogin authorization _ _ => authorization
  | ReqRefresh authorization => authorization
  | ReqMe authorization => authorization
  | ReqRegister authorization _ => authorization
  end.

(** ** Serving a request *)

Definition tokens_of (info : TokenInfo token) : list token :=
  access_token info :: option_list (refresh_token info).

(** The tokens of a successful response become known. *)
Definition learn (r : http (TokenInfo token)) (w : world) : world :=
  match r with
  | Ok info => mkWorld (clock w) (table w) (tokens_of info ++ issued w)
  | Err _ => w
  end.

Definition serve (w : world) (req : request) : response * world :=
  let now := clock w in
  match req with
  | ReqLogin authorization username password =>
      let r := login_route settings now now (table w) authorization
                 username password in
      (RespToken r, learn r w)
  | ReqRefresh authorization =>
      let r := refresh_route settings now now (table w) authorization in
      (RespToken r, learn r w)
  | ReqMe authorization =>
      (RespProfile (users_me_route now (table w) authorization), w)
  | ReqRegister authorization user_in =>
      match register_route (table w) authorization user_in with
      | Ok (session, row) => (RespUser (Ok row), set_table session w)
      | Err e => (RespUser (Err e), w)
      end
  end.

(** Unforgeability: a token that verifies is one the service issued. *)
Definition known (w : world) (tok : token) : bool :=
  bool_decide (tok ∈ issued w) || bool_decide (jwt_verify tok = None).

Definition presentable (w : world) (req : request) : bool :=
  match authorization_of req with
  | None => true
  | Some (_, tok) => known w tok
  end.

(** ** Steps *)

Inductive step : world → event → world → Prop :=
  | step_serve w req :
      presentable w req = true →
      step w (Served (clock w) req (serve w req).1) (serve w req).2
  | step_tick w dt :
      0 ≤ dt → step w (Tick dt) (set_clock (clock w + dt) w)
  | step_table w rows :
      db_wf rows → step w (Table rows) (set_table rows w).

(** The step an input causes, when the input is admissible. *)
Definition exec (w : world) (i : input) : option (event * world) :=
  match i with
  | InRequest req =>
      if presentable w req
      then Some (Served (clock w) req (serve w req).1, (serve w req).2)
      else None
  | InTick dt =>
      if bool_decide (0 ≤ dt)
      then Some (Tick dt, set_clock (clock w + dt) w) else None
  | InTable rows =>
      if bool_decide (db_wf rows)
      then Some (Table rows, set_table rows w) else None
  end.

(** A run: the events of the inputs in turn, newest first, and the state
    they lead to; [None] when an input is not admissible. *)
Fixpoint run (w : world) (tr : list event) (inputs : list input) :
    option (list event * world) :=
  match inputs with
  | [] => Some (tr, w)
  | i :: inputs' =>
      match exec w i with
      | Some (ev, w') => run w' (ev :: tr) inputs'
      | None => None
      end
  end.

(** [trace w0 tr w]: the service gets from [w0] to [w] by the events [tr],
    newest first. *)
Inductive trace (w0 : world) : list event → world → Prop :=
  | trace_nil : trace w0 [] w0
  | trace_cons tr w ev w' :
      trace w0 tr w → step w ev w' → trace w0 (ev :: tr) w'.

Definition initial (w : world) : Prop :=
  issued w = [] ∧ db_wf (table w).

(** ** The executable step and the relation *)

Lemma exec_step w i ev w' : exec w i = Some (ev, w') → step w ev w'.
Proof.
  destruct i as [req|dt|rows]; unfold exec.
  - destruct (presentable w req) eqn:Hp; [|done].
    intros [= <- <-]. by apply step_serve.
  - case_bool_decide; [|done]. intros [= <- <-]. by apply step_tick.
  - case_bool_decide; [|done]. intros [= <- <-]. by apply step_table.
Qed.


Lemma step_served_inv w now req resp w' :
  step w (Served now req resp) w' →
  presentable w req = true ∧ now = clock w ∧
  resp = (serve w req).1 ∧ w' = (serve w req).2.
Proof. by inversion 1. Qed.

Lemma world_step_deterministic w ev w1 w2 : step w ev w1 → step w ev w2 → w1 = w2.
Proof. destruct 1; inversion 1; by simplify_eq. Qed.

Lemma run_trace w0 tr w inputs tr' w' :
  trace w0 tr w → run w tr inputs = Some (tr', w') → trace w0 tr' w'.
Proof.
  revert tr w. induction inputs as [|i inputs IH]; simpl; intros tr w Htr.
  - by intros [= <- <-].
  - destruct (exec w i) as [[ev w1]|] eqn:Hexec; [|done].
    apply IH. econstructor; [done|]. by eapply exec_step.
Qed.

(** ** What a step keeps *)

Lemma learn_clock r w : clock (learn r w) = clock w.
Proof. by destruct r. Qed.

Lemma learn_table r w : table (learn r w) = table w.
Proof. by destruct r. Qed.

Lemma learn_issued r w : issued w `suffix_of` issued (learn r w).
Proof. destruct r as [info|]; [by exists (tokens_of info)|done]. Qed.

Lemma serve_clock w req : clock (serve w req).2 = clock w.
Proof.
  destruct req; simpl; auto using learn_clock.
  by destruct (register_route _ _ _) as [[session row]|].
Qed.

Lemma serve_issued w req : issued w `suffix_of` issued (serve w req).2.
Proof.
  destruct req; simpl; auto using learn_issued.
  by destruct (register_route _ _ _) as [[session row]|].
Qed.

Lemma serve_table_wf w req : db_wf (table w) → db_wf (table (serve w req).2).
Proof.
  destruct req; simpl; rewrite ?learn_table; try done.
  rewrite register_route_eq.
  destruct (create_user _ _) as [[session row]|] eqn:Hc; simpl; [|done].
  intros Hwf. by eapply create_user_wf.
Qed.

Lemma step_clock w ev w' : step w ev w' → clock w ≤ clock w'.
Proof. destruct 1; rewrite ?serve_clock; simpl; lia. Qed.

Lemma step_issued w ev w' : step w ev w' → issued w `suffix_of` issued w'.
Proof. destruct 1; simpl; auto using serve_issued. Qed.

Lemma step_table_wf w ev w' : step w ev w' → db_wf (table w) → db_wf (table w').
Proof. destruct 1; simpl; auto using serve_table_wf. Qed.

Lemma trace_clock w0 tr w : trace w0 tr w → clock w0 ≤ clock w.
Proof.
  induction 1 as [|tr w ev w' _ IH Hstep]; [done|].
  apply step_clock in Hstep. lia.
Qed.

Lemma trace_issued w0 tr w : trace w0 tr w → issued w0 `suffix_of` issued w.
Proof.
  induction 1 as [|tr w ev w' _ IH Hstep]; [done|].
  etrans; [done|]. by eapply step_issued.
Qed.

Lemma trace_table_wf w0 tr w :
  trace w0 tr w → db_wf (table w0) → db_wf (table w).
Proof. induction 1; eauto using step_table_wf. Qed.

(** ** What a client sees of a run *)

(** The status line of a response: 200, or 201 for a registration, or the
    status and the detail of the exception. *)
Definition status_of (resp : response) : Z * string :=
  match resp with
  | RespToken (Ok _) | RespProfile (Ok _) => (200, "OK")
  | RespUser (Ok _) => (201, "Created")
  | RespToken (Err e) | RespProfile (Err e) | RespUser (Err e) =>
      (status_code e, detail e)
  end.

(** The status lines of the requests of a trace, oldest first. *)
Definition answers (tr : list event) : list (Z * string) :=
  omap (λ ev, match ev with
              | Served _ _ resp => Some (status_of resp)
              | _ => None
              end) (reverse tr).

(** ** Admissible inputs *)

Lemma known_issued w tok : tok ∈ issued w → known w tok = true.
Proof. intros. unfold known. by rewrite bool_decide_true. Qed.

(** A token that verifies and is known was issued. *)
Lemma known_verified w tok claims :
  known w tok = true → jwt_verify tok = Some claims → tok ∈ issued w.
Proof.
  unfold known. intros [H|H]%orb_prop Hv; apply bool_decide_eq_true in H;
    [done|congruence].
Qed.

Lemma exec_request w req :
  presentable w req = true →
  exec w (InRequest req) =
  Some (Served (clock w) req (serve w req).1, (serve w req).2).
Proof. simpl. by intros ->. Qed.

Lemma exec_tick w dt :
  0 ≤ dt → exec w (InTick dt) = Some (Tick dt, set_clock (clock w + dt) w).
Proof. intros. simpl. by rewrite bool_decide_true. Qed.

Lemma exec_table w rows :
  db_wf rows → exec w (InTable rows) = Some (Table rows, set_table rows w).
Proof. intros. simpl. by rewrite bool_decide_true. Qed.

Lemma step_exec w ev w' : step w ev w' → ∃ i, exec w i = Some (ev, w').
Proof.
  destruct 1 as [w req Hp|w dt Hdt|w rows Hwf];
    eauto using exec_request, exec_tick, exec_table.
Qed.

(** ** Runs and traces *)

Lemma run_app w tr inputs inputs' :
  run w tr (inputs ++ inputs') =
  run w tr inputs ≫= λ '(tr', w'), run w' tr' inputs'.
Proof.
  revert w tr. induction inputs as [|i inputs IH]; intros w tr; simpl; [done|].
  by destruct (exec w i) as [[ev w1]|].
Qed.

Lemma trace_run w0 tr w :
  trace w0 tr w → ∃ inputs, run w0 [] inputs = Some (tr, w).
Proof.
  induction 1 as [|tr w ev w' _ [inputs IH] [i Hi]%step_exec]; [by exists []|].
  exists (inputs ++ [i]). rewrite run_app, IH. simpl. by rewrite Hi.
Qed.

Lemma run_length w tr inputs tr' w' :
  run w tr inputs = Some (tr', w') → length tr' = (length inputs + length tr)%nat.
Proof.
  revert w tr. induction inputs as [|i inputs IH]; intros w tr; simpl.
  - by intros [= <- <-].
  - destruct (exec w i) as [[ev w1]|]; [|done].
    intros ->%IH. simpl. lia.
Qed.

(** The function [run] and the relation [trace] are the
    same semantics: the service gets from [w0] to [w] by the events [tr]
    exactly when [run] computes [tr] and [w] from some list of inputs. *)
Lemma run_iff_trace w0 tr w :
  trace w0 tr w ↔ ∃ inputs, run w0 [] inputs = Some (tr, w).
Proof.
  split; [apply trace_run|].
  intros [inputs Hrun]. eapply run_trace; [apply trace_nil|done].
Qed.

(** ** States that cannot be told apart *)

(** The list of issued tokens matters as a set: two states with the same
    clock and table and the same tokens issued, in any order and any number
    of times, admit the same requests and answer them alike. *)
Definition world_equiv (w w' : world) : Prop :=
  clock w = clock w' ∧ table w = table w' ∧
  ∀ tok, tok ∈ issued w ↔ tok ∈ issued w'.

#[export] Instance world_equiv_equivalence : Equivalence world_equiv.
Proof.
  split.
  - by intros w.
  - intros w w' (? & ? & H). split_and!; [done..|]. intros tok. by rewrite H.
  - intros w1 w2 w3 (? & ? & H) (? & ? & H'). split_and!; [congruence..|].
    intros tok. by rewrite H.
Qed.

#[export] Instance known_proper : Proper (world_equiv ==> eq ==> eq) known.
Proof.
  intros w w' (_ & _ & H) tok ? <-. unfold known. f_equal.
  apply bool_decide_ext, H.
Qed.

#[export] Instance presentable_proper :
  Proper (world_equiv ==> eq ==> eq) presentable.
Proof.
  intros w w' Hw req ? <-. unfold presentable.
  destruct (authorization_of req) as [[scheme tok]|]; [|done].
  by rewrite Hw.
Qed.

Lemma learn_equiv r w w' :
  world_equiv w w' → world_equiv (learn r w) (learn r w').
Proof.
  intros (? & ? & H). destruct r as [info|]; [|done].
  split_and!; [done..|]. intros tok. cbn [learn issued].
  rewrite !elem_of_app. by rewrite H.
Qed.

Lemma set_table_equiv rows w w' :
  world_equiv w w' → world_equiv (set_table rows w) (set_table rows w').
Proof. by intros (? & ? & H). Qed.

Lemma set_clock_equiv now w w' :
  world_equiv w w' → world_equiv (set_clock now w) (set_clock now w').
Proof. by intros (? & ? & H). Qed.

(** Serving a request in equivalent states gives the same response and
    equivalent states. *)
Lemma serve_equiv w w' req :
  world_equiv w w' →
  (serve w req).1 = (serve w' req).1 ∧
  world_equiv (serve w req).2 (serve w' req).2.
Proof.
  intros Hw. pose proof Hw as (Hc & Ht & _).
  destruct req; simpl; rewrite <-?Hc, <-?Ht; auto using learn_equiv.
  destruct (register_route _ _ _) as [[session row]|]; simpl;
    auto using set_table_equiv.
Qed.

(** Equivalence is a bisimulation for [step]. *)
Lemma step_world_equiv w1 w2 ev w1' :
  world_equiv w1 w2 → step w1 ev w1' →
  ∃ w2', step w2 ev w2' ∧ world_equiv w1' w2'.
Proof.
  intros Hw Hstep. destruct Hstep as [w1 req Hp|w1 dt Hdt|w1 rows Hwf].
  - destruct (serve_equiv _ _ req Hw) as [-> ?]. exists (serve w2 req).2.
    pose proof Hw as (-> & _). split; [|done].
    apply step_serve. by rewrite <-Hw.
  - exists (set_clock (clock w2 + dt) w2). pose proof Hw as (-> & _).
    split; [by constructor|by apply set_clock_equiv].
  - exists (set_table rows w2).
    split; [by constructor|by apply set_table_equiv].
Qed.

End system.
