(* ===== verification/Attacker.v ===== *)
(** The client that does not hold the server's key.

    [System], [Interleaving] and [Scheduler] admit a request when its bearer
    token is one the service has handed out or one that does not verify
    ([System.presentable]).  For the symbolic codec this is what a client can
    build who sees every token the service hands out, reads its claims and
    signs any claims under any key but the server's ([forgeable]): the
    requests the models admit are those of that client, no fewer and no
    more. *)

From stdpp Require Import base numbers strings gmap list.
From S2P Require Import Prelude PyData Http Codec UserStore UserCrud Fixtures.
From S2P Require Import CreateToken Security Routers System.

Local Open Scope Z_scope.

Section attacker.
Context (server_key : Z) `{hasher : PasswordHasher} `{store : UserStore}.

#[local] Instance attacked_codec : JwtCodec := symbolic_codec server_key.

Context `{crud : @UserCrud store} (settings : AuthJWT).

(** ** What the client can build *)

(** A token is one the client has seen, or claims of the client's choice
    under a key of the client's choice that is not the server's. *)
Inductive forgeable (seen : list stoken) : stoken → Prop :=
  | forgeable_seen tok : tok ∈ seen → forgeable seen tok
  | forgeable_signed key claims :
      key ≠ server_key → forgeable seen (SToken key claims).

(** A request the client can send to a service in the state [w]. *)
Definition sendable (w : world) (req : request) : Prop :=
  match authorization_of req with
  | Some (_, tok) => forgeable (issued w) tok
  | None => True
  end.

(** The service under attack: every request is one the client can send. *)
Inductive astep : world → event → world → Prop :=
  | astep_serve w req :
      sendable w req →
      astep w (Served (clock w) req (serve settings w req).1)
        (serve settings w req).2
  | astep_tick w dt :
      0 ≤ dt → astep w (Tick dt) (set_clock (clock w + dt) w)
  | astep_table w rows :
      db_wf rows → astep w (Table rows) (set_table rows w).

(** ** Lemmas *)

Lemma forgeable_mono seen seen' tok :
  seen ⊆ seen' → forgeable seen tok → forgeable seen' tok.
Proof.
  intros Hsub [tok' Hin|key claims Hk];
    [apply forgeable_seen; auto|by apply forgeable_signed].
Qed.

(** What the client builds and has not seen does not verify. *)
Lemma forgeable_verified seen tok claims :
  forgeable seen tok → jwt_verify tok = Some claims → tok ∈ seen.
Proof.
  intros [tok' Hin|key claims' Hk]; [done|].
  by intros [= ? _]%symbolic_verify_Some.
Qed.

Lemma forgeable_iff_known w tok :
  forgeable (issued w) tok ↔ known w tok = true.
Proof.
  unfold known. rewrite orb_true_iff, !bool_decide_eq_true. split.
  - intros [tok' Hin|key claims Hk]; [by left|right].
    simpl. unfold symbolic_verify. by rewrite bool_decide_false.
  - intros [Hin|Hv]; [by apply forgeable_seen|].
    destruct tok as [key claims]. apply forgeable_signed. intros ->.
    simpl in Hv. by rewrite symbolic_verify_sign in Hv.
Qed.

Lemma sendable_iff_presentable w req :
  sendable w req ↔ presentable w req = true.
Proof.
  unfold sendable, presentable.
  destruct (authorization_of req) as [[scheme tok]|]; [|done].
  apply forgeable_iff_known.
Qed.

(** The service under attack is the service of [System]. *)
Lemma astep_iff_step w ev w' : astep w ev w' ↔ step settings w ev w'.
Proof.
  split; intros [w1 req Hreq|w1 dt Hdt|w1 rows Hwf]; constructor;
    by try apply sendable_iff_presentable.
Qed.

End attacker.
