(* ===== verification/Safety.v ===== *)
(** Safety of the service of [System]: where issued tokens come from, and
    what a granted request implies.

    [logged tr i t] reads off a trace that a login of the user with key [i]
    succeeded at [t].  [provenance] is the invariant of the issued tokens:
    each is a refresh token signed at a login, or an access token signed
    within the refresh lifetime of a login of its subject.  From it, every
    profile served and every refresh granted is traced back to a login that
    passed the credential gate, and bounded in time by the lifetimes of the
    configuration. *)

From stdpp Require Import base numbers strings gmap list.
From S2P Require Import Prelude PyData Http Codec UserStore UserCrud Fixtures.
From S2P Require Import CreateToken Security Routers System.

Local Open Scope Z_scope.

Section safety.
Context `{codec : JwtCodec} `{hasher : PasswordHasher} `{store : UserStore}.
Context `{crud : @UserCrud store} (settings : AuthJWT).

(** ** What a trace says *)

(** A login of the user with key [i] succeeded at [now]. *)
Definition login_of (i now : Z) (ev : event) : Prop :=
  ∃ authorization username password user,
    id user = i ∧
    ev = Served now (ReqLogin authorization username password)
           (RespToken (Ok (auth_user_issue_jwt settings now now user))).

Definition logged (tr : list event) (i now : Z) : Prop :=
  ∃ ev, ev ∈ tr ∧ login_of i now ev.

(** Where an issued token comes from: an access token signed at [t] for a
    user who logged in at some [t0] with [t] within the refresh lifetime of
    [t0], or a refresh token signed at a login. *)
Definition provenance (tr : list event) (now : Z) (tok : token) : Prop :=
  (∃ t t0 user,
     tok = create_access_token settings t user ∧ t ≤ now ∧
     logged tr (id user) t0 ∧
     t0 ≤ t ≤ t0 + 86400 * refresh_token_expire_days settings) ∨
  (∃ t user,
     tok = create_refresh_token settings t user ∧ t ≤ now ∧
     logged tr (id user) t).

Definition issued_inv (tr : list event) (w : world) : Prop :=
  ∀ tok, tok ∈ issued w → provenance tr (clock w) tok.

(** Every token the service has handed out carries a well-formed claims set
    ([claims_wf]: a kind, an integer subject, issue not after expiry). *)
Definition issued_wf (w : world) : Prop :=
  ∀ tok, tok ∈ issued w → claims_wf <$> jwt_verify tok = Some true.

(** The inputs of one session: a login with a form, [dt] seconds passing, then
    the profile request that presents [tok] as its bearer token. *)
Definition session (username password : string) (dt : Z) (tok : token) :
    list input :=
  [InRequest (ReqLogin None username password); InTick dt;
   InRequest (ReqMe (Some ("Bearer", tok)))].

(** ** Provenance *)

Lemma logged_mono tr ev i now : logged tr i now → logged (ev :: tr) i now.
Proof. intros (ev' & ? & ?). exists ev'. split; [by right|done]. Qed.

Lemma provenance_mono tr ev now now' tok :
  now ≤ now' → provenance tr now tok → provenance (ev :: tr) now' tok.
Proof.
  intros Hle [(t & t0 & user & -> & ? & ? & ?)|(t & user & -> & ? & ?)];
    [left; exists t, t0, user|right; exists t, user];
    repeat split; auto using logged_mono with lia.
Qed.

(** The kind claim of an issued token tells which of the two it is. *)
Lemma provenance_access tr now tok claims :
  provenance tr now tok → jwt_verify tok = Some claims →
  claims !! TOKEN_TYPE_FIELD = Some (PyStr ACCESS_TOKEN_TYPE) →
  ∃ t t0 user,
    claims = access_claims settings t user ∧ t ≤ now ∧
    logged tr (id user) t0 ∧
    t0 ≤ t ≤ t0 + 86400 * refresh_token_expire_days settings.
Proof.
  intros [(t & t0 & user & -> & ? & ? & ?)|(t & user & -> & ? & ?)] Hv Ht.
  - rewrite jwt_verify_create_access_token in Hv. injection Hv as <-.
    by exists t, t0, user.
  - rewrite jwt_verify_create_refresh_token in Hv. apply (inj Some) in Hv.
    subst claims. by rewrite refresh_claims_type in Ht.
Qed.

Lemma provenance_refresh tr now tok claims :
  provenance tr now tok → jwt_verify tok = Some claims →
  claims !! TOKEN_TYPE_FIELD = Some (PyStr REFRESH_TOKEN_TYPE) →
  ∃ t user,
    claims = refresh_claims settings t user ∧ t ≤ now ∧
    logged tr (id user) t.
Proof.
  intros [(t & t0 & user & -> & ? & ? & ?)|(t & user & -> & ? & ?)] Hv Ht.
  - rewrite jwt_verify_create_access_token in Hv. apply (inj Some) in Hv.
    subst claims. by rewrite access_claims_type in Ht.
  - rewrite jwt_verify_create_refresh_token in Hv. apply (inj Some) in Hv.
    by exists t, user.
Qed.

(** ** Grants on known tokens *)

(** A grant of the chain for a known token: the token was issued, and its
    claims are those the chain read. *)
Lemma chain_grant_known tr w token_type tok user :
  issued_inv tr w → known w tok = true →
  depends_current_active_auth_user token_type (clock w) (table w) tok
    = Ok user →
  ∃ claims,
    provenance tr (clock w) tok ∧ decode_jwt (clock w) tok = Ok claims ∧
    claims !! TOKEN_TYPE_FIELD = Some (PyStr token_type) ∧
    claims !! "sub" = Some (PyInt (id user)) ∧
    session_get (table w) (PyInt (id user)) = Some user ∧ active user = true.
Proof.
  intros Hinv Hk (claims & Hd & ?)%chain_Ok_inv. exists claims.
  split; [|done]. apply Hinv.
  apply decode_jwt_Ok in Hd as [Hv _]. by eapply known_verified.
Qed.

Lemma decode_refresh_claims now tok t user :
  decode_jwt now tok = Ok (refresh_claims settings t user) →
  now ≤ t + 86400 * refresh_token_expire_days settings.
Proof.
  intros [_ [He|(e & He & ?)]]%decode_jwt_Ok;
    rewrite refresh_claims_exp in He; by simplify_eq.
Qed.

Lemma decode_access_claims now tok t user :
  decode_jwt now tok = Ok (access_claims settings t user) →
  now ≤ t + 60 * access_token_expire_minutes settings.
Proof.
  intros [_ [He|(e & He & ?)]]%decode_jwt_Ok;
    rewrite access_claims_exp in He; by simplify_eq.
Qed.

(** A grant of [/auth/refresh/]: the user is an active row who logged in at
    most the refresh lifetime ago. *)
Lemma refresh_grant tr w authorization info :
  issued_inv tr w → presentable w (ReqRefresh authorization) = true →
  refresh_route settings (clock w) (clock w) (table w) authorization
    = Ok info →
  ∃ user t0,
    info = auth_refresh_jwt settings (clock w) user ∧
    session_get (table w) (PyInt (id user)) = Some user ∧
    active user = true ∧ logged tr (id user) t0 ∧
    t0 ≤ clock w ≤ t0 + 86400 * refresh_token_expire_days settings.
Proof.
  intros Hinv Hp. rewrite refresh_route_eq.
  intros (tok & (scheme & -> & _)%OAuth2PasswordBearer_call_Ok
            & (user & Hc & ->)%fmap_Ok_inv)%bind_Ok_inv.
  destruct (chain_grant_known _ _ _ _ _ Hinv Hp Hc)
    as (claims & Hprov & Hd & Ht & Hs & Hg & Ha).
  pose proof Hd as [Hv _]%decode_jwt_Ok.
  destruct (provenance_refresh _ _ _ _ Hprov Hv Ht) as (t & u & -> & ? & Hl).
  apply decode_refresh_claims in Hd.
  rewrite refresh_claims_sub in Hs. injection Hs as Hid. rewrite Hid in Hl.
  exists user, t. repeat split; auto.
Qed.

(** A grant of [/users/me/]: the profile is that of an active row, with the
    time [t] the token was signed at; the user logged in at some [t0] at most
    the refresh lifetime before [t], and [t] is at most the access lifetime
    ago. *)
Lemma users_me_grant tr w authorization d :
  issued_inv tr w → presentable w (ReqMe authorization) = true →
  users_me_route (clock w) (table w) authorization = Ok d →
  ∃ user t t0,
    d = profile t user ∧
    session_get (table w) (PyInt (id user)) = Some user ∧
    active user = true ∧ logged tr (id user) t0 ∧
    t0 ≤ t ≤ t0 + 86400 * refresh_token_expire_days settings ∧
    t ≤ clock w ≤ t + 60 * access_token_expire_minutes settings.
Proof.
  intros Hinv Hp. rewrite users_me_route_eq.
  intros (tok & (scheme & -> & _)%OAuth2PasswordBearer_call_Ok
            & (payload & Hpay%get_current_token_payload_Ok
                 & (user & Hc & ->)%fmap_Ok_inv)%bind_Ok_inv)%bind_Ok_inv.
  destruct (chain_grant_known _ _ _ _ _ Hinv Hp Hc)
    as (claims & Hprov & Hd & Ht & Hs & Hg & Ha).
  assert (claims = payload) as -> by congruence.
  pose proof Hd as [Hv _]%decode_jwt_Ok.
  destruct (provenance_access _ _ _ _ Hprov Hv Ht)
    as (t & t0 & u & -> & ? & Hl & ?).
  apply decode_access_claims in Hd.
  rewrite access_claims_sub in Hs. injection Hs as Hid. rewrite Hid in Hl.
  exists user, t, t0. repeat split; auto; lia.
Qed.

(** ** The invariant *)

Section invariant.
Hypothesis refresh_lifetime_nonneg : 0 ≤ refresh_token_expire_days settings.

Lemma logged_here w authorization username password user tr :
  logged
    (Served (clock w) (ReqLogin authorization username password)
       (RespToken (Ok (auth_user_issue_jwt settings (clock w) (clock w) user)))
     :: tr) (id user) (clock w).
Proof.
  eexists. split; [by left|]. by exists authorization, username, password, user.
Qed.

Lemma serve_login_inv tr w authorization username password :
  issued_inv tr w →
  issued_inv
    (Served (clock w) (ReqLogin authorization username password)
       (serve settings w (ReqLogin authorization username password)).1 :: tr)
    (serve settings w (ReqLogin authorization username password)).2.
Proof.
  intros Hinv tok. simpl.
  destruct (login_route _ _ _ _ _ _ _) as [info|e] eqn:Hr; simpl;
    [|intros; eapply provenance_mono; [done|by apply Hinv]].
  apply login_route_Ok in Hr as (user & _ & ->).
  cbn [auth_user_issue_jwt access_token refresh_token option_list app].
  intros [->|[->|Hin]%elem_of_cons]%elem_of_cons;
    [left; exists (clock w), (clock w), user
    |right; exists (clock w), user
    |eapply provenance_mono; [done|by apply Hinv]];
    repeat split; auto using logged_here with lia.
Qed.

Lemma serve_refresh_inv tr w authorization :
  issued_inv tr w → presentable w (ReqRefresh authorization) = true →
  issued_inv
    (Served (clock w) (ReqRefresh authorization)
       (serve settings w (ReqRefresh authorization)).1 :: tr)
    (serve settings w (ReqRefresh authorization)).2.
Proof.
  intros Hinv Hp tok. simpl.
  destruct (refresh_route _ _ _ _ _) as [info|e] eqn:Hr; simpl;
    [|intros; eapply provenance_mono; [done|by apply Hinv]].
  destruct (refresh_grant _ _ _ _ Hinv Hp Hr)
    as (user & t0 & -> & _ & _ & Hl & ?).
  cbn [auth_refresh_jwt access_token refresh_token option_list app].
  intros [->|Hin]%elem_of_cons; [|eapply provenance_mono; [done|by apply Hinv]].
  left. exists (clock w), t0, user. repeat split; auto using logged_mono with lia.
Qed.

Lemma serve_register_inv tr w authorization user_in :
  issued_inv tr w →
  issued_inv
    (Served (clock w) (ReqRegister authorization user_in)
       (serve settings w (ReqRegister authorization user_in)).1 :: tr)
    (serve settings w (ReqRegister authorization user_in)).2.
Proof.
  intros Hinv tok. simpl.
  destruct (register_route _ _ _) as [[session row]|];
    intros; eapply provenance_mono; [done|by apply Hinv|done|by apply Hinv].
Qed.

Lemma step_issued_inv tr w ev w' :
  issued_inv tr w → step settings w ev w' → issued_inv (ev :: tr) w'.
Proof.
  intros Hinv Hstep.
  destruct Hstep as [w [a u p|a|a|a u] Hp|w dt Hdt|w rows Hwf].
  - by apply serve_login_inv.
  - by apply serve_refresh_inv.
  - intros tok Hin. eapply provenance_mono; [done|by apply Hinv].
  - by apply serve_register_inv.
  - intros tok Hin. eapply provenance_mono; [|by apply Hinv]. simpl. lia.
  - intros tok Hin. eapply provenance_mono; [done|by apply Hinv].
Qed.

Lemma trace_issued_inv w0 tr w :
  issued w0 = [] → trace settings w0 tr w → issued_inv tr w.
Proof.
  intros H0. induction 1 as [|tr w ev w' _ IH Hstep];
    [|by eapply step_issued_inv].
  intros tok. rewrite H0. by intros ?%elem_of_nil.
Qed.

End invariant.

(** ** Theorems: what a grant implies *)

Lemma profile_id now user : dict_get (profile now user) "id" = PyInt (id user).
Proof. done. Qed.

(** A profile served in a reachable state, with what [users_me_grant] says of
    it. *)
Lemma reachable_users_me_grant w0 tr w now authorization d w' :
  issued w0 = [] → 0 ≤ refresh_token_expire_days settings →
  trace settings w0 tr w →
  step settings w (Served now (ReqMe authorization) (RespProfile (Ok d))) w' →
  now = clock w ∧
  ∃ user t t0,
    d = profile t user ∧
    session_get (table w) (PyInt (id user)) = Some user ∧
    active user = true ∧ logged tr (id user) t0 ∧
    t0 ≤ t ≤ t0 + 86400 * refresh_token_expire_days settings ∧
    t ≤ clock w ≤ t + 60 * access_token_expire_minutes settings.
Proof.
  intros H0 HR Htr (Hp & -> & [= Hr] & _)%step_served_inv. split; [done|].
  eapply users_me_grant; eauto using trace_issued_inv.
Qed.

(** C2 [profile_served_traces_to_login]: when tokens cannot be forged, every
    profile [/users/me/] serves is that of a row of the table, active at that
    instant, whose key logged in earlier in the trace; the time shown in the
    profile is when the token was signed, between that login and the
    request. *)
Theorem profile_served_traces_to_login w0 tr w now authorization d w' :
  issued w0 = [] → 0 ≤ refresh_token_expire_days settings →
  trace settings w0 tr w →
  step settings w (Served now (ReqMe authorization) (RespProfile (Ok d))) w' →
  ∃ user t t0,
    d = profile t user ∧
    session_get (table w) (PyInt (id user)) = Some user ∧
    active user = true ∧ logged tr (id user) t0 ∧ t0 ≤ t ≤ now.
Proof.
  intros H0 HR Htr Hstep.
  destruct (reachable_users_me_grant _ _ _ _ _ _ _ H0 HR Htr Hstep)
    as (-> & user & t & t0 & ? & ? & ? & ? & ? & ?).
  exists user, t, t0. repeat split; auto; lia.
Qed.

(** C8 [session_lifetime_bound]: a profile is served at most the refresh
    lifetime plus the access lifetime after a login of its user: refreshing
    does not prolong a session past the expiry of its refresh token, however
    many access tokens are drawn from it. *)
Theorem session_lifetime_bound w0 tr w now authorization d w' :
  issued w0 = [] → 0 ≤ refresh_token_expire_days settings →
  trace settings w0 tr w →
  step settings w (Served now (ReqMe authorization) (RespProfile (Ok d))) w' →
  ∃ i t0,
    dict_get d "id" = PyInt i ∧ logged tr i t0 ∧
    t0 ≤ now ≤ t0 + 86400 * refresh_token_expire_days settings
                 + 60 * access_token_expire_minutes settings.
Proof.
  intros H0 HR Htr Hstep.
  destruct (reachable_users_me_grant _ _ _ _ _ _ _ H0 HR Htr Hstep)
    as (-> & user & t & t0 & -> & _ & _ & ? & ? & ?).
  exists (id user), t0. repeat split; auto using profile_id; lia.
Qed.

(** C7 [refresh_granted_traces_to_login]: when tokens cannot be forged, every
    access token [/auth/refresh/] hands out is signed at the instant of the
    request for a row of the table, active at that instant, whose key logged
    in at most the refresh lifetime earlier. *)
Theorem refresh_granted_traces_to_login w0 tr w now authorization info w' :
  issued w0 = [] → 0 ≤ refresh_token_expire_days settings →
  trace settings w0 tr w →
  step settings w (Served now (ReqRefresh authorization) (RespToken (Ok info)))
    w' →
  ∃ user t0,
    info = auth_refresh_jwt settings now user ∧
    session_get (table w) (PyInt (id user)) = Some user ∧
    active user = true ∧ logged tr (id user) t0 ∧
    t0 ≤ now ≤ t0 + 86400 * refresh_token_expire_days settings.
Proof.
  intros H0 HR Htr (Hp & -> & [= Hr] & _)%step_served_inv.
  pose proof (trace_issued_inv HR _ _ _ H0 Htr) as Hinv.
  exact (refresh_grant _ _ _ _ Hinv Hp (eq_sym Hr)).
Qed.

(** C25 [issued_tokens_trace_to_login]: in every state the service reaches,
    each token it has handed out verifies, was signed no later than the
    current instant, and has as subject a key that logged in before the token
    was signed. *)
Theorem issued_tokens_trace_to_login w0 tr w tok :
  issued w0 = [] → 0 ≤ refresh_token_expire_days settings →
  trace settings w0 tr w → tok ∈ issued w →
  ∃ claims i t t0,
    jwt_verify tok = Some claims ∧
    claims !! "sub" = Some (PyInt i) ∧ claims !! "iat" = Some (PyInt t) ∧
    t ≤ clock w ∧ logged tr i t0 ∧ t0 ≤ t.
Proof.
  intros H0 HR Htr Hin.
  destruct (trace_issued_inv HR _ _ _ H0 Htr tok Hin)
    as [(t & t0 & user & -> & ? & ? & ?)|(t & user & -> & ? & ?)].
  - exists (access_claims settings t user), (id user), t, t0.
    rewrite jwt_verify_create_access_token. repeat split; auto; lia.
  - exists (refresh_claims settings t user), (id user), t, t.
    rewrite jwt_verify_create_refresh_token. repeat split; auto; lia.
Qed.

(** A successful login in a trace was served by the
    credential gate: the service was then in a state reached by an earlier
    part of the trace, at that instant, in which the table held a user with
    that key under the presented username, active, and the presented password
    verified against the stored hash. *)
Lemma login_passed_gate w0 tr w i now :
  trace settings w0 tr w → logged tr i now →
  ∃ tr1 w1 username password user,
    trace settings w0 tr1 w1 ∧ clock w1 = now ∧ id user = i ∧
    validate_auth_user username password (table w1) = Ok user.
Proof.
  induction 1 as [|tr w ev w' Htr IH Hstep];
    intros (ev' & Hin & a & u & p & user & Hid & ->).
  { by apply elem_of_nil in Hin. }
  apply elem_of_cons in Hin as [<-|Hin];
    [|apply IH; exists (Served now (ReqLogin a u p)
        (RespToken (Ok (auth_user_issue_jwt settings now now user))));
      split; [done|by exists a, u, p, user]].
  apply step_served_inv in Hstep as (_ & -> & [= Hr] & _). symmetry in Hr.
  apply login_route_Ok in Hr as (user' & Hv & Heq).
  apply (f_equal access_token), create_access_token_sub in Heq.
  exists tr, w, u, p, user'. repeat split; [done|congruence|done].
Qed.

(** C31 [issued_claims_well_formed]: with lifetimes that are not negative,
    every token the service has handed out carries a well-formed claims set:
    its kind is one of the two, its subject an integer, and its issue and
    expiry are integers with the issue not after the expiry. *)
Theorem issued_claims_well_formed w0 tr w :
  issued w0 = [] →
  0 ≤ refresh_token_expire_days settings →
  0 ≤ access_token_expire_minutes settings →
  trace settings w0 tr w → issued_wf w.
Proof.
  intros H0 HR HA Htr tok Hin.
  destruct (trace_issued_inv HR _ _ _ H0 Htr tok Hin)
    as [(t & t0 & user & -> & _)|(t & user & -> & _)].
  - rewrite jwt_verify_create_access_token. simpl.
    by rewrite access_claims_wf.
  - rewrite jwt_verify_create_refresh_token. simpl.
    by rewrite refresh_claims_wf.
Qed.

(** ** Theorems: a session can be had *)

(** C28 [session_obtainable]: in every state the service reaches, a user whose
    credentials pass the gate gets a session: the login is answered with
    tokens, and the access token, presented within its lifetime, is answered
    with the profile of that user. *)
Theorem session_obtainable w0 tr w username password user dt :
  db_wf (table w0) → trace settings w0 tr w →
  validate_auth_user username password (table w) = Ok user →
  0 ≤ dt ≤ 60 * access_token_expire_minutes settings →
  ∃ w',
    run settings w tr
      (session username password dt
         (create_access_token settings (clock w) user)) =
    Some (Served (clock w + dt)
            (ReqMe (Some ("Bearer",
                      create_access_token settings (clock w) user)))
            (RespProfile (Ok (profile (clock w) user)))
          :: Tick dt
          :: Served (clock w) (ReqLogin None username password)
               (RespToken (Ok (auth_user_issue_jwt settings (clock w) (clock w)
                                 user)))
          :: tr, w').
Proof.
  intros Hwf0 Htr Hv [Hdt Hfresh].
  pose proof (trace_table_wf _ _ _ _ Htr Hwf0) as Hwf.
  pose proof (row_answer_authenticated _ _ _ _ Hwf Hv) as Hrow.
  eexists. unfold run, session.
  rewrite exec_request by done. cbn [serve fst snd].
  rewrite login_route_eq, Hv. cbn [fmap result_fmap learn].
  rewrite exec_tick by done.
  rewrite exec_request by (by apply known_issued; left).
  cbn [serve fst snd set_clock clock table].
  rewrite users_me_route_access_token, bool_decide_false, Hrow by lia. done.
Qed.

End safety.

(** ** The theorems at the demonstration table *)

(** The first row logs in at 1000; 500 seconds later the access token is
    presented to [/users/me/]. *)
Definition demo_w0 : world (codec := demo_codec) (store := list_store) :=
  mkWorld (codec := demo_codec) (store := list_store) 1000 demo_rows [].

Definition demo_info : TokenInfo (token (JwtCodec := demo_codec)) :=
  auth_user_issue_jwt (codec := demo_codec) demo_settings 1000 1000 alice.

Definition demo_inputs :
    list (input (codec := demo_codec) (crud := demo_crud)) :=
  [InRequest (ReqLogin None "alice" "correct-pw"); InTick 500].

Definition demo_tr :
    list (event (codec := demo_codec) (crud := demo_crud)) :=
  [Tick 500;
   Served 1000 (ReqLogin None "alice" "correct-pw") (RespToken (Ok demo_info))].

Definition demo_w : world (codec := demo_codec) (store := list_store) :=
  mkWorld (codec := demo_codec) (store := list_store) 1500 demo_rows
    (tokens_of demo_info).

Definition demo_bearer (tok : token (JwtCodec := demo_codec)) :
    authorization_header (T := token (JwtCodec := demo_codec)) :=
  Some ("Bearer", tok).

Lemma demo_trace :
  trace (hasher := symbolic_hasher) (crud := demo_crud) demo_settings demo_w0 demo_tr demo_w.
Proof.
  apply (run_trace (hasher := symbolic_hasher) (crud := demo_crud) demo_settings demo_w0 []
           demo_w0 demo_inputs); [constructor|reflexivity].
Qed.

Lemma demo_step_me :
  step (hasher := symbolic_hasher) (crud := demo_crud) demo_settings demo_w
    (Served 1500 (ReqMe (demo_bearer (access_token demo_info)))
       (RespProfile (Ok (profile 1000 alice)))) demo_w.
Proof.
  exact (step_serve (hasher := symbolic_hasher) (crud := demo_crud) demo_settings demo_w
           (ReqMe (demo_bearer (access_token demo_info))) eq_refl).
Qed.

Lemma demo_step_refresh :
  step (hasher := symbolic_hasher) (crud := demo_crud) demo_settings demo_w
    (Served 1500
       (ReqRefresh (demo_bearer (create_refresh_token (codec := demo_codec)
                                   demo_settings 1000 alice)))
       (RespToken (Ok (auth_refresh_jwt (codec := demo_codec) demo_settings
                         1500 alice))))
    (learn (Ok (auth_refresh_jwt (codec := demo_codec) demo_settings 1500
                  alice)) demo_w).
Proof.
  exact (step_serve (hasher := symbolic_hasher) (crud := demo_crud) demo_settings demo_w
           (ReqRefresh (demo_bearer (create_refresh_token (codec := demo_codec)
                                       demo_settings 1000 alice))) eq_refl).
Qed.

Lemma profile_served_traces_to_login_witness :
  ∃ user t t0,
    profile 1000 alice = profile t user ∧
    session_get (UserStore := list_store) demo_rows (PyInt (id user))
      = Some user ∧
    active user = true ∧ logged demo_settings demo_tr (id user) t0 ∧
    t0 ≤ t ≤ 1500.
Proof.
  apply (profile_served_traces_to_login (hasher := symbolic_hasher) (crud := demo_crud)
           demo_settings demo_w0 demo_tr demo_w 1500
           (demo_bearer (access_token demo_info)) (profile 1000 alice) demo_w);
    [reflexivity|simpl; lia|exact demo_trace|exact demo_step_me].
Defined.

Lemma session_lifetime_bound_witness :
  ∃ i t0,
    dict_get (profile 1000 alice) "id" = PyInt i ∧
    logged demo_settings demo_tr i t0 ∧
    t0 ≤ 1500 ≤ t0 + 86400 * refresh_token_expire_days demo_settings
                  + 60 * access_token_expire_minutes demo_settings.
Proof.
  apply (session_lifetime_bound (hasher := symbolic_hasher) (crud := demo_crud) demo_settings
           demo_w0 demo_tr demo_w 1500 (demo_bearer (access_token demo_info))
           (profile 1000 alice) demo_w);
    [reflexivity|simpl; lia|exact demo_trace|exact demo_step_me].
Defined.

Lemma refresh_granted_traces_to_login_witness :
  ∃ user t0,
    auth_refresh_jwt (codec := demo_codec) demo_settings 1500 alice =
    auth_refresh_jwt demo_settings 1500 user ∧
    session_get (UserStore := list_store) demo_rows (PyInt (id user))
      = Some user ∧
    active user = true ∧ logged demo_settings demo_tr (id user) t0 ∧
    t0 ≤ 1500 ≤ t0 + 86400 * refresh_token_expire_days demo_settings.
Proof.
  apply (refresh_granted_traces_to_login (hasher := symbolic_hasher) (crud := demo_crud)
           demo_settings demo_w0 demo_tr demo_w 1500
           (demo_bearer (create_refresh_token (codec := demo_codec)
                           demo_settings 1000 alice))
           (auth_refresh_jwt (codec := demo_codec) demo_settings 1500 alice)
           (learn (Ok (auth_refresh_jwt (codec := demo_codec) demo_settings
                         1500 alice)) demo_w));
    [reflexivity|simpl; lia|exact demo_trace|exact demo_step_refresh].
Defined.

Lemma issued_tokens_trace_to_login_witness :
  ∃ claims i t t0,
    jwt_verify (access_token demo_info) = Some claims ∧
    claims !! "sub" = Some (PyInt i) ∧ claims !! "iat" = Some (PyInt t) ∧
    t ≤ 1500 ∧ logged demo_settings demo_tr i t0 ∧ t0 ≤ t.
Proof.
  apply (issued_tokens_trace_to_login (hasher := symbolic_hasher) (crud := demo_crud)
           demo_settings demo_w0 demo_tr demo_w (access_token demo_info));
    [reflexivity|simpl; lia|exact demo_trace|by left].
Defined.

Lemma login_passed_gate_witness :
  ∃ tr1 w1 username password user,
    trace (hasher := symbolic_hasher) (crud := demo_crud) demo_settings demo_w0 tr1 w1 ∧
    clock w1 = 1000 ∧ id user = 1 ∧
    validate_auth_user (hasher := symbolic_hasher) username password
      (table w1) = Ok user.
Proof.
  apply (login_passed_gate (hasher := symbolic_hasher) (crud := demo_crud) demo_settings demo_w0
           demo_tr demo_w 1 1000); [exact demo_trace|].
  exists (Served 1000 (ReqLogin None "alice" "correct-pw")
            (RespToken (Ok demo_info))).
  split; [by right; left|]. by exists None, "alice", "correct-pw", alice.
Defined.

Lemma session_obtainable_witness :
  ∃ w',
    run (hasher := symbolic_hasher) (crud := demo_crud) demo_settings demo_w demo_tr
      (session (crud := demo_crud) "alice" "correct-pw" 600
         (create_access_token demo_settings 1500 alice)) =
    Some (Served (1500 + 600)
            (ReqMe (Some ("Bearer",
                      create_access_token demo_settings 1500 alice)))
            (RespProfile (Ok (profile 1500 alice)))
          :: Tick 600
          :: Served 1500 (ReqLogin None "alice" "correct-pw")
               (RespToken (Ok (auth_user_issue_jwt demo_settings 1500 1500
                                 alice)))
          :: demo_tr, w').
Proof.
  apply (session_obtainable (hasher := symbolic_hasher) (crud := demo_crud) demo_settings demo_w0
           demo_tr demo_w "alice" "correct-pw" alice 600);
    [exact demo_rows_wf|exact demo_trace|reflexivity|simpl; lia].
Defined.

Lemma issued_claims_well_formed_witness : issued_wf demo_w.
Proof.
  apply (issued_claims_well_formed (hasher := symbolic_hasher) (crud := demo_crud) demo_settings
           demo_w0 demo_tr demo_w);
    [reflexivity|simpl; lia|simpl; lia|exact demo_trace].
Defined.
