(* ===== verification/Interleaving.v ===== *)
(** The service with requests in flight.

    The dependencies are coroutines and a handler runs after them: between
    two reads of the clock or the table by one request, other requests are
    served, time passes and the table changes.  Here a request advances by phases ([phase]), each phase being
    the code of its route from one read of shared state to the next:

    - [/auth/login/]: the credential gate (reads the table), then
      [create_access_token] (reads the clock), then [create_refresh_token]
      (reads the clock again);
    - [/auth/refresh/]: the decoding of the bearer token (reads the clock),
      then the kind check, the lookup and the liveness check (reads the
      table), then [create_access_token] (reads the clock);
    - [/users/me/]: the decoding (reads the clock), then the kind check, the
      lookup, the liveness check and the handler (reads the table);
    - [/auth/register/]: [create_user] (writes the table).

    The state is a [world] of [System] with the list of the requests in
    flight.  A request that arrives carries a token that is known at that
    moment.  The theorems are those of [Safety] without the assumption that
    a request sees one instant and one table, and the simulation of the
    atomic service of [System] by this one. *)

From stdpp Require Import base numbers strings gmap list.
From S2P Require Import Prelude PyData Http Codec UserStore UserCrud Fixtures.
From S2P Require Import CreateToken Security Routers System.

Local Open Scope Z_scope.

Section interleaving.
Context `{codec : JwtCodec} `{hasher : PasswordHasher} `{store : UserStore}.
Context `{crud : @UserCrud store} (settings : AuthJWT).

(** ** Requests in flight *)

(** How far a request has got, with what it holds in its local variables. *)
Inductive phase : Type :=
  | Arrived
  | Gated (user : User)
  | HalfIssued (user : User) (access : token)
  | Decoded (payload : dict)
  | Resolved (user : User)
  | Answered (resp : response).

Record flight : Type := mkFlight {
  flight_req : request;
  flight_phase : phase;
}.

(** What a phase leaves: the next phase, the tokens it signed for the
    response, the table it wrote. *)
Record effect : Type := mkEffect {
  eff_phase : phase;
  eff_tokens : list token;
  eff_table : option db;
}.

Definition quiet (ph : phase) : effect := mkEffect ph [] None.

(** An exception ends the request with the error response. *)
Definition or_answer {A B} (wrap : http A → response) (r : http B)
    (k : B → effect) : effect :=
  match r with
  | Ok b => k b
  | Err e => quiet (Answered (wrap (Err e)))
  end.

(** The bearer token of the request, decoded. *)
Definition decode_bearer (now : Z)
    (authorization : authorization_header (T := token)) : http dict :=
  _ ← HTTPBearer_call token_empty http_bearer authorization;
  tok ← OAuth2PasswordBearer_call token_empty oauth2_scheme authorization;
  get_current_token_payload now tok.

(** The user of a decoded payload, of the kind the route requires. *)
Definition resolve_user (token_type : string) (session : db) (payload : dict) :
    http User :=
  user ← UserGetterFromToken_call (mkUserGetterFromToken token_type) payload
            session;
  get_current_active_auth_user token_type user.

(** One phase of a request, at the clock and the table of the moment. *)
Definition advance (now : Z) (session : db) (req : request) (ph : phase) :
    option effect :=
  match req, ph with
  | ReqLogin authorization username password, Arrived =>
      Some (or_answer RespToken
              (_ ← HTTPBearer_call token_empty http_bearer authorization;
               validate_auth_user username password session)
              (λ user, quiet (Gated user)))
  | ReqLogin _ _ _, Gated user =>
      Some (quiet (HalfIssued user (create_access_token settings now user)))
  | ReqLogin _ _ _, HalfIssued user access =>
      let refresh := create_refresh_token settings now user in
      Some (mkEffect
              (Answered (RespToken (Ok (mkTokenInfo access (Some refresh)))))
              [access; refresh] None)
  | ReqRefresh authorization, Arrived =>
      Some (or_answer RespToken (decode_bearer now authorization)
              (λ payload, quiet (Decoded payload)))
  | ReqRefresh _, Decoded payload =>
      Some (or_answer RespToken
              (resolve_user REFRESH_TOKEN_TYPE session payload)
              (λ user, quiet (Resolved user)))
  | ReqRefresh _, Resolved user =>
      let info := auth_refresh_jwt settings now user in
      Some (mkEffect (Answered (RespToken (Ok info))) (tokens_of info) None)
  | ReqMe authorization, Arrived =>
      Some (or_answer RespProfile (decode_bearer now authorization)
              (λ payload, quiet (Decoded payload)))
  | ReqMe _, Decoded payload =>
      Some (quiet (Answered (RespProfile
              (read_users_me payload <$>
                 resolve_user ACCESS_TOKEN_TYPE session payload))))
  | ReqRegister authorization user_in, Arrived =>
      Some (match register_route session authorization user_in with
            | Ok (session', row) =>
                mkEffect (Answered (RespUser (Ok row))) [] (Some session')
            | Err e => quiet (Answered (RespUser (Err e)))
            end)
  | _, _ => None
  end.

(** ** The state and its steps *)

Record iworld : Type := mkIWorld {
  base : world;
  flights : list flight;
}.

Definition apply_effect (eff : effect) (w : world) : world :=
  mkWorld (clock w) (default (table w) (eff_table eff))
    (eff_tokens eff ++ issued w).

(** The response, when the phase reached is the last. *)
Definition observe (now : Z) (req : request) (ph : phase) : option event :=
  match ph with
  | Answered resp => Some (Served now req resp)
  | _ => None
  end.

Inductive iinput : Type :=
  | IArrive (req : request)
  | IAdvance (k : nat)
  | ITick (dt : Z)
  | ITable (rows : db).

Inductive istep : iworld → option event → iworld → Prop :=
  | istep_arrive w req :
      presentable (base w) req = true →
      istep w None (mkIWorld (base w) (flights w ++ [mkFlight req Arrived]))
  | istep_advance w k f eff :
      flights w !! k = Some f →
      advance (clock (base w)) (table (base w)) (flight_req f)
        (flight_phase f) = Some eff →
      istep w (observe (clock (base w)) (flight_req f) (eff_phase eff))
        (mkIWorld (apply_effect eff (base w))
           (<[k := mkFlight (flight_req f) (eff_phase eff)]> (flights w)))
  | istep_tick w dt :
      0 ≤ dt →
      istep w (Some (Tick dt))
        (mkIWorld (set_clock (clock (base w) + dt) (base w)) (flights w))
  | istep_table w rows :
      db_wf rows →
      istep w (Some (Table rows))
        (mkIWorld (set_table rows (base w)) (flights w)).

Definition iexec (w : iworld) (i : iinput) : option (option event * iworld) :=
  match i with
  | IArrive req =>
      if presentable (base w) req
      then Some (None,
                 mkIWorld (base w) (flights w ++ [mkFlight req Arrived]))
      else None
  | IAdvance k =>
      f ← flights w !! k;
      eff ← advance (clock (base w)) (table (base w)) (flight_req f)
               (flight_phase f);
      Some (observe (clock (base w)) (flight_req f) (eff_phase eff),
            mkIWorld (apply_effect eff (base w))
              (<[k := mkFlight (flight_req f) (eff_phase eff)]> (flights w)))
  | ITick dt =>
      if bool_decide (0 ≤ dt)
      then Some (Some (Tick dt),
                 mkIWorld (set_clock (clock (base w) + dt) (base w))
                   (flights w))
      else None
  | ITable rows =>
      if bool_decide (db_wf rows)
      then Some (Some (Table rows),
                 mkIWorld (set_table rows (base w)) (flights w))
      else None
  end.

(** The events seen so far, newest first: a step that answers no request
    adds none. *)
Definition record (ev : option event) (tr : list event) : list event :=
  option_list ev ++ tr.

Fixpoint irun (w : iworld) (tr : list event) (inputs : list iinput) :
    option (list event * iworld) :=
  match inputs with
  | [] => Some (tr, w)
  | i :: inputs' =>
      match iexec w i with
      | Some (ev, w') => irun w' (record ev tr) inputs'
      | None => None
      end
  end.

Inductive itrace (w0 : iworld) : list event → iworld → Prop :=
  | itrace_nil : itrace w0 [] w0
  | itrace_cons tr w ev w' :
      itrace w0 tr w → istep w ev w' → itrace w0 (record ev tr) w'.

(** ** The function and the relation *)

Lemma iexec_istep w i ev w' : iexec w i = Some (ev, w') → istep w ev w'.
Proof.
  destruct i as [req|k|dt|rows]; unfold iexec.
  - destruct (presentable _ _) eqn:Hp; [|done].
    intros [= <- <-]. by apply istep_arrive.
  - destruct (flights w !! k) as [f|] eqn:Hf; [simpl|done].
    destruct (advance _ _ _ _) as [eff|] eqn:Ha; [simpl|done].
    intros [= <- <-]. by eapply istep_advance.
  - case_bool_decide; [|done]. intros [= <- <-]. by apply istep_tick.
  - case_bool_decide; [|done]. intros [= <- <-]. by apply istep_table.
Qed.

Lemma istep_iexec w ev w' : istep w ev w' → ∃ i, iexec w i = Some (ev, w').
Proof.
  destruct 1 as [w req Hp|w k f eff Hf Ha|w dt Hdt|w rows Hwf].
  - exists (IArrive req). simpl. by rewrite Hp.
  - exists (IAdvance k). simpl. rewrite Hf. simpl. by rewrite Ha.
  - exists (ITick dt). simpl. by rewrite bool_decide_true.
  - exists (ITable rows). simpl. by rewrite bool_decide_true.
Qed.

Lemma irun_itrace w0 tr w inputs tr' w' :
  itrace w0 tr w → irun w tr inputs = Some (tr', w') → itrace w0 tr' w'.
Proof.
  revert tr w. induction inputs as [|i inputs IH]; simpl; intros tr w Htr.
  - by intros [= <- <-].
  - destruct (iexec w i) as [[ev w1]|] eqn:Hexec; [|done].
    apply IH. econstructor; [done|]. by eapply iexec_istep.
Qed.

(** ** What the phases read *)

Lemma decode_bearer_Ok now authorization payload :
  decode_bearer now authorization = Ok payload ↔
  ∃ scheme tok,
    authorization = Some (scheme, tok) ∧ str_lower scheme = "bearer" ∧
    decode_jwt now tok = Ok payload.
Proof.
  unfold decode_bearer. rewrite http_bearer_bind, bind_Ok_inv.
  setoid_rewrite OAuth2PasswordBearer_call_Ok.
  setoid_rewrite get_current_token_payload_Ok. naive_solver.
Qed.

Lemma resolve_user_Ok token_type session payload user :
  resolve_user token_type session payload = Ok user →
  payload !! TOKEN_TYPE_FIELD = Some (PyStr token_type) ∧
  payload !! "sub" = Some (PyInt (id user)) ∧
  session_get session (PyInt (id user)) = Some user ∧ active user = true.
Proof.
  unfold resolve_user, UserGetterFromToken_call. simpl.
  intros H. chain_inv. eauto.
Qed.

(** The routes are their phases run at one instant on one table. *)
Lemma users_me_route_phases now session authorization :
  users_me_route now session authorization =
  payload ← decode_bearer now authorization;
  read_users_me payload <$> resolve_user ACCESS_TOKEN_TYPE session payload.
Proof.
  unfold users_me_route, decode_bearer, resolve_user.
  rewrite !http_bearer_bind.
  destruct (OAuth2PasswordBearer_call _ _ _) as [tok|]; [simpl|done].
  destruct (get_current_token_payload now tok) as [payload|]; [simpl|done].
  destruct (UserGetterFromToken_call _ _ _) as [user|]; [simpl|done].
  by destruct (get_current_active_auth_user _ _).
Qed.

Lemma refresh_route_phases now now' session authorization :
  refresh_route settings now now' session authorization =
  payload ← decode_bearer now authorization;
  auth_refresh_jwt settings now' <$>
    resolve_user REFRESH_TOKEN_TYPE session payload.
Proof.
  rewrite refresh_route_eq. unfold decode_bearer, resolve_user.
  rewrite http_bearer_bind.
  destruct (OAuth2PasswordBearer_call _ _ _) as [tok|]; [simpl|done].
  unfold depends_current_active_auth_user, depends_UserGetterFromToken.
  destruct (get_current_token_payload now tok) as [payload|]; [simpl|done].
  by destruct (UserGetterFromToken_call _ _ _) as [user|].
Qed.

(** ** Where tokens and local variables come from *)

(** A login of the user with key [i] was answered with tokens. *)
Definition ilogged (tr : list event) (i : Z) : Prop :=
  ∃ now authorization username password t user,
    id user = i ∧
    Served now (ReqLogin authorization username password)
      (RespToken (Ok (auth_user_issue_jwt settings t now user))) ∈ tr.

(** A token of the factory, signed in the past for a user who logged in. *)
Definition minted (tr : list event) (now : Z) (tok : token) : Prop :=
  ∃ t user,
    t ≤ now ∧ ilogged tr (id user) ∧
    (tok = create_access_token settings t user ∨
     tok = create_refresh_token settings t user).

(** What a request in flight holds: a token that is known when it has just
    arrived; an access token of the factory between the two signatures of a
    login; the claims of an issued token once decoded; a user who logged in
    once resolved for a refresh. *)
Definition flight_ok (tr : list event) (w : world) (f : flight) : Prop :=
  match flight_phase f with
  | Arrived => presentable w (flight_req f) = true
  | HalfIssued user access =>
      ∃ t, t ≤ clock w ∧ access = create_access_token settings t user
  | Decoded payload => ∃ tok, tok ∈ issued w ∧ jwt_verify tok = Some payload
  | Resolved user => ilogged tr (id user)
  | Gated _ | Answered _ => True
  end.

Definition iinv (tr : list event) (w : iworld) : Prop :=
  (∀ tok, tok ∈ issued (base w) → minted tr (clock (base w)) tok) ∧
  Forall (flight_ok tr (base w)) (flights w).

(** Both are kept when the trace, the clock and the issued tokens grow. *)
Definition grows (tr tr' : list event) (w w' : world) : Prop :=
  tr ⊆ tr' ∧ clock w ≤ clock w' ∧ issued w ⊆ issued w'.

Lemma ilogged_mono tr tr' i : tr ⊆ tr' → ilogged tr i → ilogged tr' i.
Proof.
  intros Htr (now & a & u & p & t & user & ? & Hin).
  exists now, a, u, p, t, user. auto.
Qed.

Lemma minted_mono tr tr' now now' tok :
  tr ⊆ tr' → now ≤ now' → minted tr now tok → minted tr' now' tok.
Proof.
  intros Htr Hle (t & user & ? & ? & ?). exists t, user.
  split_and!; eauto using ilogged_mono with lia.
Qed.

Lemma known_mono w w' tok :
  issued w ⊆ issued w' → known w tok = true → known w' tok = true.
Proof.
  unfold known. intros Hsub [Hin%bool_decide_eq_true| ->]%orb_prop;
    [|by rewrite orb_true_r].
  by rewrite bool_decide_true by auto.
Qed.

Lemma flight_ok_mono tr tr' w w' f :
  grows tr tr' w w' → flight_ok tr w f → flight_ok tr' w' f.
Proof.
  intros (Htr & Hc & Hi). unfold flight_ok, presentable.
  destruct (flight_phase f) as [| | | | |]; try done.
  - destruct (authorization_of _) as [[scheme tok]|]; eauto using known_mono.
  - intros (t & ? & ?). exists t. split; [lia|done].
  - intros (tok & ? & ?). exists tok. auto.
  - by apply ilogged_mono.
Qed.

(** The subject of an issued token logged in. *)
Lemma minted_sub tr now tok payload i :
  minted tr now tok → jwt_verify tok = Some payload →
  payload !! "sub" = Some (PyInt i) → ilogged tr i.
Proof.
  intros (t & user & _ & Hl & [-> | ->]) Hv Hs.
  - rewrite jwt_verify_create_access_token in Hv. apply (inj Some) in Hv.
    subst payload. rewrite access_claims_sub in Hs. by injection Hs as <-.
  - rewrite jwt_verify_create_refresh_token in Hv. apply (inj Some) in Hv.
    subst payload. rewrite refresh_claims_sub in Hs. by injection Hs as <-.
Qed.

(** ** The invariant *)

Lemma apply_quiet ph w : apply_effect (quiet ph) w = w.
Proof. by destruct w. Qed.

Lemma record_subseteq ev tr : tr ⊆ record ev tr.
Proof. unfold record. intros x ?. apply elem_of_app. auto. Qed.

Lemma grows_record ev tr w : grows tr (record ev tr) w w.
Proof. split_and!; [apply record_subseteq|done..]. Qed.

Lemma grows_effect ev tr eff w : grows tr (record ev tr) w (apply_effect eff w).
Proof.
  destruct (grows_record ev tr w) as (? & _). split_and!; [done..|].
  simpl. intros x ?. apply elem_of_app. auto.
Qed.

Lemma grows_tick tr w dt :
  0 ≤ dt → grows tr (record (Some (Tick dt)) tr) w (set_clock (clock w + dt) w).
Proof. intros. split_and!; [apply record_subseteq|simpl; lia|done]. Qed.

Lemma grows_table tr w rows :
  grows tr (record (Some (Table rows)) tr) w (set_table rows w).
Proof. split_and!; [apply record_subseteq|done..]. Qed.

(** The decoded claims of a request that arrived with a known token are those
    of an issued token. *)
Lemma decode_bearer_known w now req authorization payload :
  authorization_of req = authorization → presentable w req = true →
  decode_bearer now authorization = Ok payload →
  ∃ tok, tok ∈ issued w ∧ jwt_verify tok = Some payload.
Proof.
  unfold presentable. intros -> Hp (scheme & tok & Ha & _ & Hd)%decode_bearer_Ok.
  rewrite Ha in Hp. apply decode_jwt_Ok in Hd as [Hv _].
  exists tok. eauto using known_verified.
Qed.

Lemma ilogged_here now authorization username password t user tr :
  ilogged
    (Served now (ReqLogin authorization username password)
       (RespToken (Ok (auth_user_issue_jwt settings t now user))) :: tr)
    (id user).
Proof. exists now, authorization, username, password, t, user. by split; [|left]. Qed.

Section advance_ok.
Context (tr : list event) (w : world).
Hypothesis issued_minted : ∀ tok, tok ∈ issued w → minted tr (clock w) tok.

(** What a phase signs is minted, and what it leaves in the local variables
    of the request is as [flight_ok] says. *)
Definition advance_spec (req : request) (eff : effect) : Prop :=
  let tr' := record (observe (clock w) req (eff_phase eff)) tr in
  (∀ tok, tok ∈ eff_tokens eff → minted tr' (clock w) tok) ∧
  flight_ok tr' (apply_effect eff w) (mkFlight req (eff_phase eff)).

Lemma quiet_spec req ph :
  flight_ok tr w (mkFlight req ph) → advance_spec req (quiet ph).
Proof.
  intros Hf. split; [by intros tok ?%elem_of_nil|].
  rewrite apply_quiet. eapply flight_ok_mono; [apply grows_record|done].
Qed.

Lemma advance_login_ok authorization username password ph eff :
  flight_ok tr w (mkFlight (ReqLogin authorization username password) ph) →
  advance (clock w) (table w) (ReqLogin authorization username password) ph
    = Some eff →
  advance_spec (ReqLogin authorization username password) eff.
Proof.
  destruct ph as [|user|user access| | |]; simpl; intros Hf [= <-].
  - destruct (_ ≫= _) as [user|e]; by apply quiet_spec.
  - apply quiet_spec. by exists (clock w).
  - destruct Hf as (t & Ht & ->). split; [|done]. simpl.
    intros tok [->|[->|[]%elem_of_nil]%elem_of_cons]%elem_of_cons.
    + exists t, user. split_and!; [lia|apply ilogged_here|by left].
    + exists (clock w), user. split_and!; [lia|apply ilogged_here|by right].
Qed.

Lemma advance_refresh_ok authorization ph eff :
  flight_ok tr w (mkFlight (ReqRefresh authorization) ph) →
  advance (clock w) (table w) (ReqRefresh authorization) ph = Some eff →
  advance_spec (ReqRefresh authorization) eff.
Proof.
  destruct ph as [| | |payload|user|]; simpl; intros Hf [= <-].
  - destruct (decode_bearer _ _) as [payload|e] eqn:Hd; apply quiet_spec;
      [|done].
    exact (decode_bearer_known w _ (ReqRefresh authorization) _ _ eq_refl Hf Hd).
  - destruct (resolve_user _ _ _) as [user|e] eqn:Hr; apply quiet_spec;
      [|done]. destruct Hf as (tok & Hin & Hv).
    apply resolve_user_Ok in Hr as (_ & Hs & _).
    exact (minted_sub _ _ _ _ _ (issued_minted _ Hin) Hv Hs).
  - split; [|done]. simpl. intros tok [->|[]%elem_of_nil]%elem_of_cons.
    exists (clock w), user. split_and!; [lia| |by left].
    eapply ilogged_mono; [apply record_subseteq|done].
Qed.

Lemma advance_me_ok authorization ph eff :
  flight_ok tr w (mkFlight (ReqMe authorization) ph) →
  advance (clock w) (table w) (ReqMe authorization) ph = Some eff →
  advance_spec (ReqMe authorization) eff.
Proof.
  destruct ph as [| | |payload| |]; simpl; intros Hf [= <-].
  - destruct (decode_bearer _ _) as [payload|e] eqn:Hd; apply quiet_spec;
      [|done].
    exact (decode_bearer_known w _ (ReqMe authorization) _ _ eq_refl Hf Hd).
  - by apply quiet_spec.
Qed.

Lemma advance_register_ok authorization user_in ph eff :
  advance (clock w) (table w) (ReqRegister authorization user_in) ph
    = Some eff →
  advance_spec (ReqRegister authorization user_in) eff.
Proof.
  destruct ph; simpl; intros [= <-].
  destruct (register_route _ _ _) as [[session row]|];
    (split; [by intros tok ?%elem_of_nil|done]).
Qed.

Lemma advance_ok req ph eff :
  flight_ok tr w (mkFlight req ph) →
  advance (clock w) (table w) req ph = Some eff → advance_spec req eff.
Proof.
  destruct req; eauto using advance_login_ok, advance_refresh_ok,
    advance_me_ok, advance_register_ok.
Qed.

End advance_ok.

Lemma iinv_grows tr tr' w w' fl :
  grows tr tr' w w' → issued w' = issued w → iinv tr (mkIWorld w fl) →
  iinv tr' (mkIWorld w' fl).
Proof.
  intros Hg Hi [Hm Hf]. pose proof Hg as (? & ? & _). split; simpl in *.
  - rewrite Hi. eauto using minted_mono.
  - eapply Forall_impl; [done|]. eauto using flight_ok_mono.
Qed.

Lemma istep_iinv tr w ev w' : iinv tr w → istep w ev w' → iinv (record ev tr) w'.
Proof.
  intros Hinv Hstep. pose proof Hinv as [Hm Hfl].
  destruct Hstep as [[w fl] req Hp|[w fl] k [req ph] eff Hf Ha
                    |[w fl] dt Hdt|[w fl] rows Hwf]; simpl in *.
  - split; [done|]. apply Forall_app. split; [done|]. by apply Forall_singleton.
  - destruct (advance_ok tr w Hm req ph eff) as [Ht Hok];
      [by eapply Forall_lookup_1|done|].
    pose proof (grows_effect (observe (clock w) req (eff_phase eff)) tr eff w)
      as Hg.
    split; simpl.
    + intros tok [?|?]%elem_of_app; [auto|].
      eapply minted_mono; [apply record_subseteq|done|auto].
    + apply Forall_insert; [|done].
      eapply Forall_impl; [done|]. eauto using flight_ok_mono.
  - by eapply iinv_grows; [apply grows_tick| |].
  - by eapply iinv_grows; [apply grows_table| |].
Qed.

Definition iinitial (w : iworld) : Prop :=
  issued (base w) = [] ∧ flights w = [].

Lemma itrace_iinv w0 tr w : iinitial w0 → itrace w0 tr w → iinv tr w.
Proof.
  intros [H0 Hf]. induction 1 as [|tr w ev w' _ IH Hstep];
    [|by eapply istep_iinv].
  split; [|by rewrite Hf]. intros tok. rewrite H0. by intros ?%elem_of_nil.
Qed.

(** An answer is the last phase of a request in flight. *)
Lemma istep_served_inv w now req resp w' :
  istep w (Some (Served now req resp)) w' →
  now = clock (base w) ∧
  ∃ k ph eff,
    flights w !! k = Some (mkFlight req ph) ∧
    advance (clock (base w)) (table (base w)) req ph = Some eff ∧
    eff_phase eff = Answered resp.
Proof.
  intros Hstep. remember (Some (Served now req resp)) as ev eqn:Hev.
  destruct Hstep as [w req' Hp|w k [req' ph] eff Hf Ha|w dt Hdt|w rows Hwf];
    try done.
  simpl in *. destruct (eff_phase eff) as [| | | | |resp'] eqn:Hph; try done.
  injection Hev as <- -> ->. split; [done|]. by exists k, ph, eff.
Qed.

(** Every event of a trace is the event of a step from a state the service
    reached by an earlier part of the trace. *)
Lemma itrace_event_inv w0 tr w ev :
  itrace w0 tr w → ev ∈ tr →
  ∃ tr1 w1 w2, itrace w0 tr1 w1 ∧ istep w1 (Some ev) w2 ∧ tr1 ⊆ tr.
Proof.
  induction 1 as [|tr w [ev'|] w' Htr IH Hstep]; simpl.
  - by intros ?%elem_of_nil.
  - intros [->|Hin]%elem_of_cons.
    + exists tr, w, w'. split_and!; [done..|]. apply (record_subseteq (Some ev')).
    + destruct (IH Hin) as (tr1 & w1 & w2 & ? & ? & ?).
      exists tr1, w1, w2. split_and!; [done..|].
      etrans; [done|apply (record_subseteq (Some ev'))].
  - done.
Qed.

(** ** What an answer implies *)

(** In a state that satisfies the invariant, a profile answered is built
    from the claims of an access token and a row that is active at that
    moment and whose key logged in. *)
Lemma profile_step_traces_to_login tr w now authorization d w' :
  iinv tr w →
  istep w (Some (Served now (ReqMe authorization) (RespProfile (Ok d)))) w' →
  ∃ payload user,
    d = read_users_me payload user ∧
    payload !! TOKEN_TYPE_FIELD = Some (PyStr ACCESS_TOKEN_TYPE) ∧
    session_get (table (base w)) (PyInt (id user)) = Some user ∧
    active user = true ∧ ilogged tr (id user).
Proof.
  intros [Hm Hfl] (-> & k & ph & eff & Hf & Ha & Hph)%istep_served_inv.
  pose proof (Forall_lookup_1 _ _ _ _ Hfl Hf) as Hok.
  destruct ph as [| | |payload| |]; simpl in Ha; try done;
    injection Ha as <-.
  { by destruct (decode_bearer _ _). }
  injection Hph as (user & (? & Hs & ? & ?)%resolve_user_Ok & ->)%fmap_Ok_inv.
  destruct Hok as (tok & Hin & Hv).
  exists payload, user. split_and!; eauto using minted_sub.
Qed.

Lemma refresh_step_traces_to_login tr w now authorization info w' :
  iinv tr w →
  istep w (Some (Served now (ReqRefresh authorization) (RespToken (Ok info))))
    w' →
  ∃ user, info = auth_refresh_jwt settings now user ∧ ilogged tr (id user).
Proof.
  intros [Hm Hfl] (-> & k & ph & eff & Hf & Ha & Hph)%istep_served_inv.
  pose proof (Forall_lookup_1 _ _ _ _ Hfl Hf) as Hok.
  destruct ph as [| | |payload|user|]; simpl in Ha; try done;
    injection Ha as <-.
  - by destruct (decode_bearer _ _).
  - by destruct (resolve_user _ _ _).
  - injection Hph as <-. by exists user.
Qed.

(** ** Theorems: what an answer implies *)

(** C14 [profile_answered_traces_to_login]: with requests interleaved, every
    profile [/users/me/] answers with is built from the claims of an access
    token and a row of the table, active at the moment of the lookup, whose
    key logged in earlier in the trace: whatever happened between the
    decoding of the token and the lookup. *)
Theorem profile_answered_traces_to_login w0 tr w now authorization d w' :
  iinitial w0 → itrace w0 tr w →
  istep w (Some (Served now (ReqMe authorization) (RespProfile (Ok d)))) w' →
  ∃ payload user,
    d = read_users_me payload user ∧
    payload !! TOKEN_TYPE_FIELD = Some (PyStr ACCESS_TOKEN_TYPE) ∧
    session_get (table (base w)) (PyInt (id user)) = Some user ∧
    active user = true ∧ ilogged tr (id user).
Proof. eauto using profile_step_traces_to_login, itrace_iinv. Qed.

(** C15 [refresh_answered_traces_to_login]: with requests interleaved, every
    access token [/auth/refresh/] answers with is signed at the moment of the
    answer for a user whose key logged in earlier in the trace. *)
Theorem refresh_answered_traces_to_login w0 tr w now authorization info w' :
  iinitial w0 → itrace w0 tr w →
  istep w (Some (Served now (ReqRefresh authorization) (RespToken (Ok info))))
    w' →
  ∃ user, info = auth_refresh_jwt settings now user ∧ ilogged tr (id user).
Proof. eauto using refresh_step_traces_to_login, itrace_iinv. Qed.

(** ** Every request is answered *)

(** The phases a request has left, and the phases it can be in. *)
Definition phases_left (req : request) (ph : phase) : nat :=
  match ph, req with
  | Answered _, _ => 0
  | Arrived, (ReqLogin _ _ _ | ReqRefresh _) => 3
  | Arrived, ReqMe _ => 2
  | Arrived, ReqRegister _ _ => 1
  | (Gated _ | Decoded _), ReqMe _ => 1
  | (Gated _ | Decoded _), _ => 2
  | (HalfIssued _ _ | Resolved _), _ => 1
  end.

Definition phase_wf (req : request) (ph : phase) : bool :=
  match ph, req with
  | (Arrived | Answered _), _ => true
  | (Gated _ | HalfIssued _ _), ReqLogin _ _ _ => true
  | Decoded _, (ReqRefresh _ | ReqMe _) => true
  | Resolved _, ReqRefresh _ => true
  | _, _ => false
  end.

Definition flight_wf (f : flight) : Prop :=
  phase_wf (flight_req f) (flight_phase f) = true.

(** A request that is not answered yet makes a phase, which leaves it with
    fewer phases to go. *)
Lemma advance_progress now session req ph :
  phase_wf req ph = true → (0 < phases_left req ph)%nat →
  ∃ eff,
    advance now session req ph = Some eff ∧
    phase_wf req (eff_phase eff) = true ∧
    (phases_left req (eff_phase eff) < phases_left req ph)%nat.
Proof.
  destruct req, ph; simpl; try done; try lia; intros _ _; eexists;
    (split; [done|]);
    repeat match goal with
    | |- context [or_answer ?wrap ?r ?k] => destruct r; simpl
    | |- context [match ?r with Ok _ => _ | Err _ => _ end] =>
        destruct r as [[? ?]|]; simpl
    end; split; simpl; (done || lia).
Qed.

Lemma advance_wf now session req ph eff :
  advance now session req ph = Some eff → phase_wf req (eff_phase eff) = true.
Proof.
  destruct req, ph; simpl; try done; intros [= <-];
    repeat match goal with
    | |- context [or_answer ?wrap ?r ?k] => destruct r; simpl
    | |- context [match ?r with Ok _ => _ | Err _ => _ end] =>
        destruct r as [[? ?]|]; simpl
    end; done.
Qed.

Lemma istep_flights_wf w ev w' :
  Forall flight_wf (flights w) → istep w ev w' → Forall flight_wf (flights w').
Proof.
  intros Hwf. destruct 1 as [w req Hp|w k f eff Hf Ha|w dt Hdt|w rows Hr];
    simpl; try done.
  - apply Forall_app. split; [done|]. by apply Forall_singleton.
  - apply Forall_insert; [done|]. by eapply advance_wf.
Qed.

Lemma itrace_flights_wf w0 tr w :
  flights w0 = [] → itrace w0 tr w → Forall flight_wf (flights w).
Proof.
  intros H0. induction 1; [by rewrite H0|by eapply istep_flights_wf].
Qed.

(** The request [k] of a state, advanced until it is answered. *)
Lemma flight_answered_within n w tr k f :
  flights w !! k = Some f → flight_wf f →
  (phases_left (flight_req f) (flight_phase f) ≤ n)%nat →
  ∃ m tr' w' resp,
    (m ≤ n)%nat ∧ irun w tr (replicate m (IAdvance k)) = Some (tr', w') ∧
    flights w' !! k = Some (mkFlight (flight_req f) (Answered resp)).
Proof.
  revert w tr f. induction n as [|n IH]; intros w tr [req ph] Hf Hwf Hn;
    unfold flight_wf in *; simpl in *.
  - destruct ph; try (destruct req; simpl in *; lia).
    by exists 0%nat, tr, w, resp.
  - destruct (decide (phases_left req ph = 0)%nat) as [H0|H0].
    { destruct ph; try (destruct req; simpl in *; lia).
      exists 0%nat, tr, w, resp. split; [lia|done]. }
    destruct (advance_progress (clock (base w)) (table (base w)) req ph Hwf)
      as (eff & Ha & Hwf' & Hlt); [lia|].
    edestruct (IH (mkIWorld (apply_effect eff (base w))
                     (<[k := mkFlight req (eff_phase eff)]> (flights w)))
                 (record (observe (clock (base w)) req (eff_phase eff)) tr)
                 (mkFlight req (eff_phase eff)))
      as (m & tr' & w' & resp & Hm & Hrun & Hk); simpl; [|done|lia|].
    { apply list_lookup_insert_eq. by eapply lookup_lt_Some. }
    exists (S m), tr', w', resp. split; [lia|]. split; [|done].
    simpl. rewrite Hf. simpl. by rewrite Ha.
Qed.


(** ** The atomic service is the interleaved one without interleaving *)

(** The request that arrived last makes its next phase. *)
Lemma itrace_advance_last w0 tr w fl req ph eff :
  itrace w0 tr (mkIWorld w (fl ++ [mkFlight req ph])) →
  advance (clock w) (table w) req ph = Some eff →
  itrace w0 (record (observe (clock w) req (eff_phase eff)) tr)
    (mkIWorld (apply_effect eff w) (fl ++ [mkFlight req (eff_phase eff)])).
Proof.
  intros Htr Ha.
  pose proof (istep_advance (mkIWorld w (fl ++ [mkFlight req ph]))
                (length fl) (mkFlight req ph) eff) as Hstep.
  simpl in Hstep. rewrite list_lookup_middle in Hstep by done.
  rewrite <-(Nat.add_0_r (length fl)), insert_app_r in Hstep.
  econstructor; [done|]. by apply Hstep.
Qed.

Lemma itrace_arrive w0 tr w fl req :
  itrace w0 tr (mkIWorld w fl) → presentable w req = true →
  itrace w0 tr (mkIWorld w (fl ++ [mkFlight req Arrived])).
Proof.
  intros Htr Hp. change tr with (record None tr).
  econstructor; [done|]. by apply (istep_arrive (mkIWorld w fl)).
Qed.

(** A request served without anything in between.  [T tr w fl f] is any
    property of a trace, a state, the requests in flight and the request
    that arrived last which the phases of that request keep: what follows
    holds of every scheduler that lets a request make its phases. *)
Section simulate.
Context (T : list event → world → list flight → flight → Prop).
Hypothesis T_advance : ∀ tr w fl req ph eff,
  T tr w fl (mkFlight req ph) →
  advance (clock w) (table w) req ph = Some eff →
  T (record (observe (clock w) req (eff_phase eff)) tr) (apply_effect eff w)
    fl (mkFlight req (eff_phase eff)).
Context (tr : list event) (w : world) (fl : list flight).

Lemma T_advance_quiet req ph ph' :
  T tr w fl (mkFlight req ph) →
  advance (clock w) (table w) req ph = Some (quiet ph') →
  T (record (observe (clock w) req ph') tr) w fl (mkFlight req ph').
Proof.
  intros Htr Ha. rewrite <-(apply_quiet ph' w) at 2.
  by apply (T_advance _ _ _ _ _ _ Htr Ha).
Qed.

(** The request [req], once arrived, gives the response and the state of
    [serve]. *)
Definition simulated (req : request) : Prop :=
  T tr w fl (mkFlight req Arrived) →
  ∃ ph,
    T (Served (clock w) req (serve settings w req).1 :: tr)
      (serve settings w req).2 fl (mkFlight req ph).

Lemma simulate_login authorization username password :
  simulated (ReqLogin authorization username password).
Proof.
  intros H1. simpl. rewrite login_route_eq.
  eapply T_advance in H1; [|done]. simpl in H1.
  rewrite http_bearer_bind in H1.
  destruct (validate_auth_user _ _ _) as [user|e]; simpl in *;
    rewrite apply_quiet in H1; [|by eexists].
  eapply T_advance_quiet in H1; [|done].
  eapply T_advance in H1; [|done]. by eexists.
Qed.

Lemma simulate_refresh authorization : simulated (ReqRefresh authorization).
Proof.
  intros H1. simpl. rewrite refresh_route_phases.
  eapply T_advance in H1; [|done]. simpl in H1.
  destruct (decode_bearer _ _) as [payload|e]; simpl in *;
    rewrite apply_quiet in H1; [|by eexists].
  eapply T_advance in H1; [|done]. simpl in H1.
  destruct (resolve_user _ _ _) as [user|e]; simpl in *;
    rewrite apply_quiet in H1; [|by eexists].
  eapply T_advance in H1; [|done]. by eexists.
Qed.

Lemma simulate_me authorization : simulated (ReqMe authorization).
Proof.
  intros H1. simpl. rewrite users_me_route_phases.
  eapply T_advance in H1; [|done]. simpl in H1.
  destruct (decode_bearer _ _) as [payload|e]; simpl in *;
    rewrite apply_quiet in H1; [|by eexists].
  eapply T_advance_quiet in H1; [|done]. by eexists.
Qed.

Lemma simulate_register authorization user_in :
  simulated (ReqRegister authorization user_in).
Proof.
  intros H1. simpl. eapply T_advance in H1; [|done]. simpl in H1.
  destruct (register_route _ _ _) as [[session row]|e]; simpl in *;
    [|rewrite apply_quiet in H1]; by eexists.
Qed.

Lemma simulate_request req : simulated req.
Proof.
  destruct req; auto using simulate_login, simulate_refresh, simulate_me,
    simulate_register.
Qed.

End simulate.

(** Whatever requests are in flight, a step of [System] is a run of the
    interleaved service with the same event and the same clock, table and
    issued tokens afterwards. *)
Lemma atomic_step_simulated w0 tr w fl ev w' :
  itrace w0 tr (mkIWorld w fl) → step settings w ev w' →
  ∃ fl', itrace w0 (ev :: tr) (mkIWorld w' fl').
Proof.
  intros Htr Hstep. destruct Hstep as [w req Hp|w dt Hdt|w rows Hwf].
  - destruct (simulate_request
                (λ tr w fl f, itrace w0 tr (mkIWorld w (fl ++ [f])))
                (λ tr w fl, itrace_advance_last w0 tr w fl) tr w fl req)
      as [ph Hph]; [by apply itrace_arrive|by eexists].
  - exists fl. apply (itrace_cons _ _ _ (Some (Tick dt)) _ Htr).
    by apply (istep_tick (mkIWorld w fl)).
  - exists fl. apply (itrace_cons _ _ _ (Some (Table rows)) _ Htr).
    by apply (istep_table (mkIWorld w fl)).
Qed.

(** The atomic service of [System] is the
    interleaved service without interleaving: every trace of [System] (each
    request served at one instant on one table) is a trace of the
    interleaved service, with the same events and the same clock, table and
    issued tokens at the end, each request making its phases one after the
    other. *)
Lemma atomic_trace_simulated w tr w' :
  trace settings w tr w' →
  ∃ fl', itrace (mkIWorld w []) tr (mkIWorld w' fl').
Proof.
  induction 1 as [|tr w1 ev w2 _ [fl IH] Hstep]; [exists []; constructor|].
  by eapply atomic_step_simulated.
Qed.

End interleaving.

(** ** The theorems at the demonstration table *)

(** The first row logs in with five seconds between the two signatures; a
    request for the profile arrives with the access token and is decoded. *)
Definition demo_iw0 : iworld (codec := demo_codec) (crud := demo_crud) :=
  mkIWorld (mkWorld (codec := demo_codec) (store := list_store) 1000
              demo_rows []) [].

Definition demo_req_me : request (codec := demo_codec) (crud := demo_crud) :=
  ReqMe (Some ("Bearer",
               create_access_token (codec := demo_codec) demo_settings 1000
                 alice)).

Definition demo_req_refresh :
    request (codec := demo_codec) (crud := demo_crud) :=
  ReqRefresh (Some ("Bearer",
                    create_refresh_token (codec := demo_codec) demo_settings
                      1005 alice)).

Definition demo_iinputs :
    list (iinput (codec := demo_codec) (crud := demo_crud)) :=
  [IArrive (ReqLogin None "alice" "correct-pw"); IAdvance 0; IAdvance 0;
   ITick 5; IAdvance 0;
   IArrive demo_req_me; IAdvance 1;
   IArrive demo_req_refresh; IAdvance 2; IAdvance 2].

Definition demo_irun :
    option (list (event (codec := demo_codec) (crud := demo_crud)) *
            iworld (codec := demo_codec) (crud := demo_crud)) :=
  irun (hasher := symbolic_hasher) demo_settings demo_iw0 [] demo_iinputs.

Definition demo_itr : list (event (codec := demo_codec) (crud := demo_crud)) :=
  from_option fst [] demo_irun.

Definition demo_iw : iworld (codec := demo_codec) (crud := demo_crud) :=
  from_option snd demo_iw0 demo_irun.

Lemma demo_itrace :
  itrace (hasher := symbolic_hasher) demo_settings demo_iw0 demo_itr demo_iw.
Proof.
  apply (irun_itrace (hasher := symbolic_hasher) demo_settings demo_iw0 []
           demo_iw0 demo_iinputs); [constructor|].
  reflexivity.
Qed.

Lemma demo_istep_me :
  istep (hasher := symbolic_hasher) demo_settings demo_iw
    (Some (Served 1005 demo_req_me (RespProfile (Ok (profile 1000 alice)))))
    (mkIWorld (base demo_iw)
       (<[1%nat := mkFlight demo_req_me
                     (Answered (RespProfile (Ok (profile 1000 alice))))]>
          (flights demo_iw))).
Proof.
  apply (iexec_istep (hasher := symbolic_hasher) demo_settings demo_iw
           (IAdvance 1)).
  reflexivity.
Qed.

Lemma demo_istep_refresh :
  istep (hasher := symbolic_hasher) demo_settings demo_iw
    (Some (Served 1005 demo_req_refresh
             (RespToken (Ok (auth_refresh_jwt (codec := demo_codec)
                               demo_settings 1005 alice)))))
    (mkIWorld
       (apply_effect
          (mkEffect
             (Answered (RespToken (Ok (auth_refresh_jwt (codec := demo_codec)
                                         demo_settings 1005 alice))))
             [create_access_token (codec := demo_codec) demo_settings 1005
                alice] None)
          (base demo_iw))
       (<[2%nat := mkFlight demo_req_refresh
                     (Answered (RespToken (Ok (auth_refresh_jwt
                                                 (codec := demo_codec)
                                                 demo_settings 1005 alice))))]>
          (flights demo_iw))).
Proof.
  apply (iexec_istep (hasher := symbolic_hasher) demo_settings demo_iw
           (IAdvance 2)).
  reflexivity.
Qed.

Lemma profile_answered_traces_to_login_witness :
  ∃ payload user,
    profile 1000 alice = read_users_me payload user ∧
    payload !! TOKEN_TYPE_FIELD = Some (PyStr ACCESS_TOKEN_TYPE) ∧
    session_get (table (base demo_iw)) (PyInt (id user)) = Some user ∧
    active user = true ∧ ilogged demo_settings demo_itr (id user).
Proof.
  apply (profile_answered_traces_to_login (hasher := symbolic_hasher)
           demo_settings demo_iw0 demo_itr demo_iw 1005 _
           (profile 1000 alice) _ (conj eq_refl eq_refl) demo_itrace
           demo_istep_me).
Defined.

Lemma refresh_answered_traces_to_login_witness :
  ∃ user,
    auth_refresh_jwt (codec := demo_codec) demo_settings 1005 alice =
    auth_refresh_jwt demo_settings 1005 user ∧
    ilogged demo_settings demo_itr (id user).
Proof.
  apply (refresh_answered_traces_to_login (hasher := symbolic_hasher)
           demo_settings demo_iw0 demo_itr demo_iw 1005 _ _ _
           (conj eq_refl eq_refl) demo_itrace demo_istep_refresh).
Defined.

Lemma atomic_trace_simulated_witness :
  ∃ fl',
    itrace (hasher := symbolic_hasher) (crud := demo_crud) demo_settings
      (mkIWorld (base demo_iw0) [])
      [Served 1000 (ReqLogin None "alice" "correct-pw")
         (RespToken (Ok (auth_user_issue_jwt (codec := demo_codec)
                           demo_settings 1000 1000 alice)))]
      (mkIWorld
         (serve (hasher := symbolic_hasher) (crud := demo_crud) demo_settings
            (base demo_iw0) (ReqLogin None "alice" "correct-pw")).2 fl').
Proof.
  apply (atomic_trace_simulated (hasher := symbolic_hasher)
           (crud := demo_crud) demo_settings (base demo_iw0)).
  apply (trace_cons _ _ [] (base demo_iw0)); [constructor|].
  exact (step_serve (hasher := symbolic_hasher) (crud := demo_crud)
           demo_settings (base demo_iw0)
           (ReqLogin None "alice" "correct-pw") eq_refl).
Defined.

