(* ===== verification/Phases.v ===== *)
(** The phases of [Interleaving] are the steps of the programs.

    [Interleaving] cuts each route into phases by hand, one read of the
    clock or of the table per phase.  [Programs] gives the routes as
    programs in which those reads are calls.  Here each request has its
    program ([program]: the program of its route, answered with a response
    whether it returns or raises), each phase stands for the program that is
    left to run ([remaining]), and a phase of [Interleaving] is one call of
    that program answered ([pstep]): the cut of [Interleaving] is at the
    calls of the code and nowhere else.

    Run at one instant on one table, the program of a request answers what
    [System.serve] answers. *)

From stdpp Require Import base numbers strings gmap list.
From S2P Require Import Prelude PyData Http Codec UserStore UserCrud Fixtures.
From S2P Require Import CreateToken Security Routers Programs System.
From S2P Require Import Interleaving.

Local Open Scope Z_scope.

Section phases.
Context `{codec : JwtCodec} `{hasher : PasswordHasher} `{store : UserStore}.
Context `{crud : @UserCrud store} (settings : AuthJWT).

(** ** The program of a request *)

(** The framework turns what a route returns or raises into the response. *)
Fixpoint answer {A} (wrap : http A → response) (p : prog A) : prog response :=
  match p with
  | Return a => Return (wrap (Ok a))
  | Raise e => Return (wrap (Err e))
  | Next c k => Next c (λ x, answer wrap (k x))
  end.

Definition program (req : request) : prog response :=
  match req with
  | ReqLogin authorization username password =>
      answer RespToken (login_prog settings authorization username password)
  | ReqRefresh authorization =>
      answer RespToken (refresh_prog settings authorization)
  | ReqMe authorization => answer RespProfile (users_me_prog authorization)
  | ReqRegister authorization user_in =>
      answer RespUser (register_prog authorization user_in)
  end.

(** What a request in a phase has left to run. *)
Definition remaining (req : request) (ph : phase) : option (prog response) :=
  match ph, req with
  | Arrived, _ => Some (program req)
  | Answered resp, _ => Some (Return resp)
  | Gated user, ReqLogin _ _ _ =>
      Some (answer RespToken (auth_user_issue_jwt_prog settings user))
  | HalfIssued user access_token, ReqLogin _ _ _ =>
      Some (answer RespToken
              (refresh_token ← create_refresh_token_prog settings user;
               Return (mkTokenInfo access_token (Some refresh_token))))
  | Decoded payload, ReqRefresh _ =>
      Some (answer RespToken
              (user ← resolve_user_prog REFRESH_TOKEN_TYPE payload;
               auth_refresh_jwt_prog settings user))
  | Resolved user, ReqRefresh _ =>
      Some (answer RespToken (auth_refresh_jwt_prog settings user))
  | Decoded payload, ReqMe _ =>
      Some (answer RespProfile
              (user ← resolve_user_prog ACCESS_TOKEN_TYPE payload;
               Return (read_users_me payload user)))
  | _, _ => None
  end.

(** The tokens a response carries. *)
Definition handed_out (resp : response) : list token :=
  match resp with
  | RespToken (Ok info) => tokens_of info
  | _ => []
  end.

(** What the service has handed out once the phase is the last. *)
Definition signed (ph : phase) : list token :=
  match ph with
  | Answered resp => handed_out resp
  | _ => []
  end.

Definition answered (ph : phase) : bool :=
  match ph with
  | Answered _ => true
  | _ => false
  end.

(** ** Laws *)

Lemma run_answer {A} now session (wrap : http A → response) (p : prog A) :
  run_prog now session (answer wrap p) =
  (Ok (wrap (run_prog now session p).1), (run_prog now session p).2).
Proof.
  revert session. induction p as [a|e|c k IH]; intros session; [done..|].
  simpl. destruct (handle now session c) as [x session']. apply IH.
Qed.

Lemma calls_answer {A} now session (wrap : http A → response) (p : prog A) :
  calls now session (answer wrap p) = calls now session p.
Proof.
  revert session. induction p as [a|e|c k IH]; intros session; [done..|].
  simpl. destruct (handle now session c) as [x session']. f_equal. apply IH.
Qed.

Lemma remaining_wf req ph : is_Some (remaining req ph) ↔ phase_wf req ph = true.
Proof.
  destruct req, ph; simpl; split; (done || by intros [? [=]] || by eexists).
Qed.

(** ** Theorems *)

(** C24 [program_run_serve]: run at one instant on one table, the program of a
    request returns the response of [serve] and leaves the table of
    [serve]: the functions of [Security] and [Routers] are the coroutines of
    the sources when nothing happens between their calls. *)
Theorem program_run_serve w req :
  run_prog (clock w) (table w) (program req) =
  (Ok (serve settings w req).1, table (serve settings w req).2).
Proof.
  destruct req as [a u p|a|a|a user_in]; unfold program; rewrite run_answer.
  - by rewrite run_login_prog; simpl; rewrite learn_table.
  - by rewrite run_refresh_prog; simpl; rewrite learn_table.
  - by rewrite run_users_me_prog.
  - rewrite run_register_prog. simpl.
    by destruct (register_route _ _ _) as [[session row]|].
Qed.

(** What a phase of [Interleaving] is, in a program: the first call of the
    program answered, and the table that call leaves. *)
Definition phase_of_step (now : Z) (session : db) (req : request)
    (ph : phase) (eff : effect) : Prop :=
  ∃ p,
    remaining req ph = Some p ∧
    remaining req (eff_phase eff) = Some (pstep now session p).1 ∧
    default session (eff_table eff) = (pstep now session p).2 ∧
    eff_tokens eff = signed (eff_phase eff).

(** The two phases the refresh and the profile share: the decoding of the
    bearer token at the first read of the clock, and the lookup of its
    subject at the awaited query. *)
Local Ltac phase_decodes :=
  unfold program, refresh_prog, users_me_prog, decode_bearer;
  rewrite lift_http_bearer_bind, http_bearer_bind;
  destruct (OAuth2PasswordBearer_call _ _ _) as [tok|]; [simpl|done];
  by destruct (get_current_token_payload _ tok).

Local Ltac phase_resolves :=
  unfold resolve_user, resolve_user_prog, UserGetterFromToken_call_prog,
    UserGetterFromToken_call, get_user_by_token_sub; simpl;
  destruct (validate_token_type _ _); [simpl|done];
  destruct (session_get _ _) as [user|]; [simpl|done];
  by destruct (get_current_active_auth_user _ _); simpl.

Lemma advance_login_pstep now session a u p ph eff :
  advance settings now session (ReqLogin a u p) ph = Some eff →
  phase_of_step now session (ReqLogin a u p) ph eff.
Proof.
  destruct ph; simpl; try done; intros [= <-]; eexists;
    (split; [reflexivity|]); [|done..].
  unfold program, login_prog. rewrite lift_http_bearer_bind, http_bearer_bind.
  unfold validate_auth_user. simpl. by repeat case_match.
Qed.

Lemma advance_refresh_pstep now session a ph eff :
  advance settings now session (ReqRefresh a) ph = Some eff →
  phase_of_step now session (ReqRefresh a) ph eff.
Proof.
  destruct ph as [| | |payload|user|]; simpl; try done; intros [= <-];
    eexists; (split; [reflexivity|]); [| |done].
  - phase_decodes.
  - phase_resolves.
Qed.

Lemma advance_me_pstep now session a ph eff :
  advance settings now session (ReqMe a) ph = Some eff →
  phase_of_step now session (ReqMe a) ph eff.
Proof.
  destruct ph as [| | |payload| |]; simpl; try done; intros [= <-];
    eexists; (split; [reflexivity|]).
  - phase_decodes.
  - phase_resolves.
Qed.

Lemma advance_register_pstep now session a user_in ph eff :
  advance settings now session (ReqRegister a user_in) ph = Some eff →
  phase_of_step now session (ReqRegister a user_in) ph eff.
Proof.
  destruct ph; simpl; try done; intros [= <-]; eexists;
    (split; [reflexivity|]).
  unfold program, register_prog.
  rewrite lift_http_bearer_bind, register_route_eq. simpl.
  by destruct (create_user _ _) as [[session' row]|].
Qed.

(** A phase that has no call left answers: a request without a bearer
    token when it arrives, a payload of the wrong kind once decoded. *)
Lemma remaining_returned now session req ph resp :
  remaining req ph = Some (Return resp) → answered ph = false →
  advance settings now session req ph = Some (quiet (Answered resp)).
Proof.
  destruct req as [a u p|a|a|a user_in], ph as [| | |payload| |]; simpl;
    try done; intros [= H] _; f_equal; revert H;
    unfold program, login_prog, refresh_prog, users_me_prog, register_prog,
      decode_bearer, resolve_user, resolve_user_prog,
      UserGetterFromToken_call_prog, UserGetterFromToken_call;
    rewrite ?lift_http_bearer_bind, ?http_bearer_bind; simpl;
    try done;
    try (destruct (OAuth2PasswordBearer_call _ _ _); simpl; [done|]);
    try (destruct (validate_token_type _ _); simpl; [done|]);
    by intros [= <-].
Qed.

(** A phase that does not answer writes no table and signs no token for the
    response. *)
Lemma advance_unanswered_quiet now session req ph eff :
  advance settings now session req ph = Some eff →
  answered (eff_phase eff) = false → eff = quiet (eff_phase eff).
Proof.
  destruct req, ph; simpl; try done; intros [= <-];
    repeat match goal with
    | |- context [or_answer ?wrap ?r ?k] => destruct r; simpl
    | |- context [match ?r with Ok _ => _ | Err _ => _ end] =>
        destruct r as [[? ?]|]; simpl
    end; done.
Qed.

Lemma phases_left_pos req ph :
  answered ph = false → (0 < phases_left req ph)%nat.
Proof. destruct ph, req; simpl; (done || lia). Qed.

Lemma advance_phase_of_step now session req ph eff :
  advance settings now session req ph = Some eff →
  phase_of_step now session req ph eff.
Proof.
  destruct req; eauto using advance_login_pstep, advance_refresh_pstep,
    advance_me_pstep, advance_register_pstep.
Qed.

(** C23 [advance_is_pstep]: a phase of the interleaved service is one call of
    the program of the request, answered at the clock and the table of the
    moment: the program the next phase has left is what that call leaves,
    the table is the one it leaves, and the tokens handed out are those of
    the response when the phase is the last.  The phases cut a request at
    the calls of its code ([await] of the session, reads of the clock) and
    nowhere else. *)
Theorem advance_is_pstep now session req ph eff :
  advance settings now session req ph = Some eff →
  ∃ p,
    remaining req ph = Some p ∧
    remaining req (eff_phase eff) = Some (pstep now session p).1 ∧
    default session (eff_table eff) = (pstep now session p).2 ∧
    eff_tokens eff = signed (eff_phase eff).
Proof. apply advance_phase_of_step. Qed.

End phases.

Section calls_bound.
Context `{codec : JwtCodec} `{hasher : PasswordHasher} `{store : UserStore}.
Context `{crud : @UserCrud store} (settings : AuthJWT).

(** A request makes at most as many calls as it has phases left, three at
    most, whatever the clock and the table answer. *)
Lemma remaining_calls_bound now session req ph p :
  remaining settings req ph = Some p →
  (length (calls now session p) ≤ phases_left req ph)%nat.
Proof.
  destruct req as [a u pw|a|a|a user_in], ph; simpl; try done;
    intros [= <-]; rewrite ?calls_answer;
    unfold login_prog, refresh_prog, users_me_prog, register_prog,
      depends_current_active_auth_user_prog;
    prog_cases; simpl; lia.
Qed.

(** C36 [program_queries_once]: a request queries the table at most once,
    whatever the clock and the table answer: the credential gate by the
    username, the chain by the subject of the token. *)
Theorem program_queries_once now session req :
  (length (filter is_query (calls now session (program settings req))) ≤ 1)%nat.
Proof.
  destruct req as [a u pw|a|a|a user_in]; simpl; rewrite calls_answer;
    unfold login_prog, refresh_prog, users_me_prog, register_prog,
      depends_current_active_auth_user_prog;
    prog_cases; simpl; lia.
Qed.

(** Only a registration writes the table: a login, a refresh or a profile
    request that is abandoned after any of its calls leaves nothing to
    undo. *)
Lemma program_writes_nothing now session req :
  (if req is ReqRegister _ _ then True
   else filter is_write (calls now session (program settings req)) = []).
Proof.
  destruct req as [a u pw|a|a|a user_in]; simpl; [..|done];
    rewrite calls_answer;
    unfold login_prog, refresh_prog, users_me_prog,
      depends_current_active_auth_user_prog;
    by prog_cases.
Qed.

End calls_bound.

(** ** The theorem at the demonstration table *)

Lemma advance_is_pstep_witness :
  phase_of_step (hasher := symbolic_hasher) demo_settings 1000
    (table (base demo_iw0)) demo_req_me Arrived
    (quiet (Decoded (access_claims demo_settings 1000 alice))).
Proof.
  apply (advance_is_pstep (hasher := symbolic_hasher) demo_settings 1000
           (table (base demo_iw0)) demo_req_me Arrived).
  reflexivity.
Defined.
