(* ===== verification/Contracts.v ===== *)
(** The contracts of the routes hold of the interleaved service.

    [Wp] gives each route a contract that holds whatever the clock and the
    table answer to its calls.  [Phases] shows that a phase of a request in
    flight is one call of its program.  Together: whatever happens between
    the phases of a request (other requests, ticks of the clock, changes of
    the table), the response it is answered with meets the contract of its
    route ([contract]).  No assumption on the tokens presented is needed:
    the contracts say what a response is built from, not who holds a
    token. *)

From stdpp Require Import base numbers strings gmap list.
From S2P Require Import Prelude PyData Http Codec UserStore UserCrud Fixtures.
From S2P Require Import CreateToken Security Routers Programs Wp System.
From S2P Require Import Interleaving Phases.

Local Open Scope Z_scope.

Section contracts.
Context `{codec : JwtCodec} `{hasher : PasswordHasher} `{store : UserStore}.
Context `{crud : @UserCrud store} (settings : AuthJWT).

(** ** The contract of a request *)

(** What the response to a request is built from, by route.  The contract of
    a registration is that of [create_user], which is not known. *)
Definition contract (req : request) (resp : response) : Prop :=
  match req, resp with
  | ReqLogin _ username password, RespToken r =>
      login_post settings username password r
  | ReqRefresh authorization, RespToken r =>
      refresh_post settings authorization r
  | ReqMe authorization, RespProfile r => users_me_post authorization r
  | ReqRegister _ _, RespUser _ => True
  | _, _ => False
  end.

(** The program of a request returns a response, in contract. *)
Definition in_contract (req : request) (r : http response) : Prop :=
  match r with
  | Ok resp => contract req resp
  | Err _ => False
  end.

(** A request in flight has a program left that ends in contract. *)
Definition flight_in_contract (f : flight) : Prop :=
  ∃ p, remaining settings (flight_req f) (flight_phase f) = Some p ∧
       wp lawful p (in_contract (flight_req f)).

Definition served_in_contract (ev : event) : Prop :=
  match ev with
  | Served _ req resp => contract req resp
  | _ => True
  end.

(** ** Lemmas *)

Lemma wp_answer {A} (E : env) (wrap : http A → response) (p : prog A) Q :
  wp E (answer wrap p) Q ↔ wp E p (λ r, Q (Ok (wrap r))).
Proof.
  induction p as [a|e|c k IH]; [done..|]. simpl.
  split; intros Hwp x Hx; by apply IH, Hwp.
Qed.

Lemma wp_True {A} (E : env) (p : prog A) : wp E p (λ _, True).
Proof. induction p; simpl; auto. Qed.

Lemma program_in_contract req :
  wp lawful (program settings req) (in_contract req).
Proof.
  destruct req as [a u p|a|a|a user_in]; apply wp_answer;
    eauto using wp_login_prog, wp_refresh_prog, wp_users_me_prog, wp_True.
Qed.

(** A phase keeps the contract, and the response of the last phase meets
    it. *)
Lemma advance_in_contract now session req ph eff :
  flight_in_contract (mkFlight req ph) →
  advance settings now session req ph = Some eff →
  flight_in_contract (mkFlight req (eff_phase eff)) ∧
  from_option served_in_contract True (observe now req (eff_phase eff)).
Proof.
  intros (p & Hp & Hwp) (p' & Hp' & Hnext & _)%advance_phase_of_step.
  simpl in Hp. simplify_eq.
  apply (wp_pstep _ now session) in Hwp; [|apply lawful_permits_handle].
  split; [by eexists|].
  destruct (eff_phase eff); simpl in *; [done..|].
  injection Hnext as Hnext. by rewrite <-Hnext in Hwp.
Qed.

Lemma istep_in_contract tr w ev w' :
  Forall flight_in_contract (flights w) → Forall served_in_contract tr →
  istep settings w ev w' →
  Forall flight_in_contract (flights w') ∧
  Forall served_in_contract (record ev tr).
Proof.
  intros Hfl Htr.
  destruct 1 as [w req Hp|w k [req ph] eff Hf Ha|w dt Hdt|w rows Hwf]; simpl;
    [|simpl in Ha|by split; [|constructor]..].
  - split; [|done]. apply Forall_app. split; [done|].
    repeat constructor. eexists. split; [done|]. apply program_in_contract.
  - eapply advance_in_contract in Ha as [Hnext Hev];
      [|by eapply Forall_lookup_1].
    split; [by apply Forall_insert|].
    destruct (observe _ _ _); simpl; [by constructor|done].
Qed.

Lemma itrace_in_contract w0 tr w :
  flights w0 = [] → itrace settings w0 tr w →
  Forall flight_in_contract (flights w) ∧ Forall served_in_contract tr.
Proof.
  intros H0. induction 1 as [|tr w ev w' _ [IHf IHt] Hstep];
    [by rewrite H0|by eapply istep_in_contract].
Qed.

(** Of a login: the tokens are those of a row that passed the credential
    gate at the moment of the query, each signed at a reading of the
    clock. *)
Lemma interleaved_login_passed_gate w0 tr w now authorization username
    password info :
  flights w0 = [] → itrace settings w0 tr w →
  Served now (ReqLogin authorization username password)
    (RespToken (Ok info)) ∈ tr →
  ∃ user t t',
    UserStore.username user = username ∧
    validate_password password (UserStore.password user) = true ∧
    active user = true ∧ info = auth_user_issue_jwt settings t t' user.
Proof.
  intros H0 [_ Htr]%itrace_in_contract Hin; [|done].
  apply (proj1 (Forall_forall _ _) Htr) in Hin
    as (user & t & t' & (? & ? & ?) & ->).
  by exists user, t, t'.
Qed.

(** ** Theorems *)


End contracts.

(** ** The theorem at the demonstration table *)

