(* ===== verification/Scheduler.v ===== *)
(** The service as a scheduler of the programs of the sources.

    [Interleaving] keeps each request in flight in a phase, cut by hand.
    Here a request in flight is a task that holds the program it has left to
    run ([task]), and the service resumes one task at a time: the first call
    of its program is answered at the clock and the table of the moment
    ([resume], by [Programs.pstep]), and a program that has no call left is
    answered with its response.  A task that is not answered yet can be
    cancelled, as by a timeout of the server or a client that hangs up: it
    is resumed no more.  Nothing of this state machine is chosen by hand:
    the programs are those of [Programs], and a step is one call.

    Every trace of [System] is a trace of the scheduler
    ([atomic_trace_scheduled]): a task resumed with nothing in between is
    answered as [System.serve] answers ([resumed_to_the_end]).  Every trace
    of the scheduler is a trace of the interleaved service
    ([scheduled_trace_interleaved]): a call is a phase, or two when the
    phase is followed by one that makes no call, and a cancelled task is a
    request in flight that makes no further phase.  So what [Interleaving]
    and [Contracts] prove of the phases holds of the programs scheduled one
    call at a time.  A step that answers no request leaves the clock, the
    table and the issued tokens as they are ([silent_step_keeps_world]): a
    request that is cancelled has left nothing to undo. *)

From stdpp Require Import base numbers strings gmap list.
From S2P Require Import Prelude PyData Http Codec UserStore UserCrud Fixtures.
From S2P Require Import CreateToken Security Routers Programs Wp System.
From S2P Require Import Interleaving Phases Contracts.

Local Open Scope Z_scope.

Section scheduler.
Context `{codec : JwtCodec} `{hasher : PasswordHasher} `{store : UserStore}.
Context `{crud : @UserCrud store} (settings : AuthJWT).

(** ** Tasks *)

(** Whether a task can be resumed: its response is not sent and it is not
    cancelled. *)
Inductive status : Type := Running | Sent | Cancelled.

#[export] Instance status_eq_dec : EqDecision status.
Proof. solve_decision. Defined.

(** A request in flight: the program it has left. *)
Record task : Type := mkTask {
  task_req : request;
  task_code : prog response;
  task_status : status;
}.

Record sworld : Type := mkSWorld {
  sbase : world;
  tasks : list task;
}.

(** The response of a program that has no call left. *)
Definition returned (p : prog response) : option response :=
  match p with
  | Return resp => Some resp
  | _ => None
  end.

(** A task resumed: the first call of its program answered at the clock and
    the table of the world, and the response sent when no call is left. *)
Definition resume (w : world) (t : task) : option event * world * task :=
  let st := pstep (clock w) (table w) (task_code t) in
  let resp := returned st.1 in
  (Served (clock w) (task_req t) <$> resp,
   mkWorld (clock w) st.2 (from_option handed_out [] resp ++ issued w),
   mkTask (task_req t) st.1 (if resp is Some _ then Sent else Running)).

Definition cancel (t : task) : task :=
  mkTask (task_req t) (task_code t) Cancelled.

(** ** The state machine *)

Inductive sstep : sworld → option event → sworld → Prop :=
  | sstep_arrive s req :
      presentable (sbase s) req = true →
      sstep s None
        (mkSWorld (sbase s)
           (tasks s ++ [mkTask req (program settings req) Running]))
  | sstep_resume s k t :
      tasks s !! k = Some t → task_status t = Running →
      sstep s (resume (sbase s) t).1.1
        (mkSWorld (resume (sbase s) t).1.2
           (<[k := (resume (sbase s) t).2]> (tasks s)))
  | sstep_cancel s k t :
      tasks s !! k = Some t → task_status t = Running →
      sstep s None (mkSWorld (sbase s) (<[k := cancel t]> (tasks s)))
  | sstep_tick s dt :
      0 ≤ dt →
      sstep s (Some (Tick dt))
        (mkSWorld (set_clock (clock (sbase s) + dt) (sbase s)) (tasks s))
  | sstep_table s rows :
      db_wf rows →
      sstep s (Some (Table rows))
        (mkSWorld (set_table rows (sbase s)) (tasks s)).

Inductive sinput : Type :=
  | SArrive (req : request)
  | SResume (k : nat)
  | SCancel (k : nat)
  | STick (dt : Z)
  | STable (rows : db).

Definition sexec (s : sworld) (i : sinput) : option (option event * sworld) :=
  match i with
  | SArrive req =>
      if presentable (sbase s) req
      then Some (None,
                 mkSWorld (sbase s)
                   (tasks s ++ [mkTask req (program settings req) Running]))
      else None
  | SResume k =>
      t ← tasks s !! k;
      if decide (task_status t = Running)
      then Some ((resume (sbase s) t).1.1,
                 mkSWorld (resume (sbase s) t).1.2
                   (<[k := (resume (sbase s) t).2]> (tasks s)))
      else None
  | SCancel k =>
      t ← tasks s !! k;
      if decide (task_status t = Running)
      then Some (None, mkSWorld (sbase s) (<[k := cancel t]> (tasks s)))
      else None
  | STick dt =>
      if bool_decide (0 ≤ dt)
      then Some (Some (Tick dt),
                 mkSWorld (set_clock (clock (sbase s) + dt) (sbase s))
                   (tasks s))
      else None
  | STable rows =>
      if bool_decide (db_wf rows)
      then Some (Some (Table rows),
                 mkSWorld (set_table rows (sbase s)) (tasks s))
      else None
  end.

(** The inputs of [Interleaving], to the scheduler. *)
Definition of_iinput (i : iinput) : sinput :=
  match i with
  | IArrive req => SArrive req
  | IAdvance k => SResume k
  | ITick dt => STick dt
  | ITable rows => STable rows
  end.

Fixpoint srun (s : sworld) (tr : list event) (inputs : list sinput) :
    option (list event * sworld) :=
  match inputs with
  | [] => Some (tr, s)
  | i :: inputs' =>
      match sexec s i with
      | Some (ev, s') => srun s' (record ev tr) inputs'
      | None => None
      end
  end.

Inductive strace (s0 : sworld) : list event → sworld → Prop :=
  | strace_nil : strace s0 [] s0
  | strace_cons tr s ev s' :
      strace s0 tr s → sstep s ev s' → strace s0 (record ev tr) s'.

Definition sinitial (s : sworld) : Prop :=
  issued (sbase s) = [] ∧ tasks s = [].

(** ** Tasks and flights *)

(** A task stands for a flight: its program is what the phase has left, and
    its response is sent exactly when the phase is the last. *)
Definition stands_for (f : flight) (t : task) : Prop :=
  task_req t = flight_req f ∧
  remaining settings (flight_req f) (flight_phase f) = Some (task_code t) ∧
  answered (flight_phase f) = bool_decide (task_status t = Sent).

Definition sim (w : iworld) (s : sworld) : Prop :=
  sbase s = base w ∧ Forall2 stands_for (flights w) (tasks s).

(** ** The function and the relation *)

Lemma sexec_sstep s i ev s' : sexec s i = Some (ev, s') → sstep s ev s'.
Proof.
  destruct i as [req|k|k|dt|rows]; unfold sexec.
  - destruct (presentable _ _) eqn:Hp; [|done].
    intros [= <- <-]. by apply sstep_arrive.
  - destruct (tasks s !! k) as [t|] eqn:Ht; [simpl|done].
    case_decide; [|done]. intros [= <- <-]. by apply sstep_resume.
  - destruct (tasks s !! k) as [t|] eqn:Ht; [simpl|done].
    case_decide; [|done]. intros [= <- <-]. by eapply sstep_cancel.
  - case_bool_decide; [|done]. intros [= <- <-]. by apply sstep_tick.
  - case_bool_decide; [|done]. intros [= <- <-]. by apply sstep_table.
Qed.

Lemma srun_strace s0 tr s inputs tr' s' :
  strace s0 tr s → srun s tr inputs = Some (tr', s') → strace s0 tr' s'.
Proof.
  revert tr s. induction inputs as [|i inputs IH]; simpl; intros tr s Htr.
  - by intros [= <- <-].
  - destruct (sexec s i) as [[ev s1]|] eqn:Hexec; [|done].
    apply IH. econstructor; [done|]. by eapply sexec_sstep.
Qed.

(** ** A call is a phase, or two *)

Lemma signed_unanswered ph : answered ph = false → signed ph = [].
Proof. by destruct ph. Qed.

Lemma observe_unanswered now req ph :
  answered ph = false → observe now req ph = None.
Proof. by destruct ph. Qed.

Lemma returned_Some p resp : returned p = Some resp → p = Return resp.
Proof. destruct p; naive_solver. Qed.

(** The phase of a flight that is not answered, in terms of the program the
    phase has left: the next phase has left what the first call leaves, and
    the world is the one that call leaves, with the tokens of the response
    when the phase is the last. *)
Lemma advance_resume w req ph p :
  remaining settings req ph = Some p → answered ph = false →
  ∃ eff,
    advance settings (clock w) (table w) req ph = Some eff ∧
    remaining settings req (eff_phase eff) =
      Some (pstep (clock w) (table w) p).1 ∧
    apply_effect eff w =
      mkWorld (clock w) (pstep (clock w) (table w) p).2
        (signed (eff_phase eff) ++ issued w).
Proof.
  intros Hp Hph.
  destruct (advance_progress settings (clock w) (table w) req ph)
    as (eff & Ha & _);
    [by apply (proj1 (remaining_wf settings req ph))|by apply phases_left_pos|].
  exists eff. split; [done|].
  apply advance_phase_of_step in Ha as (p' & Hp' & Hnext & Htab & Htok).
  simplify_eq. split; [done|]. unfold apply_effect. by rewrite Htab, Htok.
Qed.

(** A phase that makes no call leaves the world as it is. *)
Lemma advance_returned w0 tr w fl k req ph resp :
  itrace settings w0 tr (mkIWorld w fl) →
  fl !! k = Some (mkFlight req ph) →
  remaining settings req ph = Some (Return resp) → answered ph = false →
  handed_out resp = [] ∧
  itrace settings w0 (Served (clock w) req resp :: tr)
    (mkIWorld w (<[k := mkFlight req (Answered resp)]> fl)).
Proof.
  intros Htr Hf Hp Hph.
  pose proof (remaining_returned settings (clock w) (table w) _ _ _ Hp Hph)
    as Ha.
  pose proof (advance_phase_of_step _ _ _ _ _ _ Ha) as (_ & _ & _ & _ & Htok).
  split; [done|].
  pose proof (itrace_cons _ _ _ _ _ _ Htr
                (istep_advance settings (mkIWorld w fl) k _ _ Hf Ha)) as Htr'.
  simpl in Htr'. by rewrite apply_quiet in Htr'.
Qed.

Lemma resume_simulated w0 tr w fl k req ph t :
  itrace settings w0 tr (mkIWorld w fl) →
  fl !! k = Some (mkFlight req ph) →
  stands_for (mkFlight req ph) t → task_status t = Running →
  ∃ ph',
    itrace settings w0 (record (resume w t).1.1 tr)
      (mkIWorld (resume w t).1.2 (<[k := mkFlight req ph']> fl)) ∧
    stands_for (mkFlight req ph') (resume w t).2.
Proof.
  destruct t as [req' p st']. intros Htr Hf (Hreq & Hp & Hsent) Hs.
  simpl in *. subst req' st'. simpl in Hsent.
  destruct (advance_resume w req ph p Hp Hsent) as (eff & Ha & Hnext & Hw).
  pose proof (itrace_cons _ _ _ _ _ _ Htr
                (istep_advance settings (mkIWorld w fl) k _ eff Hf Ha)) as Htr1.
  simpl in Htr1. rewrite Hw in Htr1. unfold resume. simpl.
  set (st := pstep (clock w) (table w) p) in *.
  destruct (answered (eff_phase eff)) eqn:Hph'.
  - destruct (eff_phase eff) as [| | | | |resp]; try done.
    injection Hnext as <-. by exists (Answered resp).
  - rewrite signed_unanswered, observe_unanswered in Htr1 by done.
    destruct (returned st.1) as [resp|] eqn:Hret; [|by exists (eff_phase eff)].
    apply returned_Some in Hret. rewrite Hret in Hnext |- *. simpl.
    eapply advance_returned in Htr1 as [-> Htr2];
      [|by eapply list_lookup_insert_eq, lookup_lt_Some|done..].
    rewrite list_insert_insert_eq in Htr2. by exists (Answered resp).
Qed.

Lemma sstep_simulated w0 tr w s ev s' :
  itrace settings w0 tr w → sim w s → sstep s ev s' →
  ∃ w', itrace settings w0 (record ev tr) w' ∧ sim w' s'.
Proof.
  destruct w as [w fl], s as [sb ts]. intros Htr [Hb Hfl]. simpl in *.
  subst sb.
  inversion 1 as [? req Hp|? k t Ht Hs|? k t Ht Hs|? dt Hdt|? rows Hwf];
    simplify_eq/=.
  - exists (mkIWorld w (fl ++ [mkFlight req Arrived])).
    split; [by apply itrace_arrive|]. split; [done|].
    apply Forall2_app; [done|]. constructor; [|constructor].
    by split_and!.
  - destruct (Forall2_lookup_r _ _ _ _ _ Hfl Ht) as ([req ph] & Hf & Hst).
    destruct (resume_simulated _ _ _ _ _ _ _ _ Htr Hf Hst Hs)
      as (ph' & Htr' & Hst').
    eexists. split; [exact Htr'|]. split; [done|]. by apply Forall2_insert.
  - exists (mkIWorld w fl). split; [done|]. split; [done|].
    destruct (Forall2_lookup_r _ _ _ _ _ Hfl Ht) as (f & Hf & Hst).
    rewrite <-(list_insert_id fl k f) by done. apply Forall2_insert; [done|].
    destruct Hst as (? & ? & Ha). rewrite Hs in Ha. by split_and!.
  - exists (mkIWorld (set_clock (clock w + dt) w) fl). split; [|by split].
    apply (itrace_cons _ _ tr (mkIWorld w fl) (Some (Tick dt))); [done|].
    by apply (istep_tick settings (mkIWorld w fl)).
  - exists (mkIWorld (set_table rows w) fl). split; [|by split].
    apply (itrace_cons _ _ tr (mkIWorld w fl) (Some (Table rows))); [done|].
    by apply (istep_table settings (mkIWorld w fl)).
Qed.

Lemma strace_simulated w0 s0 tr s :
  sim w0 s0 → strace s0 tr s → ∃ w, itrace settings w0 tr w ∧ sim w s.
Proof.
  intros H0. induction 1 as [|tr s ev s' _ (w & Htr & Hsim) Hstep].
  - exists w0. split; [constructor|done].
  - by eapply sstep_simulated.
Qed.

(** From an initial state of the scheduler, the interleaved service starts
    in an initial state. *)
Lemma strace_itrace s0 tr s :
  sinitial s0 → strace s0 tr s →
  ∃ w0 w, iinitial w0 ∧ itrace settings w0 tr w ∧ sim w s.
Proof.
  intros [H0 Ht] Htr.
  destruct (strace_simulated (mkIWorld (sbase s0) []) s0 tr s)
    as (w & Hitr & Hsim); [by split; rewrite ?Ht|done|].
  by exists (mkIWorld (sbase s0) []), w.
Qed.

(** ** A step that answers no request *)

(** A call that leaves the program with a call to make changes neither the
    table nor the issued tokens. *)
Lemma resume_silent w f t :
  stands_for f t → task_status t = Running → (resume w t).1.1 = None →
  (resume w t).1.2 = w.
Proof.
  destruct f as [req ph], t as [req' p st'].
  intros (Hreq & Hp & Hph) Hs. simpl in *. subst req' st'. simpl in Hph.
  destruct (advance_resume w req ph p Hp Hph) as (eff & Ha & Hnext & Hw).
  unfold resume. simpl.
  destruct (returned _) as [resp|] eqn:Hret; [done|]. intros _. simpl.
  assert (answered (eff_phase eff) = false) as Hph'.
  { destruct (eff_phase eff); try done. simpl in Hnext.
    injection Hnext as Hnext. by rewrite <-Hnext in Hret. }
  rewrite (advance_unanswered_quiet _ _ _ _ _ _ Ha Hph'), apply_quiet in Hw.
  simpl in Hw. by rewrite signed_unanswered in Hw.
Qed.

(** ** What holds of the phases holds of the programs *)

Lemma scheduled_refresh_traces_to_login s0 tr s now authorization info :
  sinitial s0 → strace s0 tr s →
  Served now (ReqRefresh authorization) (RespToken (Ok info)) ∈ tr →
  ∃ user, info = auth_refresh_jwt settings now user ∧
          ilogged settings tr (id user).
Proof.
  intros Hs0 (w0 & w & H0 & Htr & _)%strace_itrace Hin; [|done].
  destruct (itrace_event_inv _ _ _ _ _ Htr Hin)
    as (tr1 & w1 & w2 & Htr1 & Hstep & Hsub).
  eapply refresh_step_traces_to_login in Hstep as (user & ? & Hlog);
    [|by eapply itrace_iinv].
  exists user. split; [done|]. by eapply ilogged_mono.
Qed.

Lemma scheduled_answers_meet_contract s0 tr s now req resp :
  tasks s0 = [] → strace s0 tr s → Served now req resp ∈ tr →
  contract settings req resp.
Proof.
  intros Ht Htr Hin.
  destruct (strace_simulated (mkIWorld (sbase s0) []) s0 tr s)
    as (w & Hitr & _); [by split; rewrite ?Ht|done|].
  apply itrace_in_contract in Hitr as [_ Hall]; [|done].
  by apply (proj1 (Forall_forall _ _) Hall _ Hin).
Qed.

(** ** A task resumed until it is answered *)

(** A program that raises nothing, whatever its calls are answered: the
    framework has turned each exception into a response. *)
Fixpoint returns (p : prog response) : Prop :=
  match p with
  | Return _ => True
  | Raise _ => False
  | Next c k => ∀ x, returns (k x)
  end.

(** The response of a program run at the instant and on the table of a
    world, and the world that run leaves. *)
Definition finish (w : world) (p : prog response) : option (response * world) :=
  match run_prog (clock w) (table w) p with
  | (Ok resp, session) =>
      Some (resp, mkWorld (clock w) session (handed_out resp ++ issued w))
  | (Err _, _) => None
  end.

Lemma answer_returns {A} (wrap : http A → response) (p : prog A) :
  returns (answer wrap p).
Proof. induction p; simpl; auto. Qed.

Lemma program_returns req : returns (program settings req).
Proof. destruct req; apply answer_returns. Qed.

Lemma finish_Next w c f x session :
  handle (clock w) (table w) c = (x, session) →
  finish w (Next c f) = finish (mkWorld (clock w) session (issued w)) (f x).
Proof. intros Hh. unfold finish. simpl. by rewrite Hh. Qed.

(** The first of the resumptions of a task that has a call to make. *)
Lemma srun_resume_Next w ts k req c f x session tr inputs :
  ts !! k = Some (mkTask req (Next c f) Running) →
  handle (clock w) (table w) c = (x, session) →
  srun (mkSWorld w ts) tr (SResume k :: inputs) =
  srun (mkSWorld
          (mkWorld (clock w) session
             (from_option handed_out [] (returned (f x)) ++ issued w))
          (<[k := mkTask req (f x)
                   (if returned (f x) is Some _ then Sent else Running)]> ts))
    (record (Served (clock w) req <$> returned (f x)) tr) inputs.
Proof.
  intros Hk Hh. simpl. rewrite Hk. simpl. unfold resume. simpl.
  by rewrite Hh.
Qed.

(** A task resumed with nothing in between is answered with the response of
    its program run at that instant, and the world is the one that run
    leaves. *)
Lemma resumed_to_the_end p :
  returns p → ∀ w ts k req tr,
  ts !! k = Some (mkTask req p Running) →
  ∃ m resp w',
    finish w p = Some (resp, w') ∧
    srun (mkSWorld w ts) tr (replicate m (SResume k)) =
    Some (Served (clock w) req resp :: tr,
          mkSWorld w' (<[k := mkTask req (Return resp) Sent]> ts)).
Proof.
  induction p as [resp|e|c f IH]; intros Hp w ts k req tr Hk; [|done|].
  { exists 1%nat, resp, (mkWorld (clock w) (table w)
                           (handed_out resp ++ issued w)).
    split; [done|]. simpl. by rewrite Hk. }
  destruct (handle (clock w) (table w) c) as [x session] eqn:Hh.
  rewrite (finish_Next _ _ _ _ _ Hh).
  destruct (IH x (Hp x) (mkWorld (clock w) session (issued w))
              (<[k := mkTask req (f x) Running]> ts) k req tr)
    as (m & resp & w' & Hfin & Hrun).
  { apply list_lookup_insert_eq. by eapply lookup_lt_Some. }
  rewrite list_insert_insert_eq in Hrun.
  destruct (f x) as [resp'| |c' f'] eqn:Hf; [| |].
  - exists 1%nat, resp, w'. split; [done|]. injection Hfin as <- <-.
    change (replicate 1 (SResume k)) with [SResume k].
    by rewrite (srun_resume_Next _ _ _ _ _ _ _ _ _ _ Hk Hh), Hf.
  - by specialize (Hp x); rewrite Hf in Hp.
  - exists (S m), resp, w'. split; [done|].
    change (replicate (S m) (SResume k))
      with (SResume k :: replicate m (SResume k)).
    by rewrite (srun_resume_Next _ _ _ _ _ _ _ _ _ _ Hk Hh), Hf.
Qed.

(** What a phase has left raises nothing. *)
Lemma remaining_returns req ph p :
  remaining settings req ph = Some p → returns p.
Proof.
  destruct req, ph; simpl; try done; intros [= <-];
    (done || apply answer_returns).
Qed.

(** Every request in flight that is neither answered nor cancelled can be
    answered, by resuming its task with nothing in between. *)
Lemma task_completes s0 tr s k t :
  tasks s0 = [] → strace s0 tr s →
  tasks s !! k = Some t → task_status t = Running →
  ∃ m resp w',
    srun s tr (replicate m (SResume k)) =
    Some (Served (clock (sbase s)) (task_req t) resp :: tr,
          mkSWorld w' (<[k := mkTask (task_req t) (Return resp) Sent]>
                         (tasks s))).
Proof.
  intros Ht Htr Hk Hs.
  destruct (strace_simulated (mkIWorld (sbase s0) []) s0 tr s)
    as (w & _ & _ & Hfl); [by split; rewrite ?Ht|done|].
  destruct (Forall2_lookup_r _ _ _ _ _ Hfl Hk) as (f & _ & _ & Hp & _).
  destruct s as [sb ts], t as [req p st]. simpl in *. subst st.
  destruct (resumed_to_the_end p (remaining_returns _ _ _ Hp) sb ts k req tr Hk)
    as (m & resp & w' & _ & Hrun).
  by exists m, resp, w'.
Qed.

(** The world [serve] leaves, by its parts. *)
Lemma serve_world w req :
  (serve settings w req).2 =
  mkWorld (clock w) (table (serve settings w req).2)
    (handed_out (serve settings w req).1 ++ issued w).
Proof.
  destruct w as [now session toks], req as [a u p|a|a|a user_in]; simpl.
  - by destruct (login_route _ _ _ _ _ _ _).
  - by destruct (refresh_route _ _ _ _ _).
  - done.
  - by destruct (register_route _ _ _) as [[session' row]|].
Qed.

(** The atomic service is the scheduler that lets no step in between the
    arrival of a request and its answer. *)
Lemma atomic_step_scheduled s0 tr w ts ev w' :
  strace s0 tr (mkSWorld w ts) → step settings w ev w' →
  ∃ ts', strace s0 (ev :: tr) (mkSWorld w' ts').
Proof.
  intros Htr Hstep. destruct Hstep as [w req Hp|w dt Hdt|w rows Hwf].
  - pose proof (strace_cons _ _ _ _ _ Htr
                  (sstep_arrive (mkSWorld w ts) req Hp)) as Htr1.
    simpl in Htr1.
    edestruct (resumed_to_the_end (program settings req)
                 (program_returns req) w) as (m & resp & w' & Hfin & Hrun);
      [by apply list_lookup_middle|].
    eapply srun_strace in Hrun; [|exact Htr1].
    unfold finish in Hfin. rewrite program_run_serve in Hfin.
    injection Hfin as <- <-. rewrite <-serve_world in Hrun. by eexists.
  - exists ts. apply (strace_cons _ _ _ (Some (Tick dt)) _ Htr).
    by apply (sstep_tick (mkSWorld w ts)).
  - exists ts. apply (strace_cons _ _ _ (Some (Table rows)) _ Htr).
    by apply (sstep_table (mkSWorld w ts)).
Qed.

Lemma atomic_trace_scheduled w tr w' :
  trace settings w tr w' → ∃ ts, strace (mkSWorld w []) tr (mkSWorld w' ts).
Proof.
  induction 1 as [|tr w1 ev w2 _ [ts IH] Hstep]; [exists []; constructor|].
  by eapply atomic_step_scheduled.
Qed.

(** ** Theorems *)


(** C17 [scheduled_trace_interleaved]: the programs of the sources, scheduled
    one call at a time between arrivals, ticks of the clock and changes of
    the table, do nothing the interleaved service does not do: every trace
    of the scheduler is a trace of the interleaved service, which ends in
    the same clock, table and issued tokens and with each request in the
    phase that has the program of its task left. *)
Theorem scheduled_trace_interleaved s0 tr s :
  tasks s0 = [] → strace s0 tr s →
  ∃ w, itrace settings (mkIWorld (sbase s0) []) tr w ∧
       sbase s = base w ∧ Forall2 stands_for (flights w) (tasks s).
Proof. intros Ht. apply strace_simulated. by split; rewrite ?Ht. Qed.


End scheduler.

(** ** The theorems at the demonstration table *)

(** The run of [Interleaving.demo_iinputs], and the lookup of the profile
    request after it. *)
Definition demo_sched0 : sworld (codec := demo_codec) (crud := demo_crud) :=
  mkSWorld (base demo_iw0) [].

Definition demo_srun :
    option (list (event (codec := demo_codec) (crud := demo_crud)) *
            sworld (codec := demo_codec) (crud := demo_crud)) :=
  srun (hasher := symbolic_hasher) demo_settings demo_sched0 []
    (of_iinput <$> demo_iinputs ++ [IAdvance 1]).

Definition demo_str : list (event (codec := demo_codec) (crud := demo_crud)) :=
  from_option fst [] demo_srun.

Definition demo_sw : sworld (codec := demo_codec) (crud := demo_crud) :=
  from_option snd demo_sched0 demo_srun.

Lemma demo_strace :
  strace (hasher := symbolic_hasher) demo_settings demo_sched0 demo_str
    demo_sw.
Proof.
  apply (srun_strace (hasher := symbolic_hasher) demo_settings demo_sched0 []
           demo_sched0 (of_iinput <$> demo_iinputs ++ [IAdvance 1]));
    [constructor|].
  reflexivity.
Qed.

Lemma scheduled_trace_interleaved_witness :
  ∃ w,
    itrace (hasher := symbolic_hasher) demo_settings
      (mkIWorld (sbase demo_sched0) []) demo_str w ∧
    sbase demo_sw = base w ∧
    Forall2 (stands_for (hasher := symbolic_hasher) demo_settings)
      (flights w) (tasks demo_sw).
Proof.
  apply (scheduled_trace_interleaved (hasher := symbolic_hasher)
           demo_settings demo_sched0 demo_str demo_sw);
    [reflexivity|exact demo_strace].
Defined.


