(* ===== verification/Timing.v ===== *)
(** The service with requests in flight, on the clock.

    [Interleaving] lets any time pass between two phases of a request, so a
    token that was fresh when it was decoded may be long expired when the
    answer is built on it: there the lifetime bound of [Safety] does not hold.
    A server drops a request that is not answered in time.  Here each request
    in flight is stamped with the instant it arrived ([stamped]), and a phase
    runs only while the request is at most [threshold] seconds old
    ([not_timed_out]); the rest is [Interleaving] unchanged ([texec] is
    [iexec] under that test).

    The theorem is the lifetime bound with the latency in it: a profile is
    answered at most the refresh lifetime, the access lifetime and two
    thresholds after a login of its user (one threshold for the request that
    refreshed, one for the request that is answered).  The atomic service of
    [System] is the timed one for every threshold that is not negative, each
    request being served the instant it arrives: with a threshold of zero
    the bound is that of [Safety]. *)

From stdpp Require Import base numbers strings gmap list.
From S2P Require Import Prelude PyData Http Codec UserStore UserCrud Fixtures.
From S2P Require Import CreateToken Security Routers System Safety Interleaving.

Local Open Scope Z_scope.

Section timing.
Context `{codec : JwtCodec} `{hasher : PasswordHasher} `{store : UserStore}.
Context `{crud : @UserCrud store} (settings : AuthJWT).
Variable threshold : Z.

Local Notation "'refresh_seconds'" :=
  (86400 * refresh_token_expire_days settings).

(** ** Stamped requests *)

(** The interleaved service with the arrival time of each request in flight,
    in the order of [flights]. *)
Record stamped : Type := mkStamped {
  running : iworld;
  arrivals : list Z;
}.

Definition not_timed_out (now arrived : Z) : bool :=
  bool_decide (now ≤ arrived + threshold).

(** The stamps after an input: an arrival is stamped with the clock, a phase
    needs a request that has not timed out. *)
Definition stamp (now : Z) (i : iinput) (ats : list Z) : option (list Z) :=
  match i with
  | IArrive _ => Some (ats ++ [now])
  | IAdvance k =>
      arrived ← ats !! k;
      if not_timed_out now arrived then Some ats else None
  | ITick _ | ITable _ => Some ats
  end.

Definition texec (s : stamped) (i : iinput) :
    option (option event * stamped) :=
  ats ← stamp (clock (base (running s))) i (arrivals s);
  '(ev, w') ← iexec settings (running s) i;
  Some (ev, mkStamped w' ats).

Fixpoint trun (s : stamped) (tr : list event) (inputs : list iinput) :
    option (list event * stamped) :=
  match inputs with
  | [] => Some (tr, s)
  | i :: inputs' =>
      match texec s i with
      | Some (ev, s') => trun s' (record ev tr) inputs'
      | None => None
      end
  end.

Inductive ttrace (s0 : stamped) : list event → stamped → Prop :=
  | ttrace_nil : ttrace s0 [] s0
  | ttrace_cons tr s i ev s' :
      ttrace s0 tr s → texec s i = Some (ev, s') →
      ttrace s0 (record ev tr) s'.

Definition tinitial (s : stamped) : Prop :=
  iinitial (running s) ∧ arrivals s = [].

(** ** Where tokens come from, and when *)

(** A login of the user with key [i] was answered at [r]: its refresh token
    is signed at [r]. *)
Definition logged_at (tr : list event) (i r : Z) : Prop :=
  ∃ authorization username password t user,
    id user = i ∧
    Served r (ReqLogin authorization username password)
      (RespToken (Ok (auth_user_issue_jwt settings t r user))) ∈ tr.

(** An issued token: the refresh token of a login answered at [r], or an
    access token signed at most the refresh lifetime and a threshold after
    it. *)
Definition stamped_token (tr : list event) (now : Z) (tok : token) : Prop :=
  ∃ t r user,
    logged_at tr (id user) r ∧ r ≤ now ∧
    ((tok = create_access_token settings t user ∧
      t ≤ r + refresh_seconds + threshold) ∨
     tok = create_refresh_token settings r user).

(** What a request that arrived at [arrived] holds: claims that were decoded
    after it arrived; a user whose refresh token had not expired when it
    arrived. *)
Definition stamped_ok (tr : list event) (w : world) (arrived : Z)
    (f : flight) : Prop :=
  arrived ≤ clock w ∧
  match flight_phase f with
  | Decoded payload =>
      ∃ tok now,
        tok ∈ issued w ∧ decode_jwt now tok = Ok payload ∧ arrived ≤ now
  | Resolved user =>
      ∃ r, logged_at tr (id user) r ∧ r ≤ clock w ∧
           arrived ≤ r + refresh_seconds
  | _ => True
  end.

Definition stamps_ok (tr : list event) (w : world) (ats : list Z)
    (fl : list flight) : Prop :=
  (∀ tok, tok ∈ issued w → stamped_token tr (clock w) tok) ∧
  Forall2 (stamped_ok tr w) ats fl.

Definition tinv (tr : list event) (s : stamped) : Prop :=
  iinv settings tr (running s) ∧
  stamps_ok tr (base (running s)) (arrivals s) (flights (running s)).

(** What the timed service promises of an answer: a profile belongs to a
    user who logged in at most the refresh lifetime, the access lifetime and
    two thresholds earlier; an access token drawn from a refresh token is
    signed at most the refresh lifetime and one threshold after the login. *)
Definition in_time (tr : list event) (ev : event) : Prop :=
  match ev with
  | Served now (ReqMe _) (RespProfile (Ok d)) =>
      ∃ i r,
        dict_get d "id" = PyInt i ∧ logged_at tr i r ∧
        r ≤ now ≤ r + 86400 * refresh_token_expire_days settings
                    + 60 * access_token_expire_minutes settings
                    + 2 * threshold
  | Served now (ReqRefresh _) (RespToken (Ok info)) =>
      ∃ user r,
        info = auth_refresh_jwt settings now user ∧
        logged_at tr (id user) r ∧
        r ≤ now ≤ r + 86400 * refresh_token_expire_days settings + threshold
  | _ => True
  end.

(** Between two requests: every request in flight has its stamp. *)
Definition treached (s0 : stamped) (tr : list event) (w : world)
    (fl : list flight) : Prop :=
  ∃ ats,
    length ats = length fl ∧ ttrace s0 tr (mkStamped (mkIWorld w fl) ats).

(** While a request is served: [f] arrived last, at the present instant. *)
Definition tserving (s0 : stamped) (tr : list event) (w : world)
    (fl : list flight) (f : flight) : Prop :=
  ∃ ats,
    length ats = length fl ∧
    ttrace s0 tr (mkStamped (mkIWorld w (fl ++ [f])) (ats ++ [clock w])).

(** What a phase in time signs and leaves. *)
Definition timed_spec (tr : list event) (w : world) (arrived : Z)
    (req : request) (eff : effect) : Prop :=
  let tr' := record (observe (clock w) req (eff_phase eff)) tr in
  (∀ tok, tok ∈ eff_tokens eff → stamped_token tr' (clock w) tok) ∧
  stamped_ok tr' (apply_effect eff w) arrived (mkFlight req (eff_phase eff)).

(** ** The timed service is the interleaved one *)

Lemma texec_inv s i ev s' :
  texec s i = Some (ev, s') →
  stamp (clock (base (running s))) i (arrivals s) = Some (arrivals s') ∧
  iexec settings (running s) i = Some (ev, running s').
Proof.
  unfold texec. destruct (stamp _ _ _) as [ats|]; [simpl|done].
  destruct (iexec _ _ _) as [[ev' w']|]; [simpl|done]. by intros [= <- <-].
Qed.

Lemma ttrace_itrace s0 tr s :
  ttrace s0 tr s → itrace settings (running s0) tr (running s).
Proof.
  induction 1 as [|tr s i ev s' _ IH [_ Hexec]%texec_inv]; [constructor|].
  econstructor; [done|]. by eapply iexec_istep.
Qed.

Lemma trun_ttrace s0 tr s inputs tr' s' :
  ttrace s0 tr s → trun s tr inputs = Some (tr', s') → ttrace s0 tr' s'.
Proof.
  revert tr s. induction inputs as [|i inputs IH]; simpl; intros tr s Htr.
  - by intros [= <- <-].
  - destruct (texec s i) as [[ev s1]|] eqn:Hexec; [|done].
    apply IH. by econstructor.
Qed.

(** ** Monotonicity *)

Lemma logged_at_mono tr tr' i r : tr ⊆ tr' → logged_at tr i r → logged_at tr' i r.
Proof.
  intros Htr (a & u & p & t & user & ? & Hin). exists a, u, p, t, user. auto.
Qed.

Lemma logged_at_ilogged tr i r : logged_at tr i r → ilogged settings tr i.
Proof. intros (a & u & p & t & user & ? & ?). by exists r, a, u, p, t, user. Qed.

Lemma stamped_token_mono tr tr' now now' tok :
  tr ⊆ tr' → now ≤ now' → stamped_token tr now tok → stamped_token tr' now' tok.
Proof.
  intros Htr Hle (t & r & user & ? & ? & ?). exists t, r, user.
  split_and!; eauto using logged_at_mono with lia.
Qed.

Lemma stamped_ok_mono tr tr' w w' arrived f :
  grows tr tr' w w' → stamped_ok tr w arrived f → stamped_ok tr' w' arrived f.
Proof.
  intros (Htr & Hc & Hi) [Ha Hph]. split; [lia|].
  destruct (flight_phase f) as [| | |payload|user|]; try done.
  - destruct Hph as (tok & now & ? & ? & ?). exists tok, now. auto.
  - destruct Hph as (r & ? & ? & ?). exists r.
    split_and!; eauto using logged_at_mono with lia.
Qed.

(** ** The kinds of issued tokens *)

Lemma stamped_token_refresh tr now tok payload :
  stamped_token tr now tok → jwt_verify tok = Some payload →
  payload !! TOKEN_TYPE_FIELD = Some (PyStr REFRESH_TOKEN_TYPE) →
  ∃ r user,
    payload = refresh_claims settings r user ∧ logged_at tr (id user) r ∧
    r ≤ now.
Proof.
  intros (t & r & user & Hl & ? & [[-> ?]| ->]) Hv Ht.
  - rewrite jwt_verify_create_access_token in Hv. apply (inj Some) in Hv.
    subst payload. by rewrite access_claims_type in Ht.
  - rewrite jwt_verify_create_refresh_token in Hv. apply (inj Some) in Hv.
    by exists r, user.
Qed.

Lemma stamped_token_access tr now tok payload :
  stamped_token tr now tok → jwt_verify tok = Some payload →
  payload !! TOKEN_TYPE_FIELD = Some (PyStr ACCESS_TOKEN_TYPE) →
  ∃ t r user,
    payload = access_claims settings t user ∧ logged_at tr (id user) r ∧
    r ≤ now ∧ t ≤ r + refresh_seconds + threshold.
Proof.
  intros (t & r & user & Hl & ? & [[-> ?]| ->]) Hv Ht.
  - rewrite jwt_verify_create_access_token in Hv. apply (inj Some) in Hv.
    by exists t, r, user.
  - rewrite jwt_verify_create_refresh_token in Hv. apply (inj Some) in Hv.
    subst payload. by rewrite refresh_claims_type in Ht.
Qed.

(** The claims a request decodes are those of an issued token that had not
    expired at that instant. *)
Lemma decode_bearer_issued w now req authorization payload :
  authorization_of req = authorization → presentable w req = true →
  decode_bearer now authorization = Ok payload →
  ∃ tok, tok ∈ issued w ∧ decode_jwt now tok = Ok payload.
Proof.
  unfold presentable. intros -> Hp (scheme & tok & Ha & _ & Hd)%decode_bearer_Ok.
  rewrite Ha in Hp. pose proof Hd as [Hv _]%decode_jwt_Ok.
  exists tok. eauto using known_verified.
Qed.

(** ** One phase in time *)

Lemma logged_at_here now authorization username password t user tr :
  logged_at
    (Served now (ReqLogin authorization username password)
       (RespToken (Ok (auth_user_issue_jwt settings t now user))) :: tr)
    (id user) now.
Proof. exists authorization, username, password, t, user. by split; [|left]. Qed.

Section advance_timed.
Context (tr : list event) (w : world) (arrived : Z).
Hypothesis refresh_lifetime_nonneg : 0 ≤ refresh_token_expire_days settings.
Hypothesis issued_stamped :
  ∀ tok, tok ∈ issued w → stamped_token tr (clock w) tok.
Hypothesis in_time : clock w ≤ arrived + threshold.

Lemma timed_quiet req ph :
  stamped_ok tr w arrived (mkFlight req ph) →
  timed_spec tr w arrived req (quiet ph).
Proof.
  intros Hf. split; [by intros tok ?%elem_of_nil|].
  rewrite apply_quiet. eapply stamped_ok_mono; [apply grows_record|done].
Qed.

Lemma timed_decode req authorization payload :
  authorization_of req = authorization → presentable w req = true →
  arrived ≤ clock w →
  decode_bearer (clock w) authorization = Ok payload →
  timed_spec tr w arrived req (quiet (Decoded payload)).
Proof.
  intros Ha Hp Hle Hd. apply timed_quiet. split; [done|]. simpl.
  destruct (decode_bearer_issued _ _ _ _ _ Ha Hp Hd) as (tok & ? & ?).
  by exists tok, (clock w).
Qed.

Lemma advance_login_timed authorization username password ph eff :
  flight_ok settings tr w
    (mkFlight (ReqLogin authorization username password) ph) →
  stamped_ok tr w arrived
    (mkFlight (ReqLogin authorization username password) ph) →
  advance settings (clock w) (table w)
    (ReqLogin authorization username password) ph = Some eff →
  timed_spec tr w arrived (ReqLogin authorization username password) eff.
Proof.
  destruct ph as [|user|user access| | |]; simpl; intros Hf [Hle _] [= <-].
  - destruct (_ ≫= _) as [user|e]; by apply timed_quiet.
  - by apply timed_quiet.
  - destruct Hf as (t & Ht & ->). split; [|done]. simpl.
    intros tok [->|[->|[]%elem_of_nil]%elem_of_cons]%elem_of_cons;
      exists t, (clock w), user;
      (split_and!; [apply logged_at_here|lia|]); [left|by right].
    split; [done|lia].
Qed.

Lemma advance_refresh_timed authorization ph eff :
  flight_ok settings tr w (mkFlight (ReqRefresh authorization) ph) →
  stamped_ok tr w arrived (mkFlight (ReqRefresh authorization) ph) →
  advance settings (clock w) (table w) (ReqRefresh authorization) ph
    = Some eff →
  timed_spec tr w arrived (ReqRefresh authorization) eff.
Proof.
  destruct ph as [| | |payload|user|]; simpl; intros Hf [Hle Hph] [= <-].
  - destruct (decode_bearer _ _) as [payload|e] eqn:Hd;
      [|by apply timed_quiet].
    by apply (timed_decode (ReqRefresh authorization) authorization).
  - destruct (resolve_user _ _ _) as [user|e] eqn:Hr; apply timed_quiet;
      [|done]. split; [done|]. simpl.
    destruct Hph as (tok & now & Hin & Hd & ?).
    apply resolve_user_Ok in Hr as (Ht & Hs & _).
    pose proof Hd as [Hv _]%decode_jwt_Ok.
    destruct (stamped_token_refresh _ _ _ _ (issued_stamped _ Hin) Hv Ht)
      as (r & user' & -> & Hl & ?).
    apply decode_refresh_claims in Hd. rewrite refresh_claims_sub in Hs.
    injection Hs as Hid. rewrite Hid in Hl. exists r. split_and!; [done..|lia].
  - destruct Hph as (r & Hl & ? & ?). split; [|done]. simpl.
    intros tok [->|[]%elem_of_nil]%elem_of_cons.
    exists (clock w), r, user. split_and!; [|done|left; split; [done|lia]].
    eapply logged_at_mono; [apply record_subseteq|done].
Qed.

Lemma advance_me_timed authorization ph eff :
  flight_ok settings tr w (mkFlight (ReqMe authorization) ph) →
  stamped_ok tr w arrived (mkFlight (ReqMe authorization) ph) →
  advance settings (clock w) (table w) (ReqMe authorization) ph = Some eff →
  timed_spec tr w arrived (ReqMe authorization) eff.
Proof.
  destruct ph as [| | |payload| |]; simpl; intros Hf [Hle Hph] [= <-].
  - destruct (decode_bearer _ _) as [payload|e] eqn:Hd;
      [|by apply timed_quiet].
    by apply (timed_decode (ReqMe authorization) authorization).
  - by apply timed_quiet.
Qed.

Lemma advance_register_timed authorization user_in ph eff :
  stamped_ok tr w arrived (mkFlight (ReqRegister authorization user_in) ph) →
  advance settings (clock w) (table w) (ReqRegister authorization user_in) ph
    = Some eff →
  timed_spec tr w arrived (ReqRegister authorization user_in) eff.
Proof.
  destruct ph; simpl; intros [Hle _] [= <-].
  destruct (register_route _ _ _) as [[session row]|];
    (split; [by intros tok ?%elem_of_nil|done]).
Qed.

Lemma advance_timed req ph eff :
  flight_ok settings tr w (mkFlight req ph) →
  stamped_ok tr w arrived (mkFlight req ph) →
  advance settings (clock w) (table w) req ph = Some eff →
  timed_spec tr w arrived req eff.
Proof.
  destruct req; eauto using advance_login_timed, advance_refresh_timed,
    advance_me_timed, advance_register_timed.
Qed.

End advance_timed.

(** ** The invariant *)

Lemma not_timed_out_true now arrived :
  not_timed_out now arrived = true ↔ now ≤ arrived + threshold.
Proof. apply bool_decide_eq_true. Qed.

(** A phase of the timed service is a phase of a request that has not timed
    out. *)
Lemma texec_advance_inv s k ev s' :
  texec s (IAdvance k) = Some (ev, s') →
  ∃ arrived f eff,
    arrivals s !! k = Some arrived ∧
    clock (base (running s)) ≤ arrived + threshold ∧
    flights (running s) !! k = Some f ∧
    advance settings (clock (base (running s))) (table (base (running s)))
      (flight_req f) (flight_phase f) = Some eff ∧
    ev = observe (clock (base (running s))) (flight_req f) (eff_phase eff) ∧
    s' = mkStamped
           (mkIWorld (apply_effect eff (base (running s)))
              (<[k := mkFlight (flight_req f) (eff_phase eff)]>
                 (flights (running s))))
           (arrivals s).
Proof.
  unfold texec. simpl.
  destruct (arrivals s !! k) as [arrived|] eqn:Hat; [simpl|done].
  destruct (not_timed_out _ _) eqn:Hin; [simpl|done].
  apply not_timed_out_true in Hin.
  destruct (flights (running s) !! k) as [f|] eqn:Hf; [simpl|done].
  destruct (advance _ _ _ _ _) as [eff|] eqn:Ha; [simpl|done].
  intros [= <- <-]. by exists arrived, f, eff.
Qed.

Lemma stamps_ok_grows tr tr' w w' ats fl :
  grows tr tr' w w' → issued w' = issued w → stamps_ok tr w ats fl →
  stamps_ok tr' w' ats fl.
Proof.
  intros Hg Hi [Hm Hf]. pose proof Hg as (? & ? & _). split.
  - rewrite Hi. eauto using stamped_token_mono.
  - eapply Forall2_impl; [done|]. eauto using stamped_ok_mono.
Qed.

Lemma stamps_ok_arrive tr w ats fl req :
  stamps_ok tr w ats fl →
  stamps_ok tr w (ats ++ [clock w]) (fl ++ [mkFlight req Arrived]).
Proof.
  intros [Hm Hf]. split; [done|]. apply Forall2_app; [done|].
  by repeat constructor.
Qed.

Section stamps_ok_advance.
Hypothesis refresh_lifetime_nonneg : 0 ≤ refresh_token_expire_days settings.

Lemma stamps_ok_advance tr w ats fl k arrived req ph eff :
  iinv settings tr (mkIWorld w fl) → stamps_ok tr w ats fl →
  ats !! k = Some arrived → fl !! k = Some (mkFlight req ph) →
  clock w ≤ arrived + threshold →
  advance settings (clock w) (table w) req ph = Some eff →
  stamps_ok (record (observe (clock w) req (eff_phase eff)) tr)
    (apply_effect eff w) ats (<[k := mkFlight req (eff_phase eff)]> fl).
Proof.
  intros [_ Hfl] [Hm Hs] Hat Hf Hin Ha.
  destruct (advance_timed tr w arrived refresh_lifetime_nonneg Hm Hin
              req ph eff) as [Ht Hok];
    [by eapply Forall_lookup_1|by eapply Forall2_lookup_lr|done|].
  pose proof (grows_effect (observe (clock w) req (eff_phase eff)) tr eff w)
    as Hg.
  split; simpl.
  - intros tok [?|?]%elem_of_app; [auto|].
    eapply stamped_token_mono; [apply record_subseteq|done|auto].
  - rewrite <-(list_insert_id ats k arrived) by done.
    apply Forall2_insert; [|done].
    eapply Forall2_impl; [done|]. eauto using stamped_ok_mono.
Qed.

Lemma texec_tinv tr s i ev s' :
  tinv tr s → texec s i = Some (ev, s') → tinv (record ev tr) s'.
Proof.
  intros [Hi Hs] Hexec. split.
  { apply texec_inv in Hexec as [_ Hexec].
    eapply istep_iinv; [done|]. by eapply iexec_istep. }
  destruct s as [[w fl] ats], i as [req|k|dt|rows]; simpl in *.
  - unfold texec in Hexec. simpl in Hexec.
    destruct (presentable w req); [|done]. injection Hexec as <- <-.
    by apply stamps_ok_arrive.
  - apply texec_advance_inv in Hexec
      as (arrived & [req ph] & eff & ? & ? & ? & ? & -> & ->).
    by eapply stamps_ok_advance.
  - unfold texec in Hexec. simpl in Hexec.
    case_bool_decide; [|done]. injection Hexec as <- <-.
    by eapply stamps_ok_grows; [apply grows_tick| |].
  - unfold texec in Hexec. simpl in Hexec.
    case_bool_decide; [|done]. injection Hexec as <- <-.
    by eapply stamps_ok_grows; [apply grows_table| |].
Qed.

Lemma ttrace_tinv s0 tr s : tinitial s0 → ttrace s0 tr s → tinv tr s.
Proof.
  intros [[H0 Hf] Hat]. induction 1 as [|tr s i ev s' _ IH Hexec];
    [|by eapply texec_tinv].
  split; [by apply (itrace_iinv _ (running s0)); [|constructor]|]. split.
  - intros tok. rewrite H0. by intros ?%elem_of_nil.
  - rewrite Hat, Hf. constructor.
Qed.

End stamps_ok_advance.

(** An answer of the timed service is the last phase of a request that has
    not timed out. *)
Lemma texec_served_inv s i now req resp s' :
  texec s i = Some (Some (Served now req resp), s') →
  now = clock (base (running s)) ∧
  ∃ k arrived ph eff,
    arrivals s !! k = Some arrived ∧
    clock (base (running s)) ≤ arrived + threshold ∧
    flights (running s) !! k = Some (mkFlight req ph) ∧
    advance settings (clock (base (running s))) (table (base (running s)))
      req ph = Some eff ∧
    eff_phase eff = Answered resp.
Proof.
  destruct i as [req'|k|dt|rows].
  - intros [_ Hexec]%texec_inv. simpl in Hexec.
    by destruct (presentable _ _).
  - intros (arrived & [req' ph] & eff & ? & ? & ? & ? & Hev & _)%texec_advance_inv.
    simpl in *. destruct (eff_phase eff) as [| | | | |resp'] eqn:Hph; try done.
    injection Hev as -> -> ->. split; [done|]. by exists k, arrived, ph, eff.
  - intros [_ Hexec]%texec_inv. simpl in Hexec. by case_bool_decide.
  - intros [_ Hexec]%texec_inv. simpl in Hexec. by case_bool_decide.
Qed.

(** The profile a request in time is answered with. *)
Lemma texec_profile_bound tr s i now authorization d s' :
  tinv tr s →
  texec s i
    = Some (Some (Served now (ReqMe authorization) (RespProfile (Ok d))), s') →
  ∃ user r,
    dict_get d "id" = PyInt (id user) ∧ logged_at tr (id user) r ∧
    r ≤ now ≤ r + 86400 * refresh_token_expire_days settings
                + 60 * access_token_expire_minutes settings + 2 * threshold.
Proof.
  intros [_ [Hm Hs]]
    (-> & k & arrived & ph & eff & Hat & Hin & Hf & Ha & Hph)%texec_served_inv.
  pose proof (Forall2_lookup_lr _ _ _ _ _ _ Hs Hat Hf) as [Hle Hok].
  destruct ph as [| | |payload| |]; simpl in Ha; try done;
    injection Ha as <-.
  { by destruct (decode_bearer _ _). }
  injection Hph as (user & (Ht & Hsub & _)%resolve_user_Ok & ->)%fmap_Ok_inv.
  destruct Hok as (tok & now & Hin' & Hd & ?).
  pose proof Hd as [Hv _]%decode_jwt_Ok.
  destruct (stamped_token_access _ _ _ _ (Hm _ Hin') Hv Ht)
    as (t & r & user' & -> & Hl & ? & ?).
  apply decode_access_claims in Hd. rewrite access_claims_sub in Hsub.
  injection Hsub as Hid. rewrite Hid in Hl.
  exists user, r. split_and!; [done|done|lia..].
Qed.

(** The access token a refresh in time is answered with: signed at most the
    refresh lifetime and one threshold after a login of its user. *)
Lemma texec_refresh_bound tr s i now authorization info s' :
  tinv tr s →
  texec s i
    = Some (Some (Served now (ReqRefresh authorization)
                    (RespToken (Ok info))), s') →
  ∃ user r,
    info = auth_refresh_jwt settings now user ∧ logged_at tr (id user) r ∧
    r ≤ now ≤ r + 86400 * refresh_token_expire_days settings + threshold.
Proof.
  intros [_ [Hm Hs]]
    (-> & k & arrived & ph & eff & Hat & Hin & Hf & Ha & Hph)%texec_served_inv.
  pose proof (Forall2_lookup_lr _ _ _ _ _ _ Hs Hat Hf) as [Hle Hok].
  destruct ph as [| | |payload|user|]; simpl in Ha; try done;
    injection Ha as <-.
  - by destruct (decode_bearer _ _).
  - by destruct (resolve_user _ _ _).
  - injection Hph as <-. destruct Hok as (r & ? & ? & ?).
    exists user, r. split_and!; [done..|lia].
Qed.

(** ** Theorems: the lifetime of a session, with the latency *)

Lemma in_time_mono tr tr' ev : tr ⊆ tr' → in_time tr ev → in_time tr' ev.
Proof.
  intros Hsub. destruct ev as [now [| | |] [[|]|[|]|]| |]; simpl; try done.
  - intros (user & r & ? & ? & ?). eauto 6 using logged_at_mono.
  - intros (i & r & ? & ? & ?). eauto 6 using logged_at_mono.
Qed.

Lemma texec_in_time tr s i ev s' :
  tinv tr s → texec s i = Some (Some ev, s') → in_time tr ev.
Proof.
  intros Hinv Hexec.
  destruct ev as [now [| | |] [[|]|[|]|]| |]; simpl; try done.
  - by eapply texec_refresh_bound.
  - destruct (texec_profile_bound _ _ _ _ _ _ _ Hinv Hexec)
      as (user & r & ? & ? & ?). by exists (id user), r.
Qed.

(** Every answer of a trace is in time. *)
Lemma ttrace_in_time s0 tr s ev :
  0 ≤ refresh_token_expire_days settings → tinitial s0 → ttrace s0 tr s →
  ev ∈ tr → in_time tr ev.
Proof.
  intros HR H0 Htr.
  induction Htr as [|tr s i ev' s' Htr IH Hexec]; [by intros ?%elem_of_nil|].
  intros [Hin|Hin]%elem_of_app;
    [|by eauto using in_time_mono, record_subseteq].
  destruct ev' as [ev'|]; [|by apply elem_of_nil in Hin].
  apply list_elem_of_singleton in Hin as <-.
  eauto using in_time_mono, record_subseteq, texec_in_time, ttrace_tinv.
Qed.

(** C21 [timely_session_lifetime_bound]: with requests interleaved and dropped
    when they are more than the threshold old, a profile is answered at most
    the refresh lifetime, the access lifetime and two thresholds after a
    login of its user was answered: one threshold for the request that drew
    the access token from the refresh token, one for the request that is
    answered with the profile. *)
Theorem timely_session_lifetime_bound s0 tr s now authorization d :
  0 ≤ refresh_token_expire_days settings → tinitial s0 → ttrace s0 tr s →
  Served now (ReqMe authorization) (RespProfile (Ok d)) ∈ tr →
  ∃ i r,
    dict_get d "id" = PyInt i ∧ logged_at tr i r ∧
    r ≤ now ≤ r + 86400 * refresh_token_expire_days settings
                + 60 * access_token_expire_minutes settings + 2 * threshold.
Proof. intros HR H0 Htr Hin. exact (ttrace_in_time _ _ _ _ HR H0 Htr Hin). Qed.

(** A refresh is answered at most the refresh lifetime and one threshold
    after a login of its user was answered. *)
Lemma timely_refresh_bound s0 tr s now authorization info :
  0 ≤ refresh_token_expire_days settings → tinitial s0 → ttrace s0 tr s →
  Served now (ReqRefresh authorization) (RespToken (Ok info)) ∈ tr →
  ∃ user r,
    info = auth_refresh_jwt settings now user ∧ logged_at tr (id user) r ∧
    r ≤ now ≤ r + 86400 * refresh_token_expire_days settings + threshold.
Proof. intros HR H0 Htr Hin. exact (ttrace_in_time _ _ _ _ HR H0 Htr Hin). Qed.

(** ** A request in time is answered *)

(** Phases of one request move neither the clock nor the stamps: a run of
    them in the interleaved service is a run of the timed service as long as
    the request has not timed out when it starts. *)
Lemma irun_advance_trun m w ats tr k arrived tr' w' :
  ats !! k = Some arrived → clock (base w) ≤ arrived + threshold →
  irun settings w tr (replicate m (IAdvance k)) = Some (tr', w') →
  trun (mkStamped w ats) tr (replicate m (IAdvance k)) =
  Some (tr', mkStamped w' ats).
Proof.
  intros Hat. revert w tr. induction m as [|m IH]; simpl; intros w tr Hin.
  { by intros [= <- <-]. }
  unfold texec. simpl. rewrite Hat. simpl.
  unfold not_timed_out. rewrite bool_decide_true by done. simpl.
  destruct (flights w !! k) as [f|]; [simpl|done].
  destruct (advance _ _ _ _ _) as [eff|]; [simpl|done]. by apply IH.
Qed.

(** Every request in flight that has not timed out can be answered before
    it does, by letting it make its remaining phases, three at most. *)
Lemma timely_flight_completes s0 tr s k f arrived :
  tinitial s0 → ttrace s0 tr s →
  flights (running s) !! k = Some f → arrivals s !! k = Some arrived →
  clock (base (running s)) ≤ arrived + threshold →
  ∃ m tr' s' resp,
    (m ≤ 3)%nat ∧ trun s tr (replicate m (IAdvance k)) = Some (tr', s') ∧
    flights (running s') !! k
      = Some (mkFlight (flight_req f) (Answered resp)).
Proof.
  intros [[_ H0] _] Htr Hf Hat Hin.
  pose proof (itrace_flights_wf _ _ _ _ H0 (ttrace_itrace _ _ _ Htr)) as Hwf.
  destruct (flight_answered_within settings 3 (running s) tr k f Hf)
    as (m & tr' & w' & resp & Hm & Hrun & Hk);
    [by eapply Forall_lookup_1|destruct f as [[] []]; simpl; lia|].
  exists m, tr', (mkStamped w' (arrivals s)), resp. split_and!; [done| |done].
  destruct s as [w ats]. by eapply irun_advance_trun.
Qed.

(** ** The atomic service is the timed one without latency *)

Section timed_simulation.
Hypothesis threshold_nonneg : 0 ≤ threshold.

(** The request that arrived last, at the present instant, makes its next
    phase. *)
Lemma texec_advance_last w fl ats req ph eff :
  length ats = length fl →
  advance settings (clock w) (table w) req ph = Some eff →
  texec (mkStamped (mkIWorld w (fl ++ [mkFlight req ph])) (ats ++ [clock w]))
    (IAdvance (length fl)) =
  Some (observe (clock w) req (eff_phase eff),
        mkStamped
          (mkIWorld (apply_effect eff w)
             (fl ++ [mkFlight req (eff_phase eff)]))
          (ats ++ [clock w])).
Proof.
  intros Hlen Ha. unfold texec. simpl.
  rewrite <-Hlen at 1. rewrite !list_lookup_middle by done. simpl.
  unfold not_timed_out. rewrite bool_decide_true by lia. simpl.
  rewrite Ha. simpl.
  by rewrite <-(Nat.add_0_r (length fl)), insert_app_r.
Qed.

Lemma tserving_arrive s0 tr w fl req :
  treached s0 tr w fl → presentable w req = true →
  tserving s0 tr w fl (mkFlight req Arrived).
Proof.
  intros (ats & Hlen & Htr) Hp. exists ats. split; [done|].
  change tr with (record None tr).
  apply (ttrace_cons _ _ _ (IArrive req) _ _ Htr).
  unfold texec. simpl. by rewrite Hp.
Qed.

Lemma tserving_advance s0 tr w fl req ph eff :
  tserving s0 tr w fl (mkFlight req ph) →
  advance settings (clock w) (table w) req ph = Some eff →
  tserving s0 (record (observe (clock w) req (eff_phase eff)) tr)
    (apply_effect eff w) fl (mkFlight req (eff_phase eff)).
Proof.
  intros (ats & Hlen & Htr) Ha. exists ats. split; [done|].
  change (clock (apply_effect eff w)) with (clock w).
  apply (ttrace_cons _ _ _ (IAdvance (length fl)) _ _ Htr).
  by apply texec_advance_last.
Qed.

Lemma tserving_treached s0 tr w fl f :
  tserving s0 tr w fl f → treached s0 tr w (fl ++ [f]).
Proof.
  intros (ats & Hlen & Htr). exists (ats ++ [clock w]).
  split; [|done]. rewrite !length_app. simpl. lia.
Qed.

(** Whatever requests are in flight, a step of [System] is a run of the
    timed service in which the request is served the instant it arrives. *)
Lemma atomic_step_timely s0 tr w fl ev w' :
  treached s0 tr w fl → step settings w ev w' →
  ∃ fl', treached s0 (ev :: tr) w' fl'.
Proof.
  intros Htr Hstep. destruct Hstep as [w req Hp|w dt Hdt|w rows Hwf].
  - destruct (simulate_request settings (tserving s0) (tserving_advance s0)
                tr w fl req) as [ph Hph]; [by apply tserving_arrive|].
    eauto using tserving_treached.
  - destruct Htr as (ats & Hlen & Htr). exists fl, ats. split; [done|].
    apply (ttrace_cons _ _ _ (ITick dt) (Some (Tick dt)) _ Htr).
    unfold texec. simpl. by rewrite bool_decide_true.
  - destruct Htr as (ats & Hlen & Htr). exists fl, ats. split; [done|].
    apply (ttrace_cons _ _ _ (ITable rows) (Some (Table rows)) _ Htr).
    unfold texec. simpl. by rewrite bool_decide_true.
Qed.

(** C22 [atomic_trace_timely]: the atomic service of [System] is the timed
    service without latency: for every threshold that is not negative, zero
    included, every trace of [System] is a trace of the timed service with
    the same events and the same clock, table and issued tokens at the end,
    each request being served the instant it arrives. *)
Theorem atomic_trace_timely w tr w' :
  trace settings w tr w' →
  ∃ s',
    ttrace (mkStamped (mkIWorld w []) []) tr s' ∧ base (running s') = w'.
Proof.
  intros Htr.
  assert (∃ fl', treached (mkStamped (mkIWorld w []) []) tr w' fl')
    as (fl' & ats & _ & Hrun)
    by (induction Htr as [|tr w1 ev w2 _ [fl IH] Hstep];
        [exists [], []; split; [done|constructor]
        |by eapply atomic_step_timely]).
  by eexists.
Qed.

End timed_simulation.

End timing.

(** ** The theorem at the demonstration table *)

(** The run of [demo_iinputs] with a threshold of ten seconds, and then the
    answer to the request for the profile: the login is five seconds old
    when it is answered, the other requests are answered as they arrive. *)
Definition demo_s0 : stamped (codec := demo_codec) (crud := demo_crud) :=
  mkStamped demo_iw0 [].

Definition demo_trun :
    option (list (event (codec := demo_codec) (crud := demo_crud)) *
            stamped (codec := demo_codec) (crud := demo_crud)) :=
  trun (hasher := symbolic_hasher) demo_settings 10 demo_s0 []
    (demo_iinputs ++ [IAdvance 1]).

Definition demo_ttr : list (event (codec := demo_codec) (crud := demo_crud)) :=
  from_option fst [] demo_trun.

Definition demo_s : stamped (codec := demo_codec) (crud := demo_crud) :=
  from_option snd demo_s0 demo_trun.

Lemma demo_ttrace :
  ttrace (hasher := symbolic_hasher) demo_settings 10 demo_s0 demo_ttr demo_s.
Proof.
  apply (trun_ttrace (hasher := symbolic_hasher) demo_settings 10 demo_s0 []
           demo_s0 (demo_iinputs ++ [IAdvance 1])); [constructor|].
  reflexivity.
Qed.

Lemma timely_session_lifetime_bound_witness :
  ∃ i r,
    dict_get (profile 1000 alice) "id" = PyInt i ∧
    logged_at demo_settings demo_ttr i r ∧
    r ≤ 1005 ≤ r + 86400 * refresh_token_expire_days demo_settings
                 + 60 * access_token_expire_minutes demo_settings + 2 * 10.
Proof.
  apply (timely_session_lifetime_bound (hasher := symbolic_hasher)
           demo_settings 10 demo_s0 demo_ttr demo_s 1005
           (authorization_of demo_req_me) (profile 1000 alice));
    [simpl; lia|by repeat split|exact demo_ttrace|].
  apply head_Some_elem_of. reflexivity.
Defined.

Lemma atomic_trace_timely_witness :
  ∃ s',
    ttrace (hasher := symbolic_hasher) (crud := demo_crud) demo_settings 0
      (mkStamped (mkIWorld (base demo_iw0) []) [])
      [Served 1000 (ReqLogin None "alice" "correct-pw")
         (RespToken (Ok (auth_user_issue_jwt (codec := demo_codec)
                           demo_settings 1000 1000 alice)))] s' ∧
    base (running s') =
    (serve (hasher := symbolic_hasher) (crud := demo_crud) demo_settings
       (base demo_iw0) (ReqLogin None "alice" "correct-pw")).2.
Proof.
  apply (atomic_trace_timely (hasher := symbolic_hasher) (crud := demo_crud)
           demo_settings 0 (Z.le_refl 0) (base demo_iw0)).
  apply (trace_cons _ _ [] (base demo_iw0)); [constructor|].
  exact (step_serve (hasher := symbolic_hasher) (crud := demo_crud)
           demo_settings (base demo_iw0)
           (ReqLogin None "alice" "correct-pw") eq_refl).
Defined.
