(* ===== verification/Scenario.v ===== *)
(** Sessions, run: the function [run] of [System] on the symbolic codec and
    the list table, from a registration to the refusals after a
    deactivation and a deletion, and the function [irun] of [Interleaving]
    on requests whose reads are interleaved with changes of the table and of
    the clock, the function [trun] of [Timing], which drops a request
    that is too old, the calls the programs of [Programs] make, and the
    function [srun] of [Scheduler], which resumes the programs one call at a
    time.  The examples evaluate the status line of every request. *)

From stdpp Require Import base numbers strings gmap list.
From S2P Require Import Prelude PyData Http Codec UserStore UserCrud Fixtures.
From S2P Require Import CreateToken Security Routers Programs System.
From S2P Require Import Interleaving Phases Contracts Scheduler Timing.

Local Open Scope Z_scope.

(** The row the registration of [carol] creates in the demonstration table. *)
Definition carol : User :=
  {| id := 3; username := "carol"; password := symbolic_hash "pw3";
     email := "carol@example.org"; active := true |}.

Definition carol_form : NewUser :=
  {| new_username := "carol"; new_password := "pw3";
     new_email := "carol@example.org" |}.

Definition bearer (tok : token (JwtCodec := demo_codec)) :
    authorization_header (T := token (JwtCodec := demo_codec)) :=
  Some ("Bearer", tok).

Definition carol_access (now : Z) : token (JwtCodec := demo_codec) :=
  create_access_token (codec := demo_codec) demo_settings now carol.

Definition carol_refresh (now : Z) : token (JwtCodec := demo_codec) :=
  create_refresh_token (codec := demo_codec) demo_settings now carol.

(** A token with the claims of an access token of [carol], under a key that
    is not the server's. *)
Definition forged : token (JwtCodec := demo_codec) :=
  SToken 8 (access_claims demo_settings 1000 carol).

Definition carol_deactivated : db (UserStore := list_store) :=
  rows_set_active 3 false (demo_rows ++ [carol]).

Definition carol_deleted : db (UserStore := list_store) :=
  rows_delete 3 (demo_rows ++ [carol]).

Definition scenario_w0 : world (codec := demo_codec) (store := list_store) :=
  mkWorld (codec := demo_codec) (store := list_store) 1000 demo_rows [].

Definition scenario :
    list (input (codec := demo_codec) (crud := demo_crud)) :=
  [ InRequest (ReqRegister (crud := demo_crud) None carol_form);
    InRequest (ReqLogin None "carol" "pw3");
    InRequest (ReqLogin None "carol" "guess");
    InRequest (ReqLogin None "nobody" "pw3");
    InRequest (ReqLogin None "bob" "hunter2");
    InRequest (ReqMe (bearer (carol_access 1000)));
    InRequest (ReqMe None);
    InRequest (ReqMe (Some ("Basic", carol_access 1000)));
    InRequest (ReqMe (bearer (carol_refresh 1000)));
    InRequest (ReqRefresh (bearer (carol_access 1000)));
    InRequest (ReqMe (bearer forged));
    InTick 901;
    InRequest (ReqMe (bearer (carol_access 1000)));
    InRequest (ReqRefresh (bearer (carol_refresh 1000)));
    InRequest (ReqMe (bearer (carol_access 1901)));
    InTable carol_deactivated;
    InRequest (ReqMe (bearer (carol_access 1901)));
    InRequest (ReqRefresh (bearer (carol_refresh 1000)));
    InRequest (ReqLogin None "carol" "pw3");
    InTable carol_deleted;
    InRequest (ReqMe (bearer (carol_access 1901)));
    InRequest (ReqLogin None "carol" "pw3") ].

Example scenario_answers :
  answers <$> (fst <$> run (hasher := symbolic_hasher) demo_settings
                          scenario_w0 [] scenario) =
  Some [ (201, "Created");
         (200, "OK");
         (400, "Incorrect username or password");
         (400, "Incorrect username or password");
         (403, "User inactive");
         (200, "OK");
         (401, "Not authenticated");
         (401, "Not authenticated");
         (401, "invalid token type 'refresh' expected 'access'");
         (401, "invalid token type 'access' expected 'refresh'");
         (401, "invalid token error");
         (401, "invalid token error");
         (200, "OK");
         (200, "OK");
         (403, "inactive user");
         (403, "inactive user");
         (403, "User inactive");
         (401, "token invalid (user not found)");
         (400, "Incorrect username or password") ].
Proof. reflexivity. Qed.

(** A token with the server's key that the service never issued is not an
    admissible input: unforgeability rules the run out. *)
Example scenario_forgery_excluded :
  run (hasher := symbolic_hasher) (crud := demo_crud) demo_settings
    scenario_w0 []
    [InRequest (ReqMe (bearer (carol_access 1000)))] = None.
Proof. reflexivity. Qed.

(** ** Requests in flight *)

Definition scenario_iw0 : iworld (codec := demo_codec) (crud := demo_crud) :=
  mkIWorld scenario_w0 [].

Definition alice_deactivated : db (UserStore := list_store) :=
  rows_set_active 1 false demo_rows.

Definition alice_reactivated : db (UserStore := list_store) := demo_rows.

Definition alice_access (now : Z) : token (JwtCodec := demo_codec) :=
  create_access_token (codec := demo_codec) demo_settings now alice.

Definition alice_refresh (now : Z) : token (JwtCodec := demo_codec) :=
  create_refresh_token (codec := demo_codec) demo_settings now alice.

(** The first row logs in; while its refresh request is between the liveness
    check and the signature, the row is deactivated.  The refresh is answered
    with an access token all the same; the token is refused when used. *)
Example scenario_refresh_race :
  answers <$> (fst <$> irun (hasher := symbolic_hasher) (crud := demo_crud)
                          demo_settings scenario_iw0 []
    [ IArrive (ReqLogin None "alice" "correct-pw");
      IAdvance 0; IAdvance 0; IAdvance 0;
      IArrive (ReqRefresh (bearer (alice_refresh 1000)));
      IAdvance 1; IAdvance 1;
      ITable alice_deactivated;
      IAdvance 1;
      IArrive (ReqMe (bearer (alice_access 1000)));
      IAdvance 2; IAdvance 2 ]) =
  Some [ (200, "OK"); (200, "OK"); (403, "inactive user") ].
Proof. reflexivity. Qed.

(** A login between the credential gate and the signatures, likewise; and a
    token that expires between its decoding and the lookup is answered as
    if it had not. *)
Example scenario_login_race :
  answers <$> (fst <$> irun (hasher := symbolic_hasher) (crud := demo_crud)
                          demo_settings scenario_iw0 []
    [ IArrive (ReqLogin None "alice" "correct-pw");
      IAdvance 0;
      ITable alice_deactivated;
      IAdvance 0; ITick 3; IAdvance 0;
      ITable alice_reactivated;
      IArrive (ReqMe (bearer (alice_access 1000)));
      IAdvance 1;
      ITick 5000;
      IAdvance 1 ]) =
  Some [ (200, "OK"); (200, "OK") ].
Proof. reflexivity. Qed.

(** ** Requests in flight, on the clock *)

Definition scenario_s0 : stamped (codec := demo_codec) (crud := demo_crud) :=
  mkStamped scenario_iw0 [].

(** A request for the profile that is decoded when it arrives and looked up
    twenty seconds later is answered when requests may be thirty seconds
    old. *)
Example scenario_in_time :
  answers <$> (fst <$> trun (hasher := symbolic_hasher) (crud := demo_crud)
                          demo_settings 30 scenario_s0 []
    [ IArrive (ReqLogin None "alice" "correct-pw");
      IAdvance 0; IAdvance 0; ITick 3; IAdvance 0;
      IArrive (ReqMe (bearer (alice_access 1000)));
      IAdvance 1;
      ITick 20;
      IAdvance 1 ]) =
  Some [ (200, "OK"); (200, "OK") ].
Proof. reflexivity. Qed.

(** The request of [scenario_login_race], whose token expires between its
    decoding and the lookup, is dropped: the run that answers it is not a
    run of the timed service. *)
Example scenario_timed_out :
  trun (hasher := symbolic_hasher) (crud := demo_crud) demo_settings 30
    scenario_s0 []
    [ IArrive (ReqLogin None "alice" "correct-pw");
      IAdvance 0; IAdvance 0; ITick 3; IAdvance 0;
      IArrive (ReqMe (bearer (alice_access 1000)));
      IAdvance 1;
      ITick 5000;
      IAdvance 1 ] = None.
Proof. reflexivity. Qed.

(** ** The calls of a request *)

(** The calls of the program of a request, answered at the instant 1000 on
    the demonstration table. *)
Definition demo_calls
    (req : request (codec := demo_codec) (crud := demo_crud)) :
    list (call (crud := demo_crud)) :=
  calls 1000 (demo_rows : db (UserStore := list_store))
    (program (hasher := symbolic_hasher) demo_settings req).

(** A profile request with an access token reads the clock, then queries the
    table by the subject of the token; with a refresh token it reads the
    clock and makes no query; without a header it makes no call at all. *)
Example scenario_calls_profile :
  demo_calls (ReqMe (bearer (alice_access 1000))) =
    [UtcNow; SessionGet (PyInt 1)] ∧
  demo_calls (ReqMe (bearer (alice_refresh 1000))) = [UtcNow] ∧
  demo_calls (ReqMe None) = [].
Proof. by repeat split. Qed.

(** A login queries the table by the username and, when the credentials
    pass, reads the clock twice; a login that is refused makes the query and
    no other call, whatever it is refused for. *)
Example scenario_calls_login :
  demo_calls (ReqLogin None "alice" "correct-pw") =
    [Execute "alice"; UtcNow; UtcNow] ∧
  demo_calls (ReqLogin None "alice" "wrong-pw") = [Execute "alice"] ∧
  demo_calls (ReqLogin None "mallory" "correct-pw") = [Execute "mallory"].
Proof. by repeat split. Qed.

(** ** The programs, scheduled *)

Definition scenario_sched0 :
    sworld (codec := demo_codec) (crud := demo_crud) :=
  mkSWorld (base scenario_iw0) [].

(** A login, then a profile request with the refresh token of the login.
    With the programs scheduled one call at a time, the call that decodes
    the token leaves a program that has no call to make, so the refusal is
    sent by that step, at the instant the token was decoded. *)
Example scenario_scheduled_refusal :
  head <$> (fst <$> srun (hasher := symbolic_hasher) (crud := demo_crud)
                      demo_settings scenario_sched0 []
    [ SArrive (ReqLogin None "alice" "correct-pw");
      SResume 0; SResume 0; SResume 0;
      SArrive (ReqMe (bearer (alice_refresh 1000)));
      SResume 1 ]) =
  Some (Some (Served 1000 (ReqMe (bearer (alice_refresh 1000)))
                (RespProfile (Err (invalid_token_type (PyStr "refresh")
                                     "access"))))).
Proof. reflexivity. Qed.

(** In [Interleaving] the check of the kind is a phase of its own: the same
    request, decoded at 1000, is refused at 1005 when the clock ticks in
    between.  This run is not one of the scheduler, in which the task has
    been answered and is resumed no more. *)
Example scenario_phase_without_call :
  head <$> (fst <$> irun (hasher := symbolic_hasher) (crud := demo_crud)
                      demo_settings scenario_iw0 []
    [ IArrive (ReqLogin None "alice" "correct-pw");
      IAdvance 0; IAdvance 0; IAdvance 0;
      IArrive (ReqMe (bearer (alice_refresh 1000)));
      IAdvance 1; ITick 5; IAdvance 1 ]) =
  Some (Some (Served 1005 (ReqMe (bearer (alice_refresh 1000)))
                (RespProfile (Err (invalid_token_type (PyStr "refresh")
                                     "access"))))) ∧
  srun (hasher := symbolic_hasher) (crud := demo_crud) demo_settings
    scenario_sched0 []
    [ SArrive (ReqLogin None "alice" "correct-pw");
      SResume 0; SResume 0; SResume 0;
      SArrive (ReqMe (bearer (alice_refresh 1000)));
      SResume 1; STick 5; SResume 1 ] = None.
Proof. split; reflexivity. Qed.

(** A login that is cancelled after the credential gate has let it pass
    hands out no token: the tokens the service has issued are those of the
    login that was answered. *)
Example scenario_cancelled_login :
  (λ r, (answers r.1, length (issued (sbase r.2)))) <$>
    srun (hasher := symbolic_hasher) (crud := demo_crud) demo_settings
      scenario_sched0 []
      [ SArrive (ReqLogin None "alice" "correct-pw");
        SArrive (ReqLogin None "alice" "correct-pw");
        SResume 0; SResume 1; SCancel 1;
        SResume 0; SResume 0 ] =
  Some ([ (200, "OK") ], 2%nat).
Proof. reflexivity. Qed.
